(** * BlockChainGrok: a shallow embedding of [main.cpp]

    The program downloads pages of block metadata, indexes the main-chain
    blocks by height and by timestamp, computes inter-block-time statistics
    and writes two CSV files.  This development embeds the methods of
    [MainObj] as functions over an explicit object state and an explicit
    world (console, issued requests, files), and proves properties of the
    aggregation, statistics and export code.

    Conventions.
    - [int], [unsigned] and [qint64] values are integers in [Z]; every
      arithmetic operation of the source is followed by the wrap-around of
      its C++ type ([int32], [int64]).
    - [double] arithmetic is abstract ([DoubleOps]); it is instantiated by
      IEEE binary64 ([binary64]) and by exact rationals ([exactQ]).
    - [QMap] is a list of key/value pairs kept in ascending key order.
    - [Fatal] prints its message and terminates the process with status 1.
    - What Qt computes (JSON parsing, [QVariant] coercions, the clock, the
      network) is an input of the model. *)

From Stdlib Require Import ZArith List Sorted String Ascii Bool Lia.
From Stdlib Require Import QArith Qfield.
From Stdlib Require Import DecimalString.
From Stdlib Require Import Floats.PrimFloat Floats.SpecFloat Floats.FloatOps.
Import ListNotations.

Open Scope Z_scope.

(* ================================================================== *)
(** * Machine integers *)

Module Int.

(** Two's complement wrap-around of a [w]-bit signed integer. *)
Definition wrap (w : Z) (x : Z) : Z :=
  (x + 2 ^ (w - 1)) mod 2 ^ w - 2 ^ (w - 1).

(** [int] (32 bits). *)
Definition int32 (x : Z) : Z := wrap 32 x.

(** [qint64], [long long] (64 bits). *)
Definition int64 (x : Z) : Z := wrap 64 x.

Definition INT_MAX : Z := 2 ^ 31 - 1.
Definition INT_MIN : Z := - 2 ^ 31.
Definition INT64_MAX : Z := 2 ^ 63 - 1.
Definition INT64_MIN : Z := - 2 ^ 63.

Definition in_int32 (x : Z) : Prop := INT_MIN <= x <= INT_MAX.
Definition in_int64 (x : Z) : Prop := INT64_MIN <= x <= INT64_MAX.

End Int.
Import Int.

(** [LONG_MAX] of [<climits>] depends on the platform's data model. *)
Class Platform : Type := { LONG_MAX : Z }.

(** LP64 (64-bit Linux and macOS): [long] has 64 bits. *)
Definition LP64 : Platform := {| LONG_MAX := INT64_MAX |}.

(** LLP64 and 32-bit targets: [long] has 32 bits. *)
Definition LLP64 : Platform := {| LONG_MAX := INT_MAX |}.

(* ================================================================== *)
(** * Floating point *)

(** The operations the program applies to [double] values:
    conversion from an integer, [+] and [/]. *)
Class DoubleOps (D : Type) : Type := {
  of_int : Z -> D;
  dadd : D -> D -> D;
  ddiv : D -> D -> D
}.

(** Conversion of an integer to binary64, rounding to nearest even. *)
Definition Z2F (z : Z) : float := SF2Prim (binary_normalize 53 1024 z 0 false).

(** IEEE 754 binary64, what [double] is on the supported platforms. *)
Definition binary64 : DoubleOps float :=
  {| of_int := Z2F; dadd := PrimFloat.add; ddiv := PrimFloat.div |}.

(** Exact rational arithmetic: [double] without rounding.  Division by
    zero yields 0 here; binary64 yields an infinity or a NaN. *)
Definition exactQ : DoubleOps Q :=
  {| of_int := inject_Z; dadd := Qplus; ddiv := Qdiv |}.

(* ================================================================== *)
(** * Blocks and the ordered maps *)

Record Block : Type := mkBlock {
  height : Z;       (* unsigned *)
  hash : string;    (* QString *)
  time : Z          (* qint64 *)
}.

(** [Block()] *)
Definition Block0 : Block := mkBlock 0 EmptyString 0.

(** [QMap<Key, T>] with an integer key: the entries in ascending key order,
    each key once. *)
Module QMap.

Section Ops.
Context {V : Type}.

Definition t : Type := list (Z * V).

Definition empty : t := [].

Definition isEmpty (m : t) : bool :=
  match m with [] => true | _ => false end.

Definition size (m : t) : Z := Z.of_nat (List.length m).

Fixpoint find (k : Z) (m : t) : option V :=
  match m with
  | [] => None
  | (k', v) :: m' => if k =? k' then Some v else find k m'
  end.

Definition contains (k : Z) (m : t) : bool :=
  match find k m with Some _ => true | None => false end.

(** [m[k] = v]: replaces the value of an existing key, otherwise inserts
    the entry at its place in the key order. *)
Fixpoint insert (k : Z) (v : V) (m : t) : t :=
  match m with
  | [] => [(k, v)]
  | (k', v') :: m' =>
      if k <? k' then (k, v) :: m
      else if k =? k' then (k, v) :: m'
      else (k', v') :: insert k v m'
  end.

(** [QMultiMap::insert]: keeps the entries of an equal key; the new entry
    comes before them. *)
Fixpoint insertMulti (k : Z) (v : V) (m : t) : t :=
  match m with
  | [] => [(k, v)]
  | (k', v') :: m' =>
      if k <=? k' then (k, v) :: m
      else (k', v') :: insertMulti k v m'
  end.

(** The values in iteration order (range-based [for] over the map). *)
Definition values (m : t) : list V := map snd m.

Definition keys (m : t) : list Z := map fst m.

(** [first()] and [last()]; the source calls them on non-empty maps only. *)
Definition first (d : V) (m : t) : V := hd d (values m).
Definition last (d : V) (m : t) : V := List.last (values m) d.

(** [m[k]] read on an existing key. *)
Definition at_ (d : V) (k : Z) (m : t) : V :=
  match find k m with Some v => v | None => d end.

End Ops.

Arguments t V : clear implicits.

End QMap.

Definition BlockMap : Type := QMap.t Block.
Definition BlockTimeMap : Type := QMap.t Block.
Definition BlockTimeMultiMap : Type := QMap.t Block.

(* ================================================================== *)
(** * Input: what Qt hands to the program *)

(** The coercions [processResults] applies to one non-empty element of the
    "blocks" array: [toUInt(&ok1)], [toString()], [toLongLong(&ok2)] and
    [toBool()] of the fields "height", "hash", "time" and "main_chain". *)
Record BlockFields : Type := mkFields {
  height_val : Z;
  ok1 : bool;
  hash_val : string;
  time_val : Z;
  ok2 : bool;
  main_chain : bool
}.

(** An element of the "blocks" array after [toMap()]. *)
Inductive Element : Type :=
| EmptyMap                   (* [vm.isEmpty()] *)
| Fields (f : BlockFields).

(** A parsed, non-null document.  [DocObject None]: an object without the
    key "blocks"; [DocObject (Some l)]: [l] is [vm["blocks"].toList()]. *)
Inductive QJsonDocument : Type :=
| DocNotObject
| DocObject (blocksField : option (list Element)).

(** The result of [QJsonDocument::fromJson] on the bytes received. *)
Inductive Body : Type :=
| NullDoc (errorString : string)      (* [d.isNull()] *)
| Doc (d : QJsonDocument).

(** What the network layer signals for one request: [error], or
    [finished] with the whole body received. *)
Inductive Reply : Type :=
| NetworkError (code : Z)
| Finished (body : Body).

(* ================================================================== *)
(** * Output: console, requests and files *)

Section Program.
Context {D : Type} {DO : DoubleOps D} {PF : Platform}.

(** The messages of [Log] and [Fatal], with their arguments. *)
Inductive Msg : Type :=
| MsgUsage
| MsgConnecting (ndays : Z)
| MsgReceived (nblocks day : Z)
| MsgDupeBlock (h : Z) (time2 : Z) (hash2 : string) (time1 : Z) (hash1 : string)
| MsgDupeTime (t : Z) (height2 : Z) (hash2 : string) (height1 : Z) (hash1 : string)
| MsgGot (nBlocks : Z) (days : D)
| MsgAvg (avgMins minMins maxMins : D)
| MsgCutoff (cutoffMins avgMins : D)
| MsgSaved (f f2 : string)
| MsgDone
| FatalNetwork (code : Z)
| FatalJson (errorString : string)
| FatalBlocksNotFound
| FatalEmptyMap
| FatalParse
| FatalUnknownJson
| FatalDelta (h : Z) (delta : Z)
| FatalOpen (fileName : string).

Record World : Type := mkWorld {
  console : list Msg;                    (* lines printed, oldest first *)
  requests : list Z;                     (* timestamps of the URLs requested *)
  files : list (string * list string);   (* files written: name, chunks *)
  writable : string -> bool              (* can the file be opened for writing *)
}.

Definition print (m : Msg) (w : World) : World :=
  mkWorld (console w ++ [m]) (requests w) (files w) (writable w).

Definition request (ts : Z) (w : World) : World :=
  mkWorld (console w) (requests w ++ [ts]) (files w) (writable w).

Definition store (name : string) (chunks : list string) (w : World) : World :=
  mkWorld (console w) (requests w)
          ((name, chunks) :: filter (fun f => negb (String.eqb (fst f) name)) (files w))
          (writable w).

(** ** The monad of the program: world passing with process exit *)

Inductive Outcome (A : Type) : Type :=
| Ret (a : A) (w : World)
| Exit (code : Z) (w : World).

Arguments Ret {A} a w.
Arguments Exit {A} code w.

Definition M (A : Type) : Type := World -> Outcome A.

Definition ret {A : Type} (a : A) : M A := fun w => Ret a w.

Definition bind {A B : Type} (m : M A) (f : A -> M B) : M B :=
  fun w => match m w with
           | Ret a w' => f a w'
           | Exit c w' => Exit c w'
           end.

Notation "x <- m ;; k" := (bind m (fun x => k))
  (at level 61, m at next level, right associativity).
Notation "m ;; k" := (bind m (fun _ => k))
  (at level 61, right associativity).

(** [Log(...)]: prints a line. *)
Definition Log (m : Msg) : M unit := fun w => Ret tt (print m w).

(** [Fatal(...)]: prints a line, then [std::exit(1)]. *)
Definition Fatal {A : Type} (m : Msg) : M A := fun w => Exit 1 (print m w).

(** [qApp->exit(0)]: the event loop returns 0 and so does [main]. *)
Definition appExit {A : Type} (code : Z) : M A := fun w => Exit code w.

Definition sendRequest (ts : Z) : M unit := fun w => Ret tt (request ts w).

Definition openWrite (name : string) : M bool := fun w => Ret (writable w name) w.

Definition writeFile (name : string) (chunks : list string) : M unit :=
  fun w => Ret tt (store name chunks w).

(** A loop whose body may terminate the process. *)
Fixpoint forM {A S : Type} (body : S -> A -> M S) (l : list A) (s : S) : M S :=
  match l with
  | [] => ret s
  | a :: l' => s' <- body s a ;; forM body l' s'
  end.

(* ================================================================== *)
(** * MainObj *)

Record MainObj : Type := mkMainObj {
  NDAYS : Z;
  daysLeft : Z;
  nDupeTimes : Z;
  blocks : BlockMap;
  blocksByTime : BlockTimeMap;
  blocksByTimeMulti : BlockTimeMultiMap
}.

Definition set_daysLeft (d : Z) (o : MainObj) : MainObj :=
  mkMainObj (NDAYS o) d (nDupeTimes o) (blocks o) (blocksByTime o) (blocksByTimeMulti o).

Definition set_nDupeTimes (n : Z) (o : MainObj) : MainObj :=
  mkMainObj (NDAYS o) (daysLeft o) n (blocks o) (blocksByTime o) (blocksByTimeMulti o).

(** The three insertions at the end of the loop body of [processResults]. *)
Definition insertBlock (b : Block) (o : MainObj) : MainObj :=
  mkMainObj (NDAYS o) (daysLeft o) (nDupeTimes o)
            (QMap.insert (height b) b (blocks o))
            (QMap.insert (time b) b (blocksByTime o))
            (QMap.insertMulti (time b) b (blocksByTimeMulti o)).

(** ** processResults *)

(** The body of the loop over the "blocks" array. *)
Definition processElement (o : MainObj) (v : Element) : M MainObj :=
  match v with
  | EmptyMap => Fatal FatalEmptyMap
  | Fields vm =>
      let b := mkBlock (height_val vm) (hash_val vm) (time_val vm) in
      let main := main_chain vm in
      if negb main then ret o
      else if negb (ok1 vm) || negb (ok2 vm) then Fatal FatalParse
      else
        (if QMap.contains (height b) (blocks o)
         then Log (MsgDupeBlock (height b) (time b) (hash b)
                     (time (QMap.at_ Block0 (height b) (blocks o)))
                     (hash (QMap.at_ Block0 (height b) (blocks o))))
         else ret tt) ;;
        o1 <- (if QMap.contains (time b) (blocksByTime o)
               then Log (MsgDupeTime (time b) (height b) (hash b)
                           (height (QMap.at_ Block0 (time b) (blocksByTime o)))
                           (hash (QMap.at_ Block0 (time b) (blocksByTime o)))) ;;
                    ret (set_nDupeTimes (int32 (nDupeTimes o + 1)) o)
               else ret o) ;;
        ret (insertBlock b o1)
  end.

Definition processResults (d : QJsonDocument) (o : MainObj) : M MainObj :=
  match d with
  | DocObject vm =>
      match vm with
      | None => Fatal FatalBlocksNotFound
      | Some [] => Fatal FatalBlocksNotFound
      | Some vl => forM processElement vl o
      end
  | DocNotObject => Fatal FatalUnknownJson
  end.

(** ** getNext *)

Definition aday_ms : Z := 60 * 60 * 24 * 1000.

(** [now] is the value of [QDateTime::currentMSecsSinceEpoch()]. *)
Definition getNext (now : Z) (o : MainObj) : M MainObj :=
  Log (MsgReceived (QMap.size (blocksByTime o)) (int32 (daysLeft o - NDAYS o))) ;;
  let ts := now in
  let '(ts, o) :=
    if negb (QMap.isEmpty (blocksByTime o))
    then (int64 (int64 (time (QMap.first Block0 (blocksByTime o)) * 1000) - aday_ms), o)
    else (ts, set_nDupeTimes 0 o) in
  sendRequest ts ;;
  ret o.

(** ** saveCsv *)

Definition nl : string := String (ascii_of_nat 10) EmptyString.

Definition show (z : Z) : string := NilZero.string_of_int (Z.to_int z).

(** [%d]: the argument is read as an [int]. *)
Definition fmt_d (x : Z) : string := show (int32 x).

(** [%lld] *)
Definition fmt_lld (x : Z) : string := show (int64 x).

Definition headerA : string := "#BlockHeight,BlockTimeUTC,BlockHash" ++ nl.
Definition headerB : string := "#BlockTimeUTC,BlockHeight,BlockHash" ++ nl.

(** ["%d,%lld,%s\n"] of [b.height], [b.time], [b.hash] *)
Definition rowA (b : Block) : string :=
  fmt_d (height b) ++ "," ++ fmt_lld (time b) ++ "," ++ hash b ++ nl.

(** ["%lld,%d,%s\n"] of [b.time], [b.height], [b.hash] *)
Definition rowB (b : Block) : string :=
  fmt_lld (time b) ++ "," ++ fmt_d (height b) ++ "," ++ hash b ++ nl.

Definition fileA : string := "blocks_sorted_by_height.csv".
Definition fileB : string := "blocks_sorted_by_timestamp.csv".

Definition saveCsv (o : MainObj) : M unit :=
  okA <- openWrite fileA ;;
  (if negb okA then Fatal (FatalOpen fileA) else ret tt) ;;
  writeFile fileA (headerA :: map rowA (QMap.values (blocks o))) ;;
  okB <- openWrite fileB ;;
  (if negb okB then Fatal (FatalOpen fileB) else ret tt) ;;
  writeFile fileB (headerB :: map rowB (QMap.values (blocks o))) ;;
  Log (MsgSaved fileA fileB).

(** ** printStatsAndExit *)

(** The local variables of the statistics loop. *)
Record Stats : Type := mkStats {
  avg : D;
  last : Z;
  min : Z;
  max : Z;
  cutoffdeltasums : Z;
  nsums : Z
}.

Definition mycutoff : Z := 7 * 60 + 30.

Definition nBlocksOf (o : MainObj) : Z :=
  int32 (QMap.size (blocksByTime o) + nDupeTimes o).

Definition initStats (o : MainObj) : Stats :=
  mkStats (of_int 0) (-1) (if nDupeTimes o =? 0 then LONG_MAX else 0) (-1) 0 0.

(** The body of the loop over [blocksByTime]. *)
Definition statsStep (nBlocks : Z) (s : Stats) (b : Block) : M Stats :=
  s2 <- (if -1 <? last s then
           let delta := int64 (time b - last s) in
           s1 <- (if delta <? 0 then Fatal (FatalDelta (height b) delta)
                  else ret (mkStats
                              (dadd (avg s)
                                    (ddiv (of_int delta)
                                          (of_int (if 0 <? nBlocks then nBlocks else 1))))
                              (last s)
                              (if delta <? min s then delta else min s)
                              (if max s <? delta then delta else max s)
                              (cutoffdeltasums s) (nsums s))) ;;
           if mycutoff <=? delta
           then ret (mkStats (avg s1) (last s1) (min s1) (max s1)
                             (int64 (cutoffdeltasums s1 + int64 (delta - mycutoff)))
                             (int64 (nsums s1 + 1)))
           else ret s1
         else ret s) ;;
  ret (mkStats (avg s2) (time b) (min s2) (max s2) (cutoffdeltasums s2) (nsums s2)).

Definition statsLoop (o : MainObj) : M Stats :=
  forM (statsStep (nBlocksOf o)) (QMap.values (blocksByTime o)) (initStats o).

Definition daysOf (o : MainObj) : D :=
  if QMap.isEmpty (blocksByTime o) then of_int 0
  else ddiv (ddiv (ddiv (of_int (int64 (time (QMap.last Block0 (blocksByTime o))
                                       - time (QMap.first Block0 (blocksByTime o)))))
                        (of_int 60)) (of_int 60)) (of_int 24).

Definition printStatsAndExit {A : Type} (o : MainObj) : M A :=
  Log (MsgGot (nBlocksOf o) (daysOf o)) ;;
  s <- statsLoop o ;;
  Log (MsgAvg (ddiv (avg s) (of_int 60))
              (ddiv (of_int (min s)) (of_int 60))
              (ddiv (of_int (max s)) (of_int 60))) ;;
  Log (MsgCutoff (ddiv (of_int mycutoff) (of_int 60))
                 (ddiv (ddiv (of_int (cutoffdeltasums s)) (of_int (nsums s))) (of_int 60))) ;;
  saveCsv o ;;
  Log MsgDone ;;
  appExit 0.

(** ** finished *)

(** Returns when the next request has been issued; otherwise the process
    has exited. *)
Definition finished (body : Body) (now : Z) (o : MainObj) : M MainObj :=
  o1 <- match body with
        | NullDoc e => Fatal (FatalJson e)
        | Doc d => processResults d o
        end ;;
  let o2 := set_daysLeft (int32 (daysLeft o1 - 1)) o1 in
  if 0 <? daysLeft o2 then getNext now o2 else printStatsAndExit o2.

(** The slots connected to the reply of a request. *)
Definition onReply (r : Reply) (now : Z) (o : MainObj) : M MainObj :=
  match r with
  | NetworkError c => Fatal (FatalNetwork c)
  | Finished body => finished body now o
  end.

(** ** appEntry, the event loop and main *)

Definition appEntry (now : Z) (o : MainObj) : M MainObj :=
  let o := set_daysLeft (NDAYS o) o in
  Log (MsgConnecting (daysLeft o)) ;;
  getNext now o.

(** The event loop, driven by the replies of the network; each comes with
    the clock value read if a further request is made.  It returns only
    when the replies run out, with a request pending. *)
Fixpoint exec (script : list (Reply * Z)) (o : MainObj) : M MainObj :=
  match script with
  | [] => ret o
  | (r, now) :: script' => o' <- onReply r now o ;; exec script' o'
  end.

(** [MainObj obj(ndays)]: the constructor leaves [daysLeft] and
    [nDupeTimes] uninitialised; [junk1] and [junk2] are what they hold. *)
Definition newMainObj (ndays junk1 junk2 : Z) : MainObj :=
  mkMainObj ndays junk1 junk2 QMap.empty QMap.empty QMap.empty.

(** [argv1]: [QString(argv[1]).toInt()], or [None] when [argc < 2]. *)
Definition main (argv1 : option Z) (junk1 junk2 : Z) (now : Z)
    (script : list (Reply * Z)) : M MainObj :=
  match argv1 with
  | None => Log MsgUsage ;; appExit 1
  | Some ndays =>
      if ndays <=? 0 then Log MsgUsage ;; appExit 1
      else o <- appEntry now (newMainObj ndays junk1 junk2) ;; exec script o
  end.

End Program.

Arguments Ret {D A} a w.
Arguments Exit {D A} code w.
Arguments World D : clear implicits.
Arguments Msg D : clear implicits.
Arguments Stats D : clear implicits.

(* ================================================================== *)
(** * Vocabulary of the specification *)

(** The block an accepted element becomes. *)
Definition blockOf (vm : BlockFields) : Block :=
  mkBlock (height_val vm) (hash_val vm) (time_val vm).

(** The entry of the by-time index an accepted element becomes. *)
Definition entryOf (vm : BlockFields) : Z * Block := (time_val vm, blockOf vm).

(** An element that passes the main-chain filter and the parse check. *)
Definition accepted (vm : BlockFields) : Prop :=
  main_chain vm = true /\ ok1 vm = true /\ ok2 vm = true.

(** Does the element pass the main-chain filter? *)
Definition isMainChain (v : Element) : bool :=
  match v with
  | Fields vm => main_chain vm
  | EmptyMap => false
  end.

(** An element the main-chain filter discards. *)
Definition filtered (v : Element) : Prop :=
  exists vm, v = Fields vm /\ main_chain vm = false.

(** The differences of consecutive entries: [[t1 - t0; t2 - t1; ...]]. *)
Fixpoint gaps (ts : list Z) : list Z :=
  match ts with
  | [] => []
  | t0 :: ts' =>
      match ts' with
      | [] => []
      | t1 :: _ => (t1 - t0) :: gaps ts'
      end
  end.

(** The deltas the statistics loop computes when it enters with
    [last = l]: none is computed after a negative [last]. *)
Fixpoint deltasFrom (l : Z) (ts : list Z) : list Z :=
  match ts with
  | [] => []
  | t0 :: ts' => (if -1 <? l then [t0 - l] else []) ++ deltasFrom t0 ts'
  end.

Definition sumZ (l : list Z) : Z := fold_right Z.add 0 l.

(** The deltas that reach the cutoff. *)
Definition overCutoff (ds : list Z) : list Z :=
  filter (fun d => mycutoff <=? d) ds.

(** The earliest timestamp among the blocks of an index. *)
Definition earliest (m : BlockTimeMap) : Z :=
  fold_right (fun b acc => Z.min (time b) acc)
             (time (hd Block0 (QMap.values m))) (QMap.values m).

(** The arithmetic mean of the consecutive gaps: their sum divided by
    their number. *)
Definition meanOfGaps {D : Type} {DO : DoubleOps D} (ts : list Z) : D :=
  ddiv (of_int (sumZ (gaps ts))) (of_int (Z.of_nat (List.length (gaps ts)))).

(** Ascending timestamps, each a [qint64]. *)
Definition ascending (ts : list Z) : Prop :=
  StronglySorted Z.le ts /\ Forall in_int64 ts.

(** The by-time index as [processResults] builds it: keys strictly
    ascending, and every block stored under its own timestamp. *)
Definition timeIndexed (m : BlockTimeMap) : Prop :=
  StronglySorted Z.lt (QMap.keys m) /\ Forall (fun e => time (snd e) = fst e) m.

(** The by-height index as [processResults] builds it. *)
Definition heightIndexed (m : BlockMap) : Prop :=
  StronglySorted Z.lt (QMap.keys m) /\ Forall (fun e => height (snd e) = fst e) m.

(** Strictly increasing timestamps. *)
Definition increasing (ts : list Z) : Prop := StronglySorted Z.lt ts.

(** One term of the running average. *)
Definition addAvg {D : Type} {DO : DoubleOps D} (nBlocks : Z) (a : D) (delta : Z) : D :=
  dadd a (ddiv (of_int delta) (of_int (if 0 <? nBlocks then nBlocks else 1))).

(** The two updates made for a delta that reaches the cutoff. *)
Definition addOver (sum delta : Z) : Z := int64 (sum + int64 (delta - mycutoff)).
Definition incr (count : Z) (_ : Z) : Z := int64 (count + 1).

(** The body of the statistics loop when the delta is in range and not
    negative: no exit, no wrap-around of the subtraction. *)
Definition stepPure {D : Type} {DO : DoubleOps D} (nBlocks : Z)
    (s : Stats D) (b : Block) : Stats D :=
  if -1 <? last s then
    let delta := time b - last s in
    mkStats (addAvg nBlocks (avg s) delta) (time b)
            (Z.min (min s) delta) (Z.max (max s) delta)
            (if mycutoff <=? delta then addOver (cutoffdeltasums s) delta
             else cutoffdeltasums s)
            (if mycutoff <=? delta then incr (nsums s) delta else nsums s)
  else mkStats (avg s) (time b) (min s) (max s) (cutoffdeltasums s) (nsums s).

(** The three lines [printStatsAndExit] prints once the loop is over. *)
Definition report {D : Type} {DO : DoubleOps D} {PF : Platform}
    (o : MainObj) (s : Stats D) : list (Msg D) :=
  [ MsgGot (nBlocksOf o) (daysOf o);
    MsgAvg (ddiv (avg s) (of_int 60))
           (ddiv (of_int (min s)) (of_int 60))
           (ddiv (of_int (max s)) (of_int 60));
    MsgCutoff (ddiv (of_int mycutoff) (of_int 60))
              (ddiv (ddiv (of_int (cutoffdeltasums s)) (of_int (nsums s)))
                    (of_int 60)) ].

Definition isDupeBlock {D : Type} (m : Msg D) : bool :=
  match m with MsgDupeBlock _ _ _ _ _ => true | _ => false end.

Definition isDupeTime {D : Type} (m : Msg D) : bool :=
  match m with MsgDupeTime _ _ _ _ _ => true | _ => false end.

(** The usual world of a run: nothing printed, requested or written yet. *)
Definition world0 (D : Type) (writable : string -> bool) : World D :=
  mkWorld [] [] [] writable.

(* ================================================================== *)
(** * The text of a log line *)

Module LogText.

(** [QString::endsWith] *)
Definition endsWith (s suffix : string) : bool :=
  (String.length suffix <=? String.length s)%nat
  && String.eqb (substring (String.length s - String.length suffix)
                           (String.length suffix) s) suffix.

(** [Log::finishPrt].  [str] is the text streamed into the object,
    [None] for a null [QString].  The result is the text sent to
    [std::cout], if any, and [str] afterwards. *)
Definition finishPrt (str : option string) : option string * option string :=
  match str with
  | None => (None, None)
  | Some s =>
      (Some (if String.eqb s EmptyString || negb (endsWith s nl)
             then s ++ nl else s)%string,
       None)
  end.

End LogText.

(* ================================================================== *)
(** * Vocabulary for pages, runs and files *)

(** An element the loop of [processResults] gets past. *)
Definition parses (v : Element) : bool :=
  match v with
  | EmptyMap => false
  | Fields vm => negb (main_chain vm) || (ok1 vm && ok2 vm)
  end.

(** A document [processResults] returns from. *)
Definition wellFormedPage (d : QJsonDocument) : bool :=
  match d with
  | DocObject (Some (v :: vl)) => forallb parses (v :: vl)
  | _ => false
  end.

(** The timestamp of a main-chain element is a [qint64]. *)
Definition timeInRange (v : Element) : bool :=
  match v with
  | EmptyMap => true
  | Fields vm =>
      negb (main_chain vm)
      || ((INT64_MIN <=? time_val vm) && (time_val vm <=? INT64_MAX))
  end.

(** A reply that carries a well-formed page with timestamps in range. *)
Definition goodReply (r : Reply) : bool :=
  match r with
  | Finished (Doc (DocObject (Some vl))) =>
      wellFormedPage (DocObject (Some vl)) && forallb timeInRange vl
  | _ => false
  end.

(** A reply that carries a non-empty page of elements off the main
    chain. *)
Definition filteredReply (r : Reply) : bool :=
  match r with
  | Finished (Doc (DocObject (Some (v :: vl)))) =>
      forallb (fun v => match v with
                        | Fields vm => negb (main_chain vm)
                        | EmptyMap => false
                        end) (v :: vl)
  | _ => false
  end.

(** The block of the last main-chain element of a page whose key is [k],
    or [old] when the page has none. *)
Definition lastAccepted (key : BlockFields -> Z) (k : Z) (vl : list Element)
    (old : option Block) : option Block :=
  fold_left (fun acc v =>
               match v with
               | Fields vm =>
                   if main_chain vm && (key vm =? k) then Some (blockOf vm) else acc
               | EmptyMap => acc
               end) vl old.

(** The number of elements of a page on the main chain. *)
Definition mainChainCount (vl : list Element) : Z :=
  Z.of_nat (List.length (filter isMainChain vl)).

(** The content of a file of the world. *)
Definition lookupFile (name : string) (fs : list (string * list string))
    : option (list string) :=
  match List.find (fun f => String.eqb (fst f) name) fs with
  | Some f => Some (snd f)
  | None => None
  end.

(** Two worlds that differ in the console at most. *)
Definition sameIO {D : Type} (w w' : World D) : Prop :=
  files w' = files w /\ requests w' = requests w /\ writable w' = writable w.

(** The multi-index as [processResults] builds it: keys ascending, and
    every block stored under its own timestamp. *)
Definition multiIndexed (m : BlockTimeMultiMap) : Prop :=
  StronglySorted Z.le (QMap.keys m) /\ Forall (fun e => time (snd e) = fst e) m.

(** The three indexes as [processResults] builds them, with timestamps
    in the range of [qint64]. *)
Definition indexed (o : MainObj) : Prop :=
  timeIndexed (blocksByTime o) /\ heightIndexed (blocks o)
  /\ multiIndexed (blocksByTimeMulti o)
  /\ Forall in_int64 (QMap.keys (blocksByTime o)).

(** The greatest and the least of a list of gaps, from a start value. *)
Definition maxFrom (start : Z) (ds : list Z) : Z := fold_left Z.max ds start.
Definition minFrom (start : Z) (ds : list Z) : Z := fold_left Z.min ds start.

(* ================================================================== *)
(** * Sample inputs *)

Module Sample.

Definition always (_ : string) : bool := true.

(** An accepted element. *)
Definition el (h : Z) (hs : string) (t : Z) : Element :=
  Fields (mkFields h true hs t true true).

(** An element off the main chain whose numbers did not parse. *)
Definition orphan : BlockFields := mkFields 0 false "0f" 0 false false.

(** Two blocks whose time order is the reverse of their height order. *)
Definition crossed : list Element := [el 1 "a" 200; el 2 "b" 100].

(** Two blocks ten minutes apart. *)
Definition tenMinutes : list BlockFields :=
  [mkFields 1 true "a" 0 true true; mkFields 2 true "b" 600 true true].

(** Three blocks, the first one before the epoch. *)
Definition beforeEpoch : list BlockFields :=
  [mkFields 1 true "a" (-10) true true; mkFields 2 true "b" 0 true true;
   mkFields 3 true "c" 600 true true].

(** Two records with one timestamp. *)
Definition sameTime1 : BlockFields := mkFields 478000 true "00a1" 1500000000 true true.
Definition sameTime2 : BlockFields := mkFields 478001 true "00b2" 1500000000 true true.

(** Two records with one height. *)
Definition sameHeight1 : BlockFields := mkFields 478000 true "00a1" 1500000000 true true.
Definition sameHeight2 : BlockFields := mkFields 478000 true "00c3" 1500000600 true true.

(** An object holding two blocks ten minutes apart. *)
Definition blockA : Block := mkBlock 478000 "00a1" 1500000000.
Definition blockB : Block := mkBlock 478001 "00b2" 1500000600.

Definition twoBlocks (dupes : Z) : MainObj :=
  mkMainObj 1 0 dupes
            [(478000, blockA); (478001, blockB)]
            [(1500000000, blockA); (1500000600, blockB)]
            [(1500000000, blockA); (1500000600, blockB)].

(** An object holding one block. *)
Definition oneBlock : MainObj :=
  mkMainObj 1 0 0 [(478000, blockA)] [(1500000000, blockA)] [(1500000000, blockA)].

(** An object whose by-time index is corrupt: the later block first. *)
Definition disordered : MainObj :=
  mkMainObj 1 0 0
            [(478000, blockA); (478001, blockB)]
            [(1, blockB); (2, blockA)]
            [].

(** The object before the first page of a three-day run. *)
Definition fresh : MainObj := mkMainObj 3 3 0 QMap.empty QMap.empty QMap.empty.

(** Three blocks in time order, the first one before the epoch, the gaps
    1000 and 500. *)
Definition negativeStart : list BlockFields :=
  [mkFields 1 true "a" (-1000) true true; mkFields 2 true "b" 0 true true;
   mkFields 3 true "c" 500 true true].

(** Only the first CSV file can be opened. *)
Definition onlyA (name : string) : bool := String.eqb name fileA.

(** A page of one block, a day before [blockA]. *)
Definition earlierPage : list Element := [el 477856 "0099" 1499913600].

(** A page of two blocks around an element off the main chain. *)
Definition mixedPage : list Element :=
  [Fields sameTime1; Fields orphan; Fields sameHeight2].

(** The replies of a two-day run. *)
Definition twoDays : list (Reply * Z) :=
  [ (Finished (Doc (DocObject (Some mixedPage))), 1500003000000);
    (Finished (Doc (DocObject (Some earlierPage))), 1500004000000) ].

(** Two replies with nothing of the main chain. *)
Definition twoEmptyDays : list (Reply * Z) :=
  [ (Finished (Doc (DocObject (Some [Fields orphan]))), 1500003000000);
    (Finished (Doc (DocObject (Some [Fields orphan; Fields orphan]))), 1500004000000) ].

(** A block at the greatest height an [unsigned] holds. *)
Definition highBlock : Block := mkBlock 4294967295 "00ff" 1500000000.

End Sample.

(* ================================================================== *)
(** * Machine integers: facts *)

Lemma int32_id (x : Z) : in_int32 x -> int32 x = x.
Proof.
  unfold in_int32, INT_MIN, INT_MAX, int32, wrap. intros H.
  change (2 ^ (32 - 1)) with 2147483648. change (2 ^ 32) with 4294967296.
  change (2 ^ 31) with 2147483648 in H.
  rewrite Z.mod_small; lia.
Qed.

Lemma int64_id (x : Z) : in_int64 x -> int64 x = x.
Proof.
  unfold in_int64, INT64_MIN, INT64_MAX, int64, wrap. intros H.
  change (2 ^ (64 - 1)) with 9223372036854775808.
  change (2 ^ 64) with 18446744073709551616.
  change (2 ^ 63) with 9223372036854775808 in H.
  rewrite Z.mod_small; lia.
Qed.

(* ================================================================== *)
(** * QMap: facts *)

Module QMapFacts.
Import QMap.

Section Facts.
Context {V : Type}.
Implicit Types (m : QMap.t V) (k : Z) (v : V).

Lemma find_insert_eq k v m : find k (insert k v m) = Some v.
Proof.
  induction m as [|[k' v'] m IH]; simpl.
  - now rewrite Z.eqb_refl.
  - destruct (k <? k') eqn:Hlt; simpl.
    + now rewrite Z.eqb_refl.
    + destruct (k =? k') eqn:Heq; simpl.
      * now rewrite Z.eqb_refl.
      * now rewrite Heq.
Qed.

Lemma find_insert_ne k k0 v m : k0 <> k -> find k0 (insert k v m) = find k0 m.
Proof.
  intros Hne. induction m as [|[k' v'] m IH]; simpl.
  - destruct (k0 =? k) eqn:E; [apply Z.eqb_eq in E; contradiction | reflexivity].
  - destruct (k <? k') eqn:Hlt; simpl.
    + destruct (k0 =? k) eqn:E; [apply Z.eqb_eq in E; contradiction | reflexivity].
    + destruct (k =? k') eqn:Heq; simpl.
      * apply Z.eqb_eq in Heq. subst k'.
        destruct (k0 =? k) eqn:E; [apply Z.eqb_eq in E; contradiction | reflexivity].
      * now rewrite IH.
Qed.

Lemma contains_insert_eq k v m : contains k (insert k v m) = true.
Proof. unfold contains. now rewrite find_insert_eq. Qed.

Lemma contains_insert_ne k k0 v m :
  k0 <> k -> contains k0 (insert k v m) = contains k0 m.
Proof. intros. unfold contains. now rewrite find_insert_ne. Qed.

(** Writing a key twice keeps the second value only. *)
Lemma insert_insert k v1 v2 m : insert k v2 (insert k v1 m) = insert k v2 m.
Proof.
  induction m as [|[k' v'] m IH]; simpl.
  - now rewrite Z.ltb_irrefl, Z.eqb_refl.
  - destruct (k <? k') eqn:Hlt; simpl.
    + now rewrite Z.ltb_irrefl, Z.eqb_refl.
    + destruct (k =? k') eqn:Heq; simpl.
      * now rewrite Z.ltb_irrefl, Z.eqb_refl.
      * now rewrite Hlt, Heq, IH.
Qed.

Lemma size_insert_new k v m :
  contains k m = false -> size (insert k v m) = size m + 1.
Proof.
  unfold contains, size. induction m as [|[k' v'] m IH]; simpl; intros Hc.
  - reflexivity.
  - destruct (k =? k') eqn:Heq; [discriminate|].
    destruct (k <? k'); simpl.
    + lia.
    + specialize (IH Hc). lia.
Qed.

Lemma at_insert_eq d k v m : at_ d k (insert k v m) = v.
Proof. unfold at_. now rewrite find_insert_eq. Qed.

(** A key above all keys of the map is inserted at the end. *)
Lemma insert_above k v m :
  Forall (fun k' => k' < k) (keys m) -> insert k v m = m ++ [(k, v)].
Proof.
  induction m as [|[k' v'] m IH]; simpl; intros H.
  - reflexivity.
  - inversion H as [|? ? Hk Hm]; subst. simpl in Hk.
    destruct (k <? k') eqn:Hlt; [apply Z.ltb_lt in Hlt; lia|].
    destruct (k =? k') eqn:Heq; [apply Z.eqb_eq in Heq; lia|].
    now rewrite IH.
Qed.

Lemma contains_above k m :
  Forall (fun k' => k' < k) (keys m) -> contains k m = false.
Proof.
  unfold contains. induction m as [|[k' v'] m IH]; simpl; intros H.
  - reflexivity.
  - inversion H as [|? ? Hk Hm]; subst. simpl in Hk.
    destruct (k =? k') eqn:Heq; [apply Z.eqb_eq in Heq; lia|].
    now apply IH.
Qed.

Lemma contains_notin k m : ~ In k (keys m) -> contains k m = false.
Proof.
  unfold contains. induction m as [|[k' v'] m IH]; simpl; intros H.
  - reflexivity.
  - destruct (k =? k') eqn:Heq.
    + apply Z.eqb_eq in Heq. exfalso. apply H. now left.
    + apply IH. intros Hin. apply H. now right.
Qed.

Lemma contains_below k m :
  Forall (fun k' => k < k') (keys m) -> contains k m = false.
Proof.
  intros H. apply contains_notin. intros Hin.
  rewrite Forall_forall in H. specialize (H _ Hin). lia.
Qed.

(** In a sorted map, writing an existing key keeps the size. *)
Lemma size_insert_old k v m :
  StronglySorted Z.lt (keys m) -> contains k m = true ->
  size (insert k v m) = size m.
Proof.
  unfold size. induction m as [|[k' v'] m IH]; cbn [keys map fst]; intros Hs Hc.
  - discriminate.
  - inversion Hs as [|? ? Hs' Hall]; subst. cbn [insert].
    destruct (Z.ltb_spec k k') as [Hlt|Hge].
    + exfalso. rewrite contains_below in Hc; [discriminate|].
      cbn [keys map fst]. constructor; [exact Hlt|].
      eapply Forall_impl; [|exact Hall]. simpl. intros; lia.
    + destruct (Z.eqb_spec k k') as [->|Hne]; [reflexivity|].
      cbn [List.length]. f_equal. f_equal.
      apply Nat2Z.inj. apply IH; [exact Hs'|].
      unfold contains in *. cbn [find] in Hc.
      destruct (Z.eqb_spec k k'); [contradiction|exact Hc].
Qed.

Lemma keys_insert_in k k0 v m : In k0 (keys (insert k v m)) -> k0 = k \/ In k0 (keys m).
Proof.
  induction m as [|[k' v'] m IH]; simpl.
  - intros [H|[]]; now left.
  - destruct (k <? k'); simpl.
    + intros [H|[H|H]]; auto.
    + destruct (k =? k') eqn:Heq; simpl.
      * intros [H|H]; auto.
      * intros [H|H]; auto. destruct (IH H); auto.
Qed.

End Facts.
End QMapFacts.

(** Projections of an updated object. *)
Ltac obj_simpl :=
  unfold insertBlock, set_nDupeTimes, set_daysLeft;
  cbn [NDAYS daysLeft nDupeTimes blocks blocksByTime blocksByTimeMulti
       blockOf time height hash].

(* ================================================================== *)
(** * The parser and aggregator *)

Section Aggregation.
Context {D : Type} {DO : DoubleOps D} {PF : Platform}.
Implicit Types (o : MainObj) (w : World D) (v : Element) (vm : BlockFields).

Lemma console_print (m : Msg D) w : console (print m w) = console w ++ [m].
Proof. reflexivity. Qed.

(** A filtered element leaves the object and the world as they are,
    whatever its other fields hold. *)
Lemma processElement_filtered o v w :
  filtered v -> processElement o v w = Ret o w.
Proof.
  intros (vm & -> & Hmain). unfold processElement. now rewrite Hmain.
Qed.

Lemma forM_filtered (vl : list Element) o w :
  Forall filtered vl -> forM processElement vl o w = Ret o w.
Proof.
  induction 1 as [|v vl Hv _ IH]; simpl.
  - reflexivity.
  - unfold bind. now rewrite (processElement_filtered o v w Hv).
Qed.

Lemma forM_skip (skip rest : list Element) o w :
  Forall filtered skip ->
  forM processElement (skip ++ rest) o w = forM processElement rest o w.
Proof.
  induction 1 as [|v skip Hv _ IH]; cbn [app forM].
  - reflexivity.
  - unfold bind. now rewrite (processElement_filtered o v w Hv).
Qed.

(** Filtered elements around two elements of a page change nothing. *)
Lemma forM_pair_among_filtered (skip0 skip1 skip2 : list Element) v1 v2 o w :
  Forall filtered skip0 -> Forall filtered skip1 -> Forall filtered skip2 ->
  forM processElement (skip0 ++ v1 :: skip1 ++ v2 :: skip2) o w
  = forM processElement [v1; v2] o w.
Proof.
  intros H0 H1 H2. rewrite forM_skip by assumption.
  cbn [forM]. unfold bind.
  destruct (processElement o v1 w) as [o1 w1|]; [|reflexivity].
  rewrite forM_skip by assumption. cbn [forM]. unfold bind.
  destruct (processElement o1 v2 w1) as [o2 w2|]; [|reflexivity].
  now apply forM_filtered.
Qed.

Lemma processResults_nonempty (vl : list Element) o w :
  vl <> [] -> processResults (DocObject (Some vl)) o w = forM processElement vl o w.
Proof. destruct vl; [contradiction | reflexivity]. Qed.

(** The loop body on an accepted element, effects spelled out. *)
Lemma processElement_accepted o vm w :
  accepted vm ->
  processElement o (Fields vm) w =
    let b := blockOf vm in
    let w1 := if QMap.contains (height b) (blocks o)
              then print (MsgDupeBlock (height b) (time b) (hash b)
                            (time (QMap.at_ Block0 (height b) (blocks o)))
                            (hash (QMap.at_ Block0 (height b) (blocks o)))) w
              else w in
    let dup := QMap.contains (time b) (blocksByTime o) in
    let w2 := if dup
              then print (MsgDupeTime (time b) (height b) (hash b)
                            (height (QMap.at_ Block0 (time b) (blocksByTime o)))
                            (hash (QMap.at_ Block0 (time b) (blocksByTime o)))) w1
              else w1 in
    Ret (insertBlock b (if dup then set_nDupeTimes (int32 (nDupeTimes o + 1)) o else o)) w2.
Proof.
  intros (Hm & H1 & H2). unfold processElement, blockOf.
  rewrite Hm, H1, H2. cbn -[int32].
  unfold bind.
  destruct (QMap.contains (height_val vm) (blocks o));
    destruct (QMap.contains (time_val vm) (blocksByTime o)); reflexivity.
Qed.

(** When the element loop terminates the process, the last line printed
    is one of its two fatal messages. *)
Lemma forM_processElement_exit (vl : list Element) : forall o w c w',
  forM processElement vl o w = Exit c w' ->
  exists out m, console w' = console w ++ out ++ [m]
                /\ (m = FatalEmptyMap \/ m = FatalParse).
Proof.
  induction vl as [|v vl IH]; simpl; intros o w c w' H.
  - discriminate.
  - unfold bind in H.
    destruct v as [|vm].
    + cbn in H. injection H as <- <-. exists [], FatalEmptyMap. auto.
    + destruct (main_chain vm) eqn:Hm.
      * destruct (ok1 vm) eqn:H1; [destruct (ok2 vm) eqn:H2|].
        -- rewrite processElement_accepted in H by (repeat split; assumption).
           cbv zeta in H. apply IH in H. destruct H as (out & m & Hc & Hm').
           match type of Hc with
           | _ = console ?w2 ++ _ =>
               assert (Hpre : exists pre, console w2 = console w ++ pre)
           end.
           { destruct (QMap.contains (height (blockOf vm)) (blocks o));
               destruct (QMap.contains (time (blockOf vm)) (blocksByTime o));
               rewrite ?console_print; rewrite <- ?app_assoc;
               eexists; try reflexivity.
             symmetry; apply app_nil_r. }
           destruct Hpre as (pre & Hpre). rewrite Hpre, <- app_assoc in Hc.
           exists (pre ++ out), m. rewrite <- app_assoc. auto.
        -- unfold processElement in H. rewrite Hm, H1, H2 in H. cbn in H.
           injection H as <- <-. exists [], FatalParse. auto.
        -- unfold processElement in H. rewrite Hm, H1 in H. cbn in H.
           injection H as <- <-. exists [], FatalParse. auto.
      * rewrite processElement_filtered in H by (exists vm; auto).
        now apply IH in H.
Qed.

(** C4. A page whose "blocks" array is non-empty and holds only elements
    with [main_chain == false] is not fatal: [processResults] returns with
    the object (both indexes, the counter) and the console unchanged, and
    [finished] goes on to the next request or to the statistics as after
    any page.  An absent or an empty "blocks" array is fatal, and the
    "Blocks array not found" exit happens for these two documents only. *)
Theorem all_filtered_page_is_skipped o w (vl : list Element) :
  vl <> [] -> Forall filtered vl ->
  processResults (DocObject (Some vl)) o w = Ret o w
  /\ (forall now,
        finished (Doc (DocObject (Some vl))) now o w =
          let o2 := set_daysLeft (int32 (daysLeft o - 1)) o in
          if 0 <? daysLeft o2 then getNext now o2 w else printStatsAndExit o2 w)
  /\ processResults (DocObject None) o w = Exit 1 (print FatalBlocksNotFound w)
  /\ processResults (DocObject (Some [])) o w = Exit 1 (print FatalBlocksNotFound w)
  /\ (forall d c w',
        processResults d o w = Exit c w' ->
        console w' = console w ++ [FatalBlocksNotFound] ->
        d = DocObject None \/ d = DocObject (Some [])).
Proof.
  intros Hne Hall.
  assert (Hpage : processResults (DocObject (Some vl)) o w = Ret o w).
  { unfold processResults. destruct vl as [|v vl]; [contradiction|].
    now apply forM_filtered. }
  split; [exact Hpage|]. split; [|split; [reflexivity|split; [reflexivity|]]].
  - intros now. unfold finished, bind. rewrite Hpage. cbv zeta.
    now destruct (0 <? daysLeft (set_daysLeft (int32 (daysLeft o - 1)) o)).
  - intros d c w' Hexit Hcons.
    destruct d as [|[[|v l]|]]; auto.
    + cbn in Hexit. injection Hexit as <- <-. rewrite console_print in Hcons.
      apply app_inv_head in Hcons. discriminate.
    + unfold processResults in Hexit.
      apply forM_processElement_exit in Hexit.
      destruct Hexit as (out & m & Hc & Hm). rewrite Hc in Hcons.
      apply app_inv_head in Hcons.
      change [FatalBlocksNotFound] with ([] ++ [@FatalBlocksNotFound D]) in Hcons.
      apply app_inj_tail in Hcons. destruct Hcons as [_ ->].
      destruct Hm; discriminate.
Qed.

(** C10. The main-chain filter comes before the parse check: an element
    with [main_chain == false] is skipped, object and world unchanged,
    whatever [ok1] and [ok2] are, and so is a page of such elements; an
    element on which the loop body exits with "Parse error" is a
    main-chain element whose height or time failed to parse. *)
Theorem filter_precedes_parse_check o w vm :
  main_chain vm = false ->
  processElement o (Fields vm) w = Ret o w
  /\ processResults (DocObject (Some [Fields vm])) o w = Ret o w
  /\ (forall v c w',
        processElement o v w = Exit c w' ->
        console w' = console w ++ [FatalParse] ->
        exists vm', v = Fields vm' /\ main_chain vm' = true
                    /\ (ok1 vm' = false \/ ok2 vm' = false)).
Proof.
  intros Hmain.
  assert (Hf : filtered (Fields vm)) by (exists vm; auto).
  split; [now apply processElement_filtered|].
  split; [unfold processResults; apply forM_filtered; now constructor|].
  intros v c w' Hexit Hcons. destruct v as [|vm'].
  - cbn in Hexit. injection Hexit as <- <-. rewrite console_print in Hcons.
    apply app_inv_head in Hcons. discriminate.
  - exists vm'. split; [reflexivity|].
    destruct (main_chain vm') eqn:Hm.
    + split; [reflexivity|].
      destruct (ok1 vm') eqn:H1; [|now left].
      destruct (ok2 vm') eqn:H2; [|now right].
      rewrite processElement_accepted in Hexit by (repeat split; assumption).
      discriminate.
    + rewrite processElement_filtered in Hexit by (exists vm'; auto).
      discriminate.
Qed.

End Aggregation.

(* ================================================================== *)
(** * Colliding records *)

Section Collisions.
Context {D : Type}.
Implicit Types (o : MainObj) (w : World D) (vm : BlockFields).
Import QMapFacts.

Lemma blockOf_differs vm1 vm2 :
  height_val vm1 <> height_val vm2 \/ hash_val vm1 <> hash_val vm2
  \/ time_val vm1 <> time_val vm2 ->
  blockOf vm2 <> blockOf vm1.
Proof.
  unfold blockOf. intros H E. injection E as Eh Es Et.
  destruct H as [H|[H|H]]; apply H; congruence.
Qed.

(** C3. A page holds two accepted records with the same timestamp,
    differing in height or hash, among any number of elements off the
    main chain; it is processed by an object whose by-time index does not
    hold that timestamp yet.  The index then maps
    the timestamp to the later record and is what inserting the later
    record alone gives; one duplicate-timestamp line is printed, naming
    the later and the earlier record; the counter has grown by exactly 1,
    the size of the index by 1, and the total the statistics use,
    [size + counter], by 2: the number of records processed. *)
Theorem duplicate_timestamp_pair o w vm1 vm2 (skip0 skip1 skip2 : list Element) :
  accepted vm1 -> accepted vm2 ->
  Forall filtered skip0 -> Forall filtered skip1 -> Forall filtered skip2 ->
  time_val vm1 = time_val vm2 ->
  height_val vm1 <> height_val vm2 \/ hash_val vm1 <> hash_val vm2 ->
  QMap.contains (time_val vm1) (blocksByTime o) = false ->
  0 <= nDupeTimes o ->
  QMap.size (blocksByTime o) + nDupeTimes o + 2 <= INT_MAX ->
  exists o' w' out,
    processResults
      (DocObject (Some (skip0 ++ Fields vm1 :: skip1 ++ Fields vm2 :: skip2))) o w
      = Ret o' w'
    /\ blocksByTime o' = QMap.insert (time_val vm2) (blockOf vm2) (blocksByTime o)
    /\ QMap.find (time_val vm2) (blocksByTime o') = Some (blockOf vm2)
    /\ blockOf vm2 <> blockOf vm1
    /\ console w' = console w ++ out
    /\ filter isDupeTime out =
         [MsgDupeTime (time_val vm2) (height_val vm2) (hash_val vm2)
                      (height_val vm1) (hash_val vm1)]
    /\ nDupeTimes o' = nDupeTimes o + 1
    /\ QMap.size (blocksByTime o') = QMap.size (blocksByTime o) + 1
    /\ nBlocksOf o' = nBlocksOf o + 2.
Proof.
  intros A1 A2 S0 S1 S2 Ht Hdiff Hnew Hnd Hmax.
  assert (Hsz : 0 <= QMap.size (blocksByTime o)) by (unfold QMap.size; lia).
  rewrite processResults_nonempty by (destruct skip0; discriminate).
  rewrite forM_pair_among_filtered by assumption.
  cbn [forM]. unfold bind.
  rewrite (processElement_accepted o vm1 w A1). cbv zeta.
  cbn [blockOf time height hash]. rewrite Hnew.
  set (w1 := if QMap.contains (height_val vm1) (blocks o) then _ else w).
  assert (Hw1 : exists out1, console w1 = console w ++ out1 /\ filter isDupeTime out1 = []).
  { subst w1. destruct (QMap.contains (height_val vm1) (blocks o)).
    - eexists. split; [apply console_print | reflexivity].
    - exists []. split; [symmetry; apply app_nil_r | reflexivity]. }
  destruct Hw1 as (out1 & Hc1 & Hf1).
  rewrite (processElement_accepted _ vm2 w1 A2). cbv zeta.
  cbn [blockOf time height hash insertBlock blocksByTime blocks nDupeTimes].
  rewrite <- Ht, contains_insert_eq, at_insert_eq.
  cbn [blockOf time height hash insertBlock blocksByTime blocks nDupeTimes
       set_nDupeTimes NDAYS daysLeft blocksByTimeMulti].
  set (w2 := if QMap.contains (height_val vm2) _ then _ else w1).
  assert (Hw2 : exists out2, console w2 = console w1 ++ out2 /\ filter isDupeTime out2 = []).
  { subst w2. destruct (QMap.contains (height_val vm2) _).
    - eexists. split; [apply console_print | reflexivity].
    - exists []. split; [symmetry; apply app_nil_r | reflexivity]. }
  destruct Hw2 as (out2 & Hc2 & Hf2).
  assert (Hi : int32 (nDupeTimes o + 1) = nDupeTimes o + 1).
  { apply int32_id. unfold in_int32, INT_MIN, INT_MAX in *. lia. }
  do 2 eexists.
  exists (out1 ++ out2 ++
          [MsgDupeTime (time_val vm1) (height_val vm2) (hash_val vm2)
                       (height_val vm1) (hash_val vm1)]).
  split; [reflexivity|].
  obj_simpl. rewrite <- ?Ht. rewrite !insert_insert.
  split; [reflexivity|]. split; [apply find_insert_eq|].
  split; [apply blockOf_differs; tauto|].
  split; [rewrite console_print, Hc2, Hc1, <- !app_assoc; reflexivity|].
  split; [rewrite !filter_app, Hf1, Hf2; reflexivity|].
  split; [exact Hi|].
  split; [now apply size_insert_new|].
  unfold nBlocksOf. obj_simpl.
  rewrite size_insert_new by assumption. rewrite Hi.
  rewrite !int32_id; unfold in_int32, INT_MIN, INT_MAX in *; lia.
Qed.

(** C7. A page holds two accepted records with the same height,
    differing in hash or time, among any number of elements off the main
    chain; it is processed by an object whose by-height index does not
    hold that height yet.  The index then maps
    the height to the later record and is what inserting the later record
    alone gives; exactly one duplicate-height line is printed, and it
    carries the time and hash of the earlier record, read from the index
    before the overwrite.  When the two timestamps differ and are new to
    the by-time index, the duplicate-timestamp counter keeps its value and
    no duplicate-timestamp line is printed. *)
Theorem duplicate_height_pair o w vm1 vm2 (skip0 skip1 skip2 : list Element) :
  accepted vm1 -> accepted vm2 ->
  Forall filtered skip0 -> Forall filtered skip1 -> Forall filtered skip2 ->
  height_val vm1 = height_val vm2 ->
  hash_val vm1 <> hash_val vm2 \/ time_val vm1 <> time_val vm2 ->
  QMap.contains (height_val vm1) (blocks o) = false ->
  exists o' w' out,
    processResults
      (DocObject (Some (skip0 ++ Fields vm1 :: skip1 ++ Fields vm2 :: skip2))) o w
      = Ret o' w'
    /\ blocks o' = QMap.insert (height_val vm2) (blockOf vm2) (blocks o)
    /\ QMap.find (height_val vm2) (blocks o') = Some (blockOf vm2)
    /\ blockOf vm2 <> blockOf vm1
    /\ console w' = console w ++ out
    /\ filter isDupeBlock out =
         [MsgDupeBlock (height_val vm2) (time_val vm2) (hash_val vm2)
                       (time_val vm1) (hash_val vm1)]
    /\ (time_val vm1 <> time_val vm2 ->
        QMap.contains (time_val vm1) (blocksByTime o) = false ->
        QMap.contains (time_val vm2) (blocksByTime o) = false ->
        nDupeTimes o' = nDupeTimes o /\ filter isDupeTime out = []).
Proof.
  intros A1 A2 S0 S1 S2 Hh Hdiff Hnew.
  rewrite processResults_nonempty by (destruct skip0; discriminate).
  rewrite forM_pair_among_filtered by assumption.
  cbn [forM]. unfold bind.
  rewrite (processElement_accepted o vm1 w A1). cbv zeta.
  cbn [blockOf time height hash]. rewrite Hnew.
  rewrite (processElement_accepted _ vm2 _ A2). cbv zeta.
  cbn [blockOf time height hash].
  set (d1 := QMap.contains (time_val vm1) (blocksByTime o)).
  set (o1 := insertBlock _ (if d1 then _ else o)).
  assert (Hb1 : blocks o1 = QMap.insert (height_val vm1) (blockOf vm1) (blocks o)).
  { subst o1. now destruct d1. }
  assert (Ht1 : blocksByTime o1 = QMap.insert (time_val vm1) (blockOf vm1) (blocksByTime o)).
  { subst o1. now destruct d1. }
  rewrite Hb1, <- Hh, contains_insert_eq, at_insert_eq.
  cbn [blockOf time height hash].
  set (d2 := QMap.contains (time_val vm2) (blocksByTime o1)).
  do 2 eexists.
  exists ((if d1 then [MsgDupeTime (time_val vm1) (height_val vm1) (hash_val vm1)
                         (height (QMap.at_ Block0 (time_val vm1) (blocksByTime o)))
                         (hash (QMap.at_ Block0 (time_val vm1) (blocksByTime o)))]
           else []) ++
          [MsgDupeBlock (height_val vm1) (time_val vm2) (hash_val vm2)
                        (time_val vm1) (hash_val vm1)] ++
          (if d2 then [MsgDupeTime (time_val vm2) (height_val vm1) (hash_val vm2)
                         (height (QMap.at_ Block0 (time_val vm2) (blocksByTime o1)))
                         (hash (QMap.at_ Block0 (time_val vm2) (blocksByTime o1)))]
           else [])).
  split; [reflexivity|].
  split.
  { destruct d2; obj_simpl; fold (blocks o1); rewrite Hb1, <- Hh;
      apply insert_insert. }
  split.
  { destruct d2; obj_simpl; rewrite <- Hh; apply find_insert_eq. }
  split; [apply blockOf_differs; tauto|].
  split.
  { destruct d1, d2; rewrite ?console_print, <- ?app_assoc; cbn [app];
      rewrite ?app_nil_r; reflexivity. }
  split; [destruct d1, d2; reflexivity|].
  intros Hne Hn1 Hn2.
  assert (Hd1 : d1 = false) by exact Hn1.
  assert (Hd2 : d2 = false).
  { subst d2. rewrite Ht1, contains_insert_ne by congruence. exact Hn2. }
  rewrite Hd2. subst o1. rewrite Hd1. split; reflexivity.
Qed.

End Collisions.

(* ================================================================== *)
(** * Lists of timestamps and deltas *)

Section Deltas.

Lemma increasing_ascending (ts : list Z) :
  increasing ts -> Forall in_int64 ts -> ascending ts.
Proof.
  intros H Hr. split; [|exact Hr]. clear Hr.
  induction H as [|t ts _ IH Hall]; constructor; auto.
  eapply Forall_impl; [|exact Hall]. simpl. intros; lia.
Qed.

(** After a non-negative [last], over non-negative timestamps, the loop
    computes every consecutive gap. *)
Lemma deltasFrom_gaps (ts : list Z) : forall t0,
  -1 < t0 -> Forall (fun t => -1 < t) ts -> deltasFrom t0 ts = gaps (t0 :: ts).
Proof.
  induction ts as [|t ts IH]; intros t0 H0 Hall.
  - reflexivity.
  - inversion Hall as [|? ? Ht Hts]; subst.
    cbn [deltasFrom gaps].
    destruct (Z.ltb_spec (-1) t0); [|lia]. cbn [app].
    f_equal. now apply IH.
Qed.

Lemma deltasFrom_start (ts : list Z) :
  Forall (fun t => -1 < t) ts -> deltasFrom (-1) ts = gaps ts.
Proof.
  destruct ts as [|t ts]; intros H; [reflexivity|].
  inversion H; subst. cbn [deltasFrom]. cbn [Z.ltb Z.compare app].
  now apply deltasFrom_gaps.
Qed.

(** No delta is computed when every timestamp but the last is negative. *)
Lemma deltasFrom_none (ts : list Z) : forall l,
  l <= -1 -> Forall (fun t => t <= -1) (removelast ts) -> deltasFrom l ts = [].
Proof.
  induction ts as [|t ts IH]; intros l Hl Hall.
  - reflexivity.
  - cbn [deltasFrom]. destruct (Z.ltb_spec (-1) l); [lia|]. cbn [app].
    destruct ts as [|t' ts]; [reflexivity|].
    cbn [removelast] in Hall. inversion Hall; subst. now apply IH.
Qed.

Lemma deltasFrom_nonneg (ts : list Z) : forall l,
  StronglySorted Z.le ts -> (-1 < l -> Forall (fun t => l <= t) ts) ->
  Forall (fun d => 0 <= d) (deltasFrom l ts).
Proof.
  induction ts as [|t ts IH]; intros l Hs Hl.
  - constructor.
  - inversion Hs as [|? ? Hs' Hall]; subst. cbn [deltasFrom].
    apply Forall_app. split.
    + destruct (Z.ltb_spec (-1) l); [|constructor].
      specialize (Hl H). inversion Hl; subst. constructor; [lia|constructor].
    + apply IH; auto.
Qed.

Lemma gaps_nonneg (ts : list Z) :
  StronglySorted Z.le ts -> Forall (fun d => 0 <= d) (gaps ts).
Proof.
  induction ts as [|t0 ts IH]; intros Hs; [constructor|].
  inversion Hs as [|? ? Hs' Hall]; subst.
  destruct ts as [|t1 ts]; [constructor|].
  cbn [gaps]. inversion Hall; subst. constructor; [lia|]. now apply IH.
Qed.

(** The default of [last] is the element before the list. *)
Lemma last_cons {A : Type} (l : list A) : forall d a,
  List.last (a :: l) d = List.last l a.
Proof.
  induction l as [|a' l IH]; intros d a; [reflexivity|].
  change (List.last (a :: a' :: l) d) with (List.last (a' :: l) d).
  now rewrite !IH.
Qed.

(** The gaps telescope. *)
Lemma sum_gaps (ts : list Z) : forall t0,
  sumZ (gaps (t0 :: ts)) = List.last ts t0 - t0.
Proof.
  induction ts as [|t1 ts IH]; intros t0.
  - cbn. lia.
  - change (gaps (t0 :: t1 :: ts)) with ((t1 - t0) :: gaps (t1 :: ts)).
    cbn [sumZ fold_right]. fold (sumZ (gaps (t1 :: ts))).
    rewrite IH, last_cons. lia.
Qed.

Lemma length_gaps (ts : list Z) :
  Z.of_nat (List.length (gaps ts)) = Z.max 0 (Z.of_nat (List.length ts) - 1).
Proof.
  induction ts as [|t0 ts IH]; [reflexivity|].
  destruct ts as [|t1 ts]; [reflexivity|].
  change (gaps (t0 :: t1 :: ts)) with ((t1 - t0) :: gaps (t1 :: ts)).
  cbn [List.length] in *. lia.
Qed.

(** Within the range of [qint64] the cutoff sum and count do not wrap. *)
Lemma fold_addOver (ds : list Z) : forall a,
  Forall (fun d => 0 <= d) ds -> 0 <= a -> a + sumZ ds <= INT64_MAX ->
  fold_left addOver (overCutoff ds) a
  = a + sumZ (map (fun d => d - mycutoff) (overCutoff ds)).
Proof.
  induction ds as [|d ds IH]; intros a Hall Ha Hb.
  - cbn. lia.
  - inversion Hall as [|? ? Hd Hds]; subst.
    cbn [sumZ fold_right] in Hb. fold (sumZ ds) in Hb.
    assert (Hs : 0 <= sumZ ds).
    { clear -Hds. induction Hds; cbn; [lia|]. fold (sumZ l). lia. }
    unfold overCutoff in *. cbn [filter].
    destruct (Z.leb_spec mycutoff d) as [Hc|Hc].
    + cbn [fold_left map sumZ fold_right].
      fold (sumZ (map (fun d0 => d0 - mycutoff)
                      (filter (fun d0 => mycutoff <=? d0) ds))).
      unfold addOver at 2. unfold mycutoff in Hc.
      rewrite (int64_id (d - mycutoff))
        by (unfold in_int64, INT64_MIN, INT64_MAX, mycutoff in *; lia).
      rewrite int64_id
        by (unfold in_int64, INT64_MIN, INT64_MAX, mycutoff in *; lia).
      rewrite IH; unfold mycutoff in *; try lia; assumption.
    + apply IH; auto; lia.
Qed.

Lemma fold_incr (ds : list Z) : forall a,
  Forall (fun d => 0 <= d) ds -> 0 <= a -> a + sumZ ds <= INT64_MAX ->
  fold_left incr (overCutoff ds) a
  = a + Z.of_nat (List.length (overCutoff ds)).
Proof.
  induction ds as [|d ds IH]; intros a Hall Ha Hb.
  - cbn. lia.
  - inversion Hall as [|? ? Hd Hds]; subst.
    cbn [sumZ fold_right] in Hb. fold (sumZ ds) in Hb.
    assert (Hs : 0 <= sumZ ds).
    { clear -Hds. induction Hds; cbn; [lia|]. fold (sumZ l). lia. }
    unfold overCutoff in *. cbn [filter].
    destruct (Z.leb_spec mycutoff d) as [Hc|Hc].
    + cbn [fold_left List.length]. unfold incr at 2. unfold mycutoff in Hc.
      rewrite int64_id by (unfold in_int64, INT64_MIN, INT64_MAX in *; lia).
      rewrite IH; try lia; try assumption.
    + apply IH; auto; lia.
Qed.

Lemma fold_min_zero (ds : list Z) :
  Forall (fun d => 0 <= d) ds -> fold_left Z.min ds 0 = 0.
Proof.
  induction 1 as [|d ds Hd _ IH]; [reflexivity|].
  cbn [fold_left]. now rewrite Z.min_l.
Qed.

End Deltas.

(* ================================================================== *)
(** * The statistics engine *)

Section Statistics.
Context {D : Type} {DO : DoubleOps D} {PF : Platform}.
Implicit Types (o : MainObj) (w : World D) (s : Stats D) (b : Block).

(** Over an in-range timestamp not below [last], the loop body does not
    exit, leaves the world alone and computes [stepPure]. *)
Lemma statsStep_pure (n : Z) s b w :
  in_int64 (time b) -> (-1 < last s -> last s <= time b) ->
  statsStep n s b w = Ret (stepPure n s b) w.
Proof.
  intros Hb Hl. unfold statsStep, stepPure, bind.
  destruct (Z.ltb_spec (-1) (last s)) as [Hlast|Hlast]; [|reflexivity].
  specialize (Hl Hlast).
  rewrite int64_id by (unfold in_int64, INT64_MIN, INT64_MAX in *; lia).
  destruct (Z.ltb_spec (time b - last s) 0) as [Hneg|_]; [lia|].
  assert (Emin : (if time b - last s <? min s then time b - last s else min s)
                 = Z.min (min s) (time b - last s)).
  { destruct (Z.ltb_spec (time b - last s) (min s)); lia. }
  assert (Emax : (if max s <? time b - last s then time b - last s else max s)
                 = Z.max (max s) (time b - last s)).
  { destruct (Z.ltb_spec (max s) (time b - last s)); lia. }
  unfold ret at 1. cbv beta iota. 
  destruct (mycutoff <=? time b - last s); unfold ret; cbn [avg last min max cutoffdeltasums nsums];
    rewrite Emin, Emax; reflexivity.
Qed.

Lemma forM_statsStep (n : Z) (bs : list Block) : forall s w,
  ascending (map time bs) ->
  (-1 < last s -> Forall (fun t => last s <= t) (map time bs)) ->
  forM (statsStep n) bs s w = Ret (fold_left (stepPure n) bs s) w.
Proof.
  induction bs as [|b bs IH]; intros s w [Hs Hr] Hl.
  - reflexivity.
  - cbn [map] in *. inversion Hs as [|? ? Hs' Hall]; subst.
    inversion Hr as [|? ? Hb Hr']; subst.
    cbn [forM fold_left]. unfold bind.
    rewrite statsStep_pure; auto.
    + apply IH; [split; assumption|].
      intros _. unfold stepPure.
      destruct (-1 <? last s); cbn [last]; exact Hall.
    + intros H. specialize (Hl H). now inversion Hl.
Qed.

(** The accumulators after the loop, as folds over the deltas. *)
Lemma fold_stepPure (n : Z) (bs : list Block) : forall s,
  fold_left (stepPure n) bs s =
    let ds := deltasFrom (last s) (map time bs) in
    mkStats (fold_left (addAvg n) ds (avg s))
            (List.last (map time bs) (last s))
            (fold_left Z.min ds (min s))
            (fold_left Z.max ds (max s))
            (fold_left addOver (overCutoff ds) (cutoffdeltasums s))
            (fold_left incr (overCutoff ds) (nsums s)).
Proof.
  induction bs as [|b bs IH]; intros s.
  - now destruct s.
  - cbn [fold_left map deltasFrom]. rewrite IH. cbv zeta.
    rewrite last_cons. unfold stepPure.
    destruct (-1 <? last s); cbn [last avg min max cutoffdeltasums nsums app].
    + unfold overCutoff. cbn [filter fold_left].
      destruct (mycutoff <=? time b - last s); reflexivity.
    + reflexivity.
Qed.

(** On the index [processResults] builds the loop runs to its end. *)
Lemma statsLoop_ascending o w :
  ascending (map time (QMap.values (blocksByTime o))) ->
  statsLoop o w =
    Ret (fold_left (stepPure (nBlocksOf o)) (QMap.values (blocksByTime o)) (initStats o)) w.
Proof.
  intros H. unfold statsLoop. apply forM_statsStep; [exact H|].
  cbn. lia.
Qed.

(** ** The fatal exit *)

(** The loop body either returns without touching the world or prints
    the negative delta and exits with status 1. *)
Lemma statsStep_cases (n : Z) s b w :
  (exists s', statsStep n s b w = Ret s' w /\ last s' = time b
              /\ (-1 < last s -> 0 <= int64 (time b - last s)))
  \/ (exists d, d < 0 /\ statsStep n s b w = Exit 1 (print (FatalDelta (height b) d) w)).
Proof.
  unfold statsStep, bind.
  destruct (Z.ltb_spec (-1) (last s)) as [Hlast|Hlast].
  - destruct (Z.ltb_spec (int64 (time b - last s)) 0) as [Hneg|Hpos].
    + right. exists (int64 (time b - last s)). split; [exact Hneg|reflexivity].
    + left. unfold ret at 1. cbv beta iota.
      destruct (mycutoff <=? int64 (time b - last s));
        eexists; (split; [reflexivity|]); split; auto.
  - left. eexists. split; [reflexivity|]. split; [reflexivity|lia].
Qed.

Lemma forM_statsStep_negative (n : Z) (pre post : list Block) (a b : Block) :
  forall s w,
  -1 < time a -> int64 (time b - time a) < 0 ->
  exists h d, d < 0 /\
    forM (statsStep n) (pre ++ a :: b :: post) s w = Exit 1 (print (FatalDelta h d) w).
Proof.
  intros s w Ha Hneg. revert s.
  induction pre as [|p pre IH]; intros s.
  - cbn [app forM]. unfold bind at 1.
    destruct (statsStep_cases n s a w) as [(s1 & -> & Hl1 & _)|(d & Hd & ->)].
    + unfold bind at 1.
      destruct (statsStep_cases n s1 b w) as [(s2 & _ & _ & Hpos)|(d & Hd & ->)].
      * rewrite Hl1 in Hpos. specialize (Hpos Ha). lia.
      * now exists (height b), d.
    + now exists (height a), d.
  - cbn [app forM]. unfold bind at 1.
    destruct (statsStep_cases n s p w) as [(s1 & -> & _)|(d & Hd & ->)].
    + apply IH.
    + now exists (height p), d.
Qed.

(** ** The report *)

Lemma saveCsv_cases o w :
  exists c w',
    bind (saveCsv o) (fun _ => bind (Log MsgDone) (fun _ => appExit (A := MainObj) 0)) w
      = Exit c w'
               /\ exists rest, console w' = console w ++ rest.
Proof.
  unfold saveCsv, bind, openWrite, writeFile, Log, appExit, Fatal, ret.
  destruct (writable w fileA) eqn:HA; cbn [negb].
  - cbn [writable store]. rewrite ?HA.
    destruct (writable w fileB) eqn:HB; cbn [negb].
    + do 2 eexists. split; [reflexivity|]. cbn [console print store].
      rewrite <- app_assoc. eexists. reflexivity.
    + do 2 eexists. split; [reflexivity|]. cbn [console print store].
      eexists. reflexivity.
  - do 2 eexists. split; [reflexivity|]. cbn [console print store].
    eexists. reflexivity.
Qed.

(** Once the loop has returned [s], the three lines of [report] are
    printed, whatever happens to the files afterwards. *)
Lemma printStats_report o w s :
  statsLoop o (print (MsgGot (nBlocksOf o) (daysOf o)) w)
    = Ret s (print (MsgGot (nBlocksOf o) (daysOf o)) w) ->
  exists c w' rest,
    printStatsAndExit (A := MainObj) o w = Exit c w'
    /\ console w' = console w ++ report o s ++ rest.
Proof.
  intros Hloop. unfold printStatsAndExit.
  unfold bind at 1. unfold Log at 1. unfold bind at 1. rewrite Hloop.
  unfold bind at 1. unfold Log at 1. unfold bind at 1. unfold Log at 1.
  match goal with
  | |- context [bind (saveCsv o) _ ?w1] =>
      destruct (saveCsv_cases o w1) as (c & w' & Hs & rest & Hc)
  end.
  exists c, w', rest. split; [exact Hs|].
  rewrite Hc. cbn [console print]. unfold report.
  rewrite <- !app_assoc. reflexivity.
Qed.

End Statistics.

(* ================================================================== *)
(** * Properties of the statistics *)

Section StatisticsProperties.
Context {D : Type} {DO : DoubleOps D} {PF : Platform}.
Implicit Types (o : MainObj) (w : World D) (s : Stats D) (b : Block).

Lemma Forall_last {A : Type} (P : A -> Prop) (l : list A) : forall a,
  P a -> Forall P l -> P (List.last l a).
Proof.
  induction l as [|a' l IH]; intros a Ha Hl; [exact Ha|].
  inversion Hl; subst. rewrite last_cons. now apply IH.
Qed.

(** The sum of the gaps of ascending non-negative timestamps fits in a
    [qint64]. *)
Lemma sum_gaps_bound (ts : list Z) :
  ascending ts -> Forall (fun t => 0 <= t) ts -> sumZ (gaps ts) <= INT64_MAX.
Proof.
  intros [_ Hr] Hpos. destruct ts as [|t0 ts]; [cbn; lia|].
  rewrite sum_gaps. inversion Hr as [|? ? H0 Hts]; subst.
  inversion Hpos; subst.
  assert (H : in_int64 (List.last ts t0)) by now apply Forall_last.
  unfold in_int64 in H. lia.
Qed.

(** C6. When the blocks the statistics loop iterates over contain two
    neighbours [a], [b] whose delta is computed ([a]'s time is above the
    sentinel -1) and negative, wherever they stand, [printStatsAndExit]
    exits with status 1 on a negative delta: it has printed the line
    announcing the computation and the fatal line, none of the lines of
    the statistics, and has written no file. *)
Theorem negative_delta_aborts o w (pre post : list Block) (a b : Block) :
  QMap.values (blocksByTime o) = pre ++ a :: b :: post ->
  -1 < time a ->
  int64 (time b - time a) < 0 ->
  exists h d w',
    d < 0
    /\ printStatsAndExit (A := MainObj) o w = Exit 1 w'
    /\ console w' = console w ++ [MsgGot (nBlocksOf o) (daysOf o); FatalDelta h d]
    /\ files w' = files w.
Proof.
  intros Hv Ha Hneg.
  destruct (forM_statsStep_negative (nBlocksOf o) pre post a b (initStats o)
              (print (MsgGot (nBlocksOf o) (daysOf o)) w) Ha Hneg)
    as (h & d & Hd & Hloop).
  exists h, d. eexists. split; [exact Hd|].
  split.
  - unfold printStatsAndExit. unfold bind at 1. unfold Log at 1.
    unfold bind at 1. unfold statsLoop. rewrite Hv, Hloop. reflexivity.
  - split; [|reflexivity].
    cbn [console print]. now rewrite <- app_assoc.
Qed.

(** After a non-negative [last] the deltas computed telescope. *)
Lemma sum_deltasFrom_after (ts : list Z) (l : Z) :
  -1 < l -> Forall (fun t => l <= t) ts ->
  sumZ (deltasFrom l ts) = List.last ts l - l.
Proof.
  intros Hl Hall. rewrite deltasFrom_gaps.
  - apply sum_gaps.
  - exact Hl.
  - eapply Forall_impl; [|exact Hall]. simpl. intros; lia.
Qed.

(** The sum of the deltas computed over ascending timestamps fits in a
    [qint64], whatever the sign of the timestamps. *)
Lemma sum_deltasFrom_bound (ts : list Z) : forall l,
  StronglySorted Z.le ts -> Forall in_int64 ts ->
  (-1 < l -> Forall (fun t => l <= t) ts) ->
  sumZ (deltasFrom l ts) <= INT64_MAX.
Proof.
  induction ts as [|t ts IH]; intros l Hs Hr Hl.
  - cbn. unfold INT64_MAX. lia.
  - destruct (Z.ltb_spec (-1) l) as [Hpos|Hneg].
    + specialize (Hl Hpos). rewrite sum_deltasFrom_after by assumption.
      assert (H : List.last (t :: ts) l - l <= INT64_MAX).
      { apply (Forall_last (fun x => x - l <= INT64_MAX)).
        - unfold INT64_MAX. lia.
        - rewrite Forall_forall in *. intros x Hx.
          specialize (Hr x Hx). specialize (Hl x Hx).
          unfold in_int64 in Hr. lia. }
      exact H.
    + cbn [deltasFrom]. destruct (Z.ltb_spec (-1) l) as [|_]; [lia|]. cbn [app].
      inversion Hs as [|? ? Hs' Hall]; subst. inversion Hr; subst.
      apply IH; auto.
Qed.

(** C8, as the code has it.  Over ascending timestamps the loop returns
    with [cutoffdeltasums] the sum of [delta - 450] over the deltas it
    computes that are at least 450 and [nsums] their number; smaller
    deltas add to neither.  A delta is computed after a non-negative
    timestamp only: over non-negative timestamps the deltas computed are
    all the consecutive gaps.  The value printed is the one divided by
    the other, in minutes. *)
Theorem cutoff_statistic o w :
  let ts := map time (QMap.values (blocksByTime o)) in
  ascending ts ->
  exists s c w' rest,
    statsLoop o w = Ret s w
    /\ mycutoff = 450
    /\ cutoffdeltasums s
       = sumZ (map (fun d => d - 450)
                   (filter (fun d => 450 <=? d) (deltasFrom (-1) ts)))
    /\ nsums s
       = Z.of_nat (List.length (filter (fun d => 450 <=? d) (deltasFrom (-1) ts)))
    /\ (Forall (fun t => 0 <= t) ts -> deltasFrom (-1) ts = gaps ts)
    /\ printStatsAndExit (A := MainObj) o w = Exit c w'
    /\ console w' =
         console w ++
         [ MsgGot (nBlocksOf o) (daysOf o);
           MsgAvg (ddiv (avg s) (of_int 60))
                  (ddiv (of_int (min s)) (of_int 60))
                  (ddiv (of_int (max s)) (of_int 60));
           MsgCutoff (ddiv (of_int 450) (of_int 60))
                     (ddiv (ddiv (of_int (cutoffdeltasums s)) (of_int (nsums s)))
                           (of_int 60)) ] ++ rest.
Proof.
  intros ts Hasc.
  set (s := fold_left (stepPure (nBlocksOf o)) (QMap.values (blocksByTime o))
                      (initStats o)).
  assert (Hloop : forall w0, statsLoop o w0 = Ret s w0)
    by (intros w0; now apply statsLoop_ascending).
  destruct (printStats_report o w s (Hloop _)) as (c & w' & rest & Hexit & Hcons).
  exists s, c, w', rest.
  assert (Hnn : Forall (fun d => 0 <= d) (deltasFrom (-1) ts))
    by (apply deltasFrom_nonneg; [apply Hasc|lia]).
  assert (Hb : 0 + sumZ (deltasFrom (-1) ts) <= INT64_MAX).
  { destruct Hasc as [Hs Hr].
    pose proof (sum_deltasFrom_bound ts (-1) Hs Hr). lia. }
  split; [apply Hloop|]. split; [reflexivity|].
  split; [|split; [|split; [|split; [exact Hexit|exact Hcons]]]].
  - subst s. rewrite fold_stepPure. cbv zeta. cbn [cutoffdeltasums initStats last].
    fold ts. now rewrite fold_addOver by (auto; lia).
  - subst s. rewrite fold_stepPure. cbv zeta. cbn [nsums initStats last].
    fold ts. now rewrite fold_incr by (auto; lia).
  - intros Hpos. apply deltasFrom_start.
    eapply Forall_impl; [|exact Hpos]. simpl. intros; lia.
Qed.

(** C9. Over ascending timestamps the loop returns.  With a non-zero
    duplicate-timestamp counter [min] starts at 0 and ends at 0, whatever
    the gaps are.  With a zero counter and no delta computed (every
    timestamp but the last is negative; in particular an index of at most
    one block), [min] ends at its initial value [LONG_MAX].  The second
    number of the "Avg time" line is [min] in minutes. *)
Theorem min_delta_sentinel o w :
  let ts := map time (QMap.values (blocksByTime o)) in
  ascending ts ->
  exists s c w' rest,
    statsLoop o w = Ret s w
    /\ (nDupeTimes o <> 0 -> min (initStats o) = 0 /\ min s = 0)
    /\ (nDupeTimes o = 0 -> Forall (fun t => t <= -1) (removelast ts) ->
        min (initStats o) = LONG_MAX /\ min s = LONG_MAX)
    /\ printStatsAndExit (A := MainObj) o w = Exit c w'
    /\ console w' =
         console w ++
         [ MsgGot (nBlocksOf o) (daysOf o);
           MsgAvg (ddiv (avg s) (of_int 60))
                  (ddiv (of_int (min s)) (of_int 60))
                  (ddiv (of_int (max s)) (of_int 60));
           MsgCutoff (ddiv (of_int mycutoff) (of_int 60))
                     (ddiv (ddiv (of_int (cutoffdeltasums s)) (of_int (nsums s)))
                           (of_int 60)) ] ++ rest.
Proof.
  intros ts Hasc.
  set (s := fold_left (stepPure (nBlocksOf o)) (QMap.values (blocksByTime o))
                      (initStats o)).
  assert (Hloop : forall w0, statsLoop o w0 = Ret s w0)
    by (intros w0; now apply statsLoop_ascending).
  destruct (printStats_report o w s (Hloop _)) as (c & w' & rest & Hexit & Hcons).
  exists s, c, w', rest.
  assert (Hmin : min s = fold_left Z.min (deltasFrom (-1) ts) (min (initStats o))).
  { subst s. rewrite fold_stepPure. reflexivity. }
  split; [apply Hloop|].
  split; [|split; [|split; [exact Hexit|exact Hcons]]].
  - intros Hnd.
    assert (Hi : min (initStats o) = 0).
    { cbn [initStats min]. destruct (Z.eqb_spec (nDupeTimes o) 0); [contradiction|reflexivity]. }
    split; [exact Hi|]. rewrite Hmin, Hi.
    apply fold_min_zero, deltasFrom_nonneg; [apply Hasc|lia].
  - intros Hnd Hneg.
    assert (Hi : min (initStats o) = LONG_MAX).
    { cbn [initStats min]. now rewrite Hnd. }
    split; [exact Hi|]. rewrite Hmin, Hi.
    now rewrite deltasFrom_none by (auto; lia).
Qed.

End StatisticsProperties.

(* ================================================================== *)
(** * A page of blocks in increasing time order *)

Section IncreasingPage.
Context {D : Type} {DO : DoubleOps D} {PF : Platform}.
Implicit Types (o : MainObj) (w : World D) (vm : BlockFields).
Import QMapFacts.

Lemma increasing_app_below (ks ts : list Z) (t : Z) :
  increasing (ks ++ t :: ts) -> Forall (fun k => k < t) ks.
Proof.
  unfold increasing. induction ks as [|k ks IH]; intros H; [constructor|].
  cbn [app] in H. inversion H as [|? ? Hs Hall]; subst.
  constructor; [|now apply IH].
  rewrite Forall_app in Hall. destruct Hall as [_ Hall].
  now inversion Hall.
Qed.

(** Accepted records with timestamps above every key of the by-time
    index, in increasing order, and with heights new to the by-height
    index and distinct: each is appended to the by-time index, nothing is
    printed and the counter does not move. *)
Lemma forM_increasing (l : list BlockFields) : forall o w,
  Forall accepted l ->
  increasing (QMap.keys (blocksByTime o) ++ map time_val l) ->
  NoDup (map height_val l) ->
  Forall (fun vm => ~ In (height_val vm) (QMap.keys (blocks o))) l ->
  exists o',
    forM processElement (map Fields l) o w = Ret o' w
    /\ blocksByTime o' = blocksByTime o ++ map entryOf l
    /\ nDupeTimes o' = nDupeTimes o.
Proof.
  induction l as [|vm l IH]; intros o w Hacc Hinc Hnd Hnew.
  - exists o. cbn. now rewrite app_nil_r.
  - inversion Hacc as [|? ? Hvm Hacc']; subst.
    inversion Hnd as [|? ? Hnotin Hnd']; subst.
    inversion Hnew as [|? ? Hh Hnew']; subst.
    cbn [map] in Hinc. pose proof (increasing_app_below _ _ _ Hinc) as Hbelow.
    cbn [map forM]. unfold bind.
    rewrite (processElement_accepted o vm w Hvm). cbv zeta.
    cbn [blockOf time height hash].
    rewrite (contains_notin (height_val vm) (blocks o) Hh).
    rewrite (contains_above (time_val vm) (blocksByTime o) Hbelow).
    set (o1 := insertBlock _ o).
    assert (Ht1 : blocksByTime o1 = blocksByTime o ++ [entryOf vm]).
    { subst o1. obj_simpl. now apply insert_above. }
    destruct (IH o1 w Hacc') as (o' & Hrun & Hidx & Hcnt).
    + rewrite Ht1. unfold QMap.keys. rewrite map_app, <- app_assoc. exact Hinc.
    + exact Hnd'.
    + rewrite Forall_forall in *. intros vm' Hin Hk.
      subst o1. unfold insertBlock in Hk. cbn [blocks] in Hk.
      apply keys_insert_in in Hk. cbn [blockOf height] in Hk.
      destruct Hk as [Hk|Hk].
      * apply Hnotin. rewrite <- Hk. now apply in_map.
      * now apply (Hnew' vm').
    + exists o'. split; [exact Hrun|]. split.
      * rewrite Hidx, Ht1, <- app_assoc. reflexivity.
      * rewrite Hcnt. reflexivity.
Qed.

(** The page of increasing records, processed by a fresh object. *)
Lemma increasing_page o w (l : list BlockFields) :
  l <> [] ->
  Forall accepted l ->
  increasing (map time_val l) ->
  NoDup (map height_val l) ->
  Z.of_nat (List.length l) <= INT_MAX ->
  blocks o = [] -> blocksByTime o = [] -> nDupeTimes o = 0 ->
  exists o',
    processResults (DocObject (Some (map Fields l))) o w = Ret o' w
    /\ nDupeTimes o' = 0
    /\ QMap.values (blocksByTime o') = map blockOf l
    /\ QMap.size (blocksByTime o') = Z.of_nat (List.length l)
    /\ nBlocksOf o' = Z.of_nat (List.length l).
Proof.
  intros Hne Hacc Hinc Hnd Hlen Hb Ht Hc.
  destruct (forM_increasing l o w Hacc) as (o' & Hrun & Hidx & Hcnt).
  { now rewrite Ht. }
  { exact Hnd. }
  { rewrite Hb. apply Forall_forall. intros ? _ []. }
  rewrite Ht in Hidx. cbn [app] in Hidx. rewrite Hc in Hcnt.
  assert (Hsize : QMap.size (blocksByTime o') = Z.of_nat (List.length l)).
  { unfold QMap.size. now rewrite Hidx, length_map. }
  exists o'. split.
  { rewrite processResults_nonempty by (destruct l; [contradiction | discriminate]).
    exact Hrun. }
  split; [exact Hcnt|]. split.
  { rewrite Hidx. unfold QMap.values. rewrite map_map. reflexivity. }
  split; [exact Hsize|].
  unfold nBlocksOf. rewrite Hcnt, Hsize, Z.add_0_r. apply int32_id.
  unfold in_int32, INT_MIN, INT_MAX in *. lia.
Qed.

(** Over ascending non-negative timestamps the average is the running
    sum of [gap / nBlocks] over the consecutive gaps. *)
Lemma statsLoop_average o w :
  let ts := map time (QMap.values (blocksByTime o)) in
  ascending ts -> Forall (fun t => 0 <= t) ts -> 0 < nBlocksOf o ->
  exists s,
    statsLoop o w = Ret s w
    /\ avg s = fold_left (fun a gap => dadd a (ddiv (of_int gap) (of_int (nBlocksOf o))))
                         (gaps ts) (of_int 0).
Proof.
  intros ts Hasc Hpos Hn. eexists. split; [now apply statsLoop_ascending|].
  rewrite fold_stepPure. cbv zeta. cbn [avg initStats last]. fold ts.
  rewrite deltasFrom_start
    by (eapply Forall_impl; [|exact Hpos]; simpl; intros; lia).
  unfold addAvg. apply Z.ltb_lt in Hn. now rewrite Hn.
Qed.

(** C2, as the code has it.  A non-empty page of accepted records with
    strictly increasing non-negative timestamps and distinct heights is
    processed by a fresh object.  The counter stays 0, the by-time index
    holds the blocks in input order, and the total the statistics use is
    the size of the index, the number of records.  The loop returns with
    [avg] the running sum, over the consecutive gaps, of
    [gap / totalBlocks]: the divisor is the number of blocks, not the
    number of gaps. *)
Theorem increasing_blocks_average o w (l : list BlockFields) :
  l <> [] ->
  Forall accepted l ->
  increasing (map time_val l) ->
  NoDup (map height_val l) ->
  Forall (fun t => 0 <= t <= INT64_MAX) (map time_val l) ->
  Z.of_nat (List.length l) <= INT_MAX ->
  blocks o = [] -> blocksByTime o = [] -> nDupeTimes o = 0 ->
  exists o' s,
    processResults (DocObject (Some (map Fields l))) o w = Ret o' w
    /\ nDupeTimes o' = 0
    /\ QMap.values (blocksByTime o') = map blockOf l
    /\ nBlocksOf o' = QMap.size (blocksByTime o')
    /\ nBlocksOf o' = Z.of_nat (List.length l)
    /\ statsLoop o' w = Ret s w
    /\ avg s = fold_left (fun a gap => dadd a (ddiv (of_int gap) (of_int (nBlocksOf o'))))
                         (gaps (map time_val l)) (of_int 0).
Proof.
  intros Hne Hacc Hinc Hnd Hrange Hlen Hb Ht Hc.
  destruct (increasing_page o w l Hne Hacc Hinc Hnd Hlen Hb Ht Hc)
    as (o' & Hrun & Hcnt & Hvals & Hsize & Hn).
  assert (Htimes : map time (QMap.values (blocksByTime o')) = map time_val l).
  { rewrite Hvals, map_map. reflexivity. }
  destruct (statsLoop_average o' w) as (s & Hloop & Havg).
  { rewrite Htimes. apply increasing_ascending; [exact Hinc|].
    eapply Forall_impl; [|exact Hrange]. unfold in_int64, INT64_MIN, INT64_MAX.
    simpl. intros; lia. }
  { rewrite Htimes. eapply Forall_impl; [|exact Hrange]. simpl. intros; lia. }
  { rewrite Hn. destruct l; [contradiction|]. cbn [List.length]. lia. }
  exists o', s. rewrite Htimes in Havg.
  repeat split; try assumption. now rewrite Hn, Hsize.
Qed.

End IncreasingPage.

(** In exact arithmetic the running sum is the sum of the gaps divided by
    the number of blocks. *)
Lemma fold_addAvg_exact (n : Z) (ds : list Z) : forall a : Q,
  (fold_left (fun a gap => @dadd Q exactQ a
                             (@ddiv Q exactQ (@of_int Q exactQ gap) (@of_int Q exactQ n)))
             ds a
   == a + inject_Z (sumZ ds) / inject_Z n)%Q.
Proof.
  induction ds as [|d ds IH]; intros a; cbn [fold_left sumZ fold_right].
  - unfold Qdiv. change (inject_Z 0) with 0%Q. ring.
  - rewrite IH. cbn [dadd ddiv of_int exactQ]. fold (sumZ ds).
    rewrite inject_Z_plus. unfold Qdiv. ring.
Qed.

(** The average of C2 without rounding: the time from the first block to
    the last, divided by the number of blocks.  The mean of the gaps
    divides the same time by one less. *)
Lemma exact_average_of_increasing_page {PF : Platform} o (w : World Q)
    (l : list BlockFields) :
  l <> [] ->
  Forall accepted l ->
  increasing (map time_val l) ->
  NoDup (map height_val l) ->
  Forall (fun t => 0 <= t <= INT64_MAX) (map time_val l) ->
  Z.of_nat (List.length l) <= INT_MAX ->
  blocks o = [] -> blocksByTime o = [] -> nDupeTimes o = 0 ->
  exists o' s,
    processResults (DocObject (Some (map Fields l))) o w = Ret o' w
    /\ @statsLoop Q exactQ PF o' w = Ret s w
    /\ (avg s == inject_Z (List.last (map time_val l) 0%Z - hd 0%Z (map time_val l))
                 / inject_Z (Z.of_nat (List.length l)))%Q
    /\ (@meanOfGaps Q exactQ (map time_val l)
        == inject_Z (List.last (map time_val l) 0%Z - hd 0%Z (map time_val l))
           / inject_Z (Z.of_nat (List.length l) - 1)%Z)%Q.
Proof.
  intros Hne Hacc Hinc Hnd Hrange Hlen Hb Ht Hc.
  destruct (increasing_page o w l Hne Hacc Hinc Hnd Hlen Hb Ht Hc)
    as (o' & Hrun & Hcnt & Hvals & Hsize & Hn).
  assert (Htimes : map time (QMap.values (blocksByTime o')) = map time_val l).
  { rewrite Hvals, map_map. reflexivity. }
  destruct (@statsLoop_average Q exactQ PF o' w) as (s & Hloop & Havg).
  { rewrite Htimes. apply increasing_ascending; [exact Hinc|].
    eapply Forall_impl; [|exact Hrange]. unfold in_int64, INT64_MIN, INT64_MAX.
    simpl. intros; lia. }
  { rewrite Htimes. eapply Forall_impl; [|exact Hrange]. simpl. intros; lia. }
  { rewrite Hn. destruct l; [contradiction|]. cbn [List.length]. lia. }
  exists o', s. split; [exact Hrun|]. split; [exact Hloop|].
  rewrite Htimes in Havg.
  assert (Hsum : sumZ (gaps (map time_val l))
                 = List.last (map time_val l) 0 - hd 0 (map time_val l)).
  { destruct l as [|vm l]; [contradiction|]. cbn [map hd].
    now rewrite sum_gaps, last_cons. }
  split.
  - rewrite Havg, fold_addAvg_exact, Hn, Hsum.
    cbn [of_int exactQ]. change (inject_Z 0) with 0%Q. ring.
  - unfold meanOfGaps. cbn [ddiv of_int exactQ].
    rewrite Hsum, length_gaps, length_map.
    replace (Z.max 0 (Z.of_nat (List.length l) - 1))
      with (Z.of_nat (List.length l) - 1); [reflexivity|].
    destruct l; [contradiction|]. cbn [List.length]. lia.
Qed.

(* ================================================================== *)
(** * The anchor of the next request *)

Section Anchor.
Context {D : Type}.
Implicit Types (o : MainObj) (w : World D) (m : BlockTimeMap).
Import QMapFacts.

Lemma fold_min_above (bs : list Block) (t : Z) :
  Forall (fun b => t <= time b) bs ->
  fold_right (fun b acc => Z.min (time b) acc) t bs = t.
Proof.
  induction 1 as [|b bs Hb _ IH]; [reflexivity|].
  cbn [fold_right]. rewrite IH. lia.
Qed.

(** In the index [processResults] builds, the first block is the
    earliest. *)
Lemma first_earliest m :
  timeIndexed m -> time (QMap.first Block0 m) = earliest m.
Proof.
  intros [Hs Hk]. destruct m as [|[k b] m]; [reflexivity|].
  unfold earliest, QMap.first. cbn [QMap.values map hd snd fold_right].
  cbn [QMap.keys map fst] in Hs. inversion Hs as [|? ? _ Hall]; subst.
  inversion Hk as [|? ? Hkb Hk']; subst. cbn [fst snd] in Hkb.
  rewrite fold_min_above; [lia|].
  rewrite Forall_forall in *. intros b' Hin.
  apply in_map_iff in Hin. destruct Hin as ([k' b''] & Heq & Hin).
  cbn [snd] in Heq. subst b''.
  specialize (Hk' _ Hin). cbn [fst snd] in Hk'.
  assert (k < k') by (apply Hall; change k' with (fst (k', b')); now apply in_map).
  lia.
Qed.

Lemma earliest_is_minimum m :
  m <> [] ->
  In (earliest m) (map time (QMap.values m))
  /\ Forall (fun t => earliest m <= t) (map time (QMap.values m)).
Proof.
  destruct m as [|[k b] m]; [contradiction|]. intros _.
  unfold earliest. cbn [QMap.values map snd hd].
  generalize (map snd m) as bs. intros bs.
  assert (H : forall t, (fold_right (fun b0 acc => Z.min (time b0) acc) t bs = t
                         \/ In (fold_right (fun b0 acc => Z.min (time b0) acc) t bs)
                               (map time bs))
                        /\ fold_right (fun b0 acc => Z.min (time b0) acc) t bs <= t
                        /\ Forall (fun t' => fold_right (fun b0 acc => Z.min (time b0) acc) t bs <= t')
                                  (map time bs)).
  { induction bs as [|b' bs IH]; intros t.
    - cbn. repeat split; auto; lia.
    - cbn [fold_right map]. destruct (IH t) as (Hin & Hle & Hall).
      set (r := fold_right (fun b0 acc => Z.min (time b0) acc) t bs) in *.
      split; [|split].
      + destruct (Z.min_spec (time b') r) as [[_ ->]|[_ ->]].
        * right. now left.
        * destruct Hin; [now left | right; now right].
      + lia.
      + constructor; [lia|]. eapply Forall_impl; [|exact Hall]. simpl. intros; lia. }
  cbn [fold_right]. destruct (H (time b)) as (Hin & Hle & Hall).
  set (r := fold_right (fun b0 acc => Z.min (time b0) acc) (time b) bs) in *.
  split.
  - destruct (Z.min_spec (time b) r) as [[_ ->]|[_ ->]]; [now left|].
    destruct Hin as [->|Hin]; [now left | now right].
  - constructor; [lia|]. eapply Forall_impl; [|exact Hall]. simpl. intros; lia.
Qed.

(** C5. With an empty by-time index the request is anchored at the clock
    value and the counter is reset; the first request of a run, made by
    [appEntry] on the new object, is of this kind.  With a non-empty
    index, built by [processResults], the anchor is
    [earliest * 1000 - 86400000]; the product and the difference are
    assumed to fit in a [qint64]. *)
Theorem next_request_anchor (now : Z) o w :
  timeIndexed (blocksByTime o) ->
  INT64_MIN + 86400000 <= earliest (blocksByTime o) * 1000 <= INT64_MAX ->
  getNext now o w =
    (let w1 := print (MsgReceived (QMap.size (blocksByTime o))
                                  (int32 (daysLeft o - NDAYS o))) w in
     if QMap.isEmpty (blocksByTime o)
     then Ret (set_nDupeTimes 0 o) (request now w1)
     else Ret o (request (earliest (blocksByTime o) * 1000 - 86400000) w1))
  /\ forall ndays junk1 junk2,
       appEntry now (newMainObj ndays junk1 junk2) w =
         Ret (newMainObj ndays ndays 0)
             (request now (print (MsgReceived 0 0) (print (MsgConnecting ndays) w))).
Proof.
  intros Hidx Hrange. split.
  2:{ intros ndays junk1 junk2.
      unfold appEntry, getNext, bind, Log, sendRequest, ret, newMainObj.
      cbn -[int32]. now rewrite Z.sub_diag. }
  unfold getNext, bind, Log, sendRequest, ret. cbv zeta.
  destruct (QMap.isEmpty (blocksByTime o)) eqn:He; cbn [negb]; [reflexivity|].
  rewrite (first_earliest _ Hidx).
  rewrite (int64_id (earliest (blocksByTime o) * 1000))
    by (unfold in_int64, INT64_MIN, INT64_MAX in *; lia).
  rewrite int64_id
    by (unfold in_int64, INT64_MIN, INT64_MAX, aday_ms in *; lia).
  reflexivity.
Qed.

End Anchor.

(* ================================================================== *)
(** * Invariants of the indexes *)

Section Invariants.
Context {D : Type}.
Implicit Types (o : MainObj) (w : World D) (m : QMap.t Block).
Import QMapFacts.

Lemma insert_sorted {V : Type} (k : Z) (v : V) (m : QMap.t V) :
  StronglySorted Z.lt (QMap.keys m) ->
  StronglySorted Z.lt (QMap.keys (QMap.insert k v m)).
Proof.
  induction m as [|[k' v'] m IH]; cbn [QMap.insert QMap.keys map fst]; intros Hs.
  - repeat constructor.
  - inversion Hs as [|? ? Hs' Hall]; subst.
    destruct (Z.ltb_spec k k') as [Hlt|Hge]; cbn [map fst].
    + constructor; [exact Hs|]. constructor; [exact Hlt|].
      eapply Forall_impl; [|exact Hall]. simpl. intros; lia.
    + destruct (Z.eqb_spec k k') as [->|Hne]; cbn [map fst].
      * now constructor.
      * constructor; [now apply IH|].
        apply Forall_forall. intros k0 Hin.
        apply keys_insert_in in Hin. destruct Hin as [->|Hin]; [lia|].
        rewrite Forall_forall in Hall. now apply Hall.
Qed.

Lemma insert_keyed {V : Type} (key : V -> Z) (v : V) (m : QMap.t V) :
  Forall (fun e => key (snd e) = fst e) m ->
  Forall (fun e => key (snd e) = fst e) (QMap.insert (key v) v m).
Proof.
  induction m as [|[k' v'] m IH]; cbn [QMap.insert]; intros H.
  - now constructor.
  - inversion H; subst.
    destruct (key v <? k'); [now constructor|].
    destruct (key v =? k'); constructor; auto.
Qed.

Lemma insertBlock_indexed b o :
  timeIndexed (blocksByTime o) /\ heightIndexed (blocks o) ->
  timeIndexed (blocksByTime (insertBlock b o))
  /\ heightIndexed (blocks (insertBlock b o)).
Proof.
  intros [[Hts Htk] [Hhs Hhk]]. unfold insertBlock. cbn [blocksByTime blocks].
  repeat split.
  - now apply insert_sorted.
  - now apply (insert_keyed time).
  - now apply insert_sorted.
  - now apply (insert_keyed height).
Qed.

(** Both indexes stay sorted by key, each block under its own key, for
    whatever page is processed. *)
Lemma processResults_indexed (d : QJsonDocument) o w o' w' :
  processResults d o w = Ret o' w' ->
  timeIndexed (blocksByTime o) /\ heightIndexed (blocks o) ->
  timeIndexed (blocksByTime o') /\ heightIndexed (blocks o').
Proof.
  assert (Hloop : forall vl o w,
            forM processElement vl o w = Ret o' w' ->
            timeIndexed (blocksByTime o) /\ heightIndexed (blocks o) ->
            timeIndexed (blocksByTime o') /\ heightIndexed (blocks o')).
  { clear. induction vl as [|v vl IH]; cbn [forM]; intros o w H Hinv.
    - injection H as <- _. exact Hinv.
    - unfold bind in H. destruct v as [|vm]; [discriminate|].
      destruct (main_chain vm) eqn:Hm.
      + destruct (ok1 vm) eqn:H1; [destruct (ok2 vm) eqn:H2|].
        * rewrite processElement_accepted in H by (repeat split; assumption).
          cbv zeta in H. apply IH in H; [exact H|].
          apply insertBlock_indexed.
          now destruct (QMap.contains (time (blockOf vm)) (blocksByTime o)).
        * unfold processElement in H. rewrite Hm, H1, H2 in H. discriminate.
        * unfold processElement in H. rewrite Hm, H1 in H. discriminate.
      + rewrite processElement_filtered in H by (exists vm; auto).
        now apply IH in H. }
  unfold processResults. destruct d as [|[[|v vl]|]]; try discriminate.
  apply Hloop.
Qed.

(** The total the statistics use: each element that passes the filter
    adds one, to the size of the by-time index or to the counter. *)
Lemma total_count (vl : list Element) : forall o w o' w',
  forM processElement vl o w = Ret o' w' ->
  StronglySorted Z.lt (QMap.keys (blocksByTime o)) ->
  0 <= nDupeTimes o ->
  nDupeTimes o + Z.of_nat (List.length vl) <= INT_MAX ->
  QMap.size (blocksByTime o') + nDupeTimes o'
  = QMap.size (blocksByTime o) + nDupeTimes o
    + Z.of_nat (List.length (filter isMainChain vl)).
Proof.
  induction vl as [|v vl IH]; cbn [forM]; intros o w o' w' H Hs Hn Hmax.
  - injection H as <- _. cbn. lia.
  - unfold bind in H. cbn [List.length] in Hmax.
    destruct v as [|vm]; [discriminate|]. cbn [filter isMainChain].
    destruct (main_chain vm) eqn:Hm.
    + destruct (ok1 vm) eqn:H1; [destruct (ok2 vm) eqn:H2|].
      * rewrite processElement_accepted in H by (repeat split; assumption).
        cbv zeta in H. cbn [blockOf time] in H.
        destruct (QMap.contains (time_val vm) (blocksByTime o)) eqn:Hc;
          apply IH in H; try (obj_simpl; now apply insert_sorted).
        -- revert H. obj_simpl. rewrite size_insert_old by assumption.
           rewrite int32_id by (unfold in_int32, INT_MIN, INT_MAX in *; lia).
           cbn [List.length]. lia.
        -- obj_simpl. rewrite int32_id by (unfold in_int32, INT_MIN, INT_MAX in *; lia).
           lia.
        -- obj_simpl. rewrite int32_id by (unfold in_int32, INT_MIN, INT_MAX in *; lia).
           lia.
        -- revert H. obj_simpl. rewrite size_insert_new by assumption.
           cbn [List.length]. lia.
        -- obj_simpl. lia.
        -- obj_simpl. lia.
      * unfold processElement in H. rewrite Hm, H1, H2 in H. discriminate.
      * unfold processElement in H. rewrite Hm, H1 in H. discriminate.
    + rewrite processElement_filtered in H by (exists vm; auto).
      apply IH in H; auto. lia.
Qed.

(** A by-time index with keys in the range of [qint64] gives the loop
    ascending timestamps. *)
Lemma timeIndexed_ascending m :
  timeIndexed m -> Forall in_int64 (QMap.keys m) ->
  ascending (map time (QMap.values m)).
Proof.
  intros [Hs Hk] Hr.
  assert (E : map time (QMap.values m) = QMap.keys m).
  { unfold QMap.values, QMap.keys. rewrite map_map.
    apply map_ext_in. intros e He. rewrite Forall_forall in Hk. now apply Hk. }
  rewrite E. now apply increasing_ascending.
Qed.

End Invariants.

(* ================================================================== *)
(** * The exporter *)

Section Exporter.
Context {D : Type}.
Implicit Types (o : MainObj) (w : World D).

(** With both files writable, [saveCsv] stores the two files; the rows
    of both are those of the by-height index. *)
Lemma saveCsv_writable o w :
  writable w fileA = true -> writable w fileB = true ->
  saveCsv o w =
    Ret tt (print (MsgSaved fileA fileB)
              (store fileB (headerB :: map rowB (QMap.values (blocks o)))
                 (store fileA (headerA :: map rowA (QMap.values (blocks o))) w))).
Proof.
  intros HA HB. unfold saveCsv, bind, openWrite, writeFile, Log, ret.
  rewrite HA. cbn [negb writable store]. rewrite HB. reflexivity.
Qed.

End Exporter.

(** C1, on the code.  A one-day run receives a page of two blocks whose
    time order is the reverse of their height order and exits with
    status 0.  The blocks of the by-time index are in time order, but the
    rows of [blocks_sorted_by_timestamp.csv] are in height order: the
    file is written from the by-height index. *)
Theorem timestamp_file_follows_height_index :
  let w0 := world0 float Sample.always in
  let page := DocObject (Some Sample.crossed) in
  let a := mkBlock 1 "a" 200 in
  let b := mkBlock 2 "b" 100 in
  exists o w',
    @processResults float page (newMainObj 1 1 0) w0 = Ret o w0
    /\ QMap.values (blocksByTime o) = [b; a]
    /\ QMap.values (blocks o) = [a; b]
    /\ @main float binary64 LP64 (Some 1) 0 0 1500000000000
         [(Finished (Doc page), 1500000000001)] w0 = Exit 0 w'
    /\ files w' = [ (fileB, [headerB; rowB a; rowB b]);
                    (fileA, [headerA; rowA a; rowA b]) ]
    /\ rowB a = ("200,1,a" ++ nl)%string
    /\ rowB b = ("100,2,b" ++ nl)%string
    /\ [headerB; rowB a; rowB b] <> headerB :: map rowB (QMap.values (blocksByTime o)).
Proof.
  cbv zeta. do 2 eexists.
  split; [vm_compute; reflexivity|].
  split; [reflexivity|]. split; [reflexivity|].
  split; [vm_compute; reflexivity|].
  split; [reflexivity|]. split; [reflexivity|]. split; [reflexivity|].
  vm_compute. discriminate.
Qed.

(** Sortedness and range of a list of numerals. *)
Ltac sorted_list :=
  repeat first [ apply SSorted_cons | apply SSorted_nil
               | apply Forall_cons | apply Forall_nil ];
  try (unfold in_int64, INT64_MIN, INT64_MAX; lia).

(* ================================================================== *)
(** * The average against the mean of the gaps *)

(** Two binary64 numbers that differ. *)
Ltac float_differ :=
  let H := fresh in
  intro H;
  match type of H with
  | ?x = ?y => apply (f_equal (fun a => PrimFloat.eqb a y)) in H
  end;
  vm_compute in H; discriminate.

(** C2, as stated, on two inputs in binary64.  Two blocks ten minutes
    apart: strictly increasing timestamps, distinct heights, the counter
    stays 0 and the total is the size of the index, but the average is 300
    where the mean of the gaps is 600.  Three blocks, the first before the
    epoch: the gap after a negative timestamp is not computed, and the
    average is 200 where the mean of the gaps is 305. *)
Lemma average_differs_from_mean_of_gaps :
  let w0 := world0 float Sample.always in
  (increasing (map time_val Sample.tenMinutes)
   /\ NoDup (map height_val Sample.tenMinutes)
   /\ exists o s,
        @processResults float (DocObject (Some (map Fields Sample.tenMinutes)))
          Sample.fresh w0 = Ret o w0
        /\ nDupeTimes o = 0
        /\ nBlocksOf o = QMap.size (blocksByTime o)
        /\ @statsLoop float binary64 LP64 o w0 = Ret s w0
        /\ avg s = Z2F 300
        /\ @meanOfGaps float binary64 (map time_val Sample.tenMinutes) = Z2F 600
        /\ avg s <> @meanOfGaps float binary64 (map time_val Sample.tenMinutes))
  /\
  (increasing (map time_val Sample.beforeEpoch)
   /\ NoDup (map height_val Sample.beforeEpoch)
   /\ exists o s,
        @processResults float (DocObject (Some (map Fields Sample.beforeEpoch)))
          Sample.fresh w0 = Ret o w0
        /\ nDupeTimes o = 0
        /\ nBlocksOf o = QMap.size (blocksByTime o)
        /\ @statsLoop float binary64 LP64 o w0 = Ret s w0
        /\ avg s = Z2F 200
        /\ @meanOfGaps float binary64 (map time_val Sample.beforeEpoch) = Z2F 305
        /\ avg s <> @meanOfGaps float binary64 (map time_val Sample.beforeEpoch)).
Proof.
  cbv zeta. split.
  - split; [cbn; sorted_list; lia|].
    split; [cbn; repeat constructor; cbn; intuition discriminate|].
    do 2 eexists.
    split; [vm_compute; reflexivity|].
    split; [reflexivity|]. split; [reflexivity|].
    split; [vm_compute; reflexivity|].
    split; [vm_compute; reflexivity|]. split; [vm_compute; reflexivity|].
    cbn [avg]. float_differ.
  - split; [cbn; sorted_list; lia|].
    split; [cbn; repeat constructor; cbn; intuition discriminate|].
    do 2 eexists.
    split; [vm_compute; reflexivity|].
    split; [reflexivity|]. split; [reflexivity|].
    split; [vm_compute; reflexivity|].
    split; [vm_compute; reflexivity|]. split; [vm_compute; reflexivity|].
    cbn [avg]. float_differ.
Qed.

(** The same run in exact arithmetic: the average of the two blocks ten
    minutes apart is 300. *)
Example average_exact_tenMinutes :
  exists o s,
    @processResults Q (DocObject (Some (map Fields Sample.tenMinutes)))
      Sample.fresh (world0 Q Sample.always) = Ret o (world0 Q Sample.always)
    /\ @statsLoop Q exactQ LP64 o (world0 Q Sample.always)
       = Ret s (world0 Q Sample.always)
    /\ (avg s == 300)%Q
    /\ (@meanOfGaps Q exactQ (map time_val Sample.tenMinutes) == 600)%Q.
Proof.
  do 2 eexists. split; [vm_compute; reflexivity|].
  split; [vm_compute; reflexivity|]. split; reflexivity.
Qed.

(* ================================================================== *)
(** * Runs of the whole program *)

(** A three-day run over three pages going back in time makes three
    requests: at the clock value, then a day before the earliest block
    known; it exits with status 0 after writing the two files. *)
Example three_day_run :
  exists w',
    @main float binary64 LP64 (Some 3) 0 0 1500200000000
      [ (Finished (Doc (DocObject (Some [Sample.el 3 "c" 1500172800;
                                         Sample.el 4 "d" 1500173400]))), 0);
        (Finished (Doc (DocObject (Some [Sample.el 1 "a" 1500086400;
                                         Sample.el 2 "b" 1500087000]))), 0);
        (Finished (Doc (DocObject (Some [Fields Sample.orphan]))), 0) ]
      (world0 float Sample.always) = Exit 0 w'
    /\ requests w' = [1500200000000; 1500086400000; 1500000000000]
    /\ map fst (files w') = [fileB; fileA]
    /\ map (fun f => List.length (snd f)) (files w') = [5%nat; 5%nat].
Proof.
  eexists. split; [vm_compute; reflexivity|]. repeat split.
Qed.

(** A network error, a body that is not JSON and a missing argument. *)
Example failing_runs :
  @main float binary64 LP64 (Some 2) 0 0 7 [(NetworkError 3, 0)]
    (world0 float Sample.always)
  = Exit 1 (mkWorld [MsgConnecting 2; MsgReceived 0 0; FatalNetwork 3] [7] []
              Sample.always)
  /\ @main float binary64 LP64 (Some 2) 0 0 7 [(Finished (NullDoc "illegal value"), 0)]
       (world0 float Sample.always)
     = Exit 1 (mkWorld [MsgConnecting 2; MsgReceived 0 0; FatalJson "illegal value"]
                 [7] [] Sample.always)
  /\ @main float binary64 LP64 None 0 0 7 [] (world0 float Sample.always)
     = Exit 1 (mkWorld [MsgUsage] [] [] Sample.always).
Proof. repeat split. Qed.

(** Where [long] has 32 bits the sentinel of the minimum is 2147483647. *)
Example sentinel_LLP64 :
  exists s,
    @statsLoop float binary64 LLP64 Sample.oneBlock (world0 float Sample.always)
      = Ret s (world0 float Sample.always)
    /\ min s = 2147483647.
Proof. eexists. split; [vm_compute; reflexivity|reflexivity]. Qed.

(** With no gap at or above the cutoff, the value printed is 0/0: not a
    number in binary64. *)
Example cutoff_without_overage :
  let o := mkMainObj 1 0 0 [] [(0, mkBlock 1 "a" 0); (60, mkBlock 2 "b" 60)] [] in
  exists c w' m1 m2 m3 rest x,
    @printStatsAndExit float binary64 LP64 MainObj o (world0 float Sample.always)
      = Exit c w'
    /\ console w' = m1 :: m2 :: m3 :: rest
    /\ m3 = MsgCutoff 7.5%float x
    /\ PrimFloat.is_nan x = true.
Proof.
  cbv zeta. do 7 eexists. split; [vm_compute; reflexivity|].
  split; [reflexivity|]. split; reflexivity.
Qed.

(* ================================================================== *)
(** * Pages: what the element loop does and leaves alone *)

Section Pages.
Context {D : Type}.
Implicit Types (o : MainObj) (w : World D) (v : Element) (vm : BlockFields).
Import QMapFacts.

Lemma sameIO_refl w : sameIO w w.
Proof. repeat split. Qed.

Lemma sameIO_trans w1 w2 w3 : sameIO w1 w2 -> sameIO w2 w3 -> sameIO w1 w3.
Proof.
  intros (F1 & R1 & W1) (F2 & R2 & W2). repeat split; congruence.
Qed.

Lemma sameIO_print (m : Msg D) w : sameIO w (print m w).
Proof. repeat split. Qed.

Lemma forM_cons_ret {A S : Type} (body : S -> A -> M S) (a : A) (l : list A)
    (s s' : S) w w' :
  body s a w = Ret s' w' -> forM body (a :: l) s w = forM body l s' w'.
Proof. intros H. cbn [forM]. unfold bind. now rewrite H. Qed.

Lemma forM_cons_exit {A S : Type} (body : S -> A -> M S) (a : A) (l : list A)
    (s : S) w c w' :
  body s a w = Exit c w' -> forM body (a :: l) s w = Exit c w'.
Proof. intros H. cbn [forM]. unfold bind. now rewrite H. Qed.

Lemma forM_app {A S : Type} (body : S -> A -> M S) (l1 l2 : list A) :
  forall (s : S) w,
  forM body (l1 ++ l2) s w = bind (forM body l1 s) (forM body l2) w.
Proof.
  induction l1 as [|a l1 IH]; intros s w; [reflexivity|].
  cbn [app forM]. unfold bind.
  destruct (body s a w) as [s' w'|c w']; [|reflexivity].
  rewrite IH. reflexivity.
Qed.

(** The three ways the loop body ends. *)
Lemma processElement_cases o v w :
  (parses v = true /\ isMainChain v = false /\ processElement o v w = Ret o w)
  \/ (exists vm w',
        v = Fields vm /\ accepted vm /\ sameIO w w'
        /\ processElement o v w =
             Ret (insertBlock (blockOf vm)
                    (if QMap.contains (time_val vm) (blocksByTime o)
                     then set_nDupeTimes (int32 (nDupeTimes o + 1)) o else o)) w')
  \/ (parses v = false /\ exists m, processElement o v w = Exit 1 (print m w)).
Proof.
  destruct v as [|vm].
  - right. right. split; [reflexivity|]. now exists FatalEmptyMap.
  - destruct (main_chain vm) eqn:Hm.
    + destruct (ok1 vm) eqn:H1; [destruct (ok2 vm) eqn:H2|].
      * right. left. exists vm. eexists. split; [reflexivity|].
        split; [repeat split; assumption|].
        rewrite processElement_accepted by (repeat split; assumption).
        cbv zeta. cbn [blockOf time height hash]. split; [|reflexivity].
        destruct (QMap.contains (height_val vm) (blocks o));
          destruct (QMap.contains (time_val vm) (blocksByTime o));
          repeat split.
      * right. right. cbn [parses]. rewrite Hm, H1, H2. split; [reflexivity|].
        exists FatalParse. unfold processElement. now rewrite Hm, H1, H2.
      * right. right. cbn [parses]. rewrite Hm, H1. split; [reflexivity|].
        exists FatalParse. unfold processElement. now rewrite Hm, H1.
    + left. cbn [parses isMainChain]. rewrite Hm. repeat split.
      apply processElement_filtered. exists vm. auto.
Qed.

(** The element loop prints at most; when it returns, the day counters
    of the object are as before. *)
Lemma forM_processElement_frame (vl : list Element) : forall o w,
  match forM processElement vl o w with
  | Ret o' w' => sameIO w w' /\ NDAYS o' = NDAYS o /\ daysLeft o' = daysLeft o
  | Exit c w' => c = 1 /\ sameIO w w'
  end.
Proof.
  induction vl as [|v vl IH]; intros o w.
  - cbn. repeat split.
  - destruct (processElement_cases o v w)
      as [(_ & _ & E)|[(vm & w1 & _ & _ & Hio & E)|(_ & m & E)]].
    + rewrite (forM_cons_ret _ _ _ _ _ _ _ E). apply IH.
    + rewrite (forM_cons_ret _ _ _ _ _ _ _ E).
      match goal with |- context [forM _ vl ?o1 w1] => specialize (IH o1 w1) end.
      destruct (forM processElement vl _ w1) as [o' w'|c w'].
      * destruct IH as (Hio' & Hn & Hd). split; [eapply sameIO_trans; eassumption|].
        rewrite Hn, Hd.
        destruct (QMap.contains (time_val vm) (blocksByTime o)); split; reflexivity.
      * destruct IH as (Hc & Hio'). split; [exact Hc|eapply sameIO_trans; eassumption].
    + rewrite (forM_cons_exit _ _ _ _ _ _ _ E). split; [reflexivity|apply sameIO_print].
Qed.

Lemma processResults_frame (d : QJsonDocument) o w :
  match processResults d o w with
  | Ret o' w' => sameIO w w' /\ NDAYS o' = NDAYS o /\ daysLeft o' = daysLeft o
  | Exit c w' => c = 1 /\ sameIO w w'
  end.
Proof.
  destruct d as [|[[|v vl]|]]; try (cbn; repeat split).
  apply (forM_processElement_frame (v :: vl)).
Qed.

Lemma forM_parses (vl : list Element) : forall o w,
  if forallb parses vl
  then exists o' w', forM processElement vl o w = Ret o' w'
  else exists w', forM processElement vl o w = Exit 1 w'.
Proof.
  induction vl as [|v vl IH]; intros o w.
  - cbn. now exists o, w.
  - cbn [forallb].
    destruct (processElement_cases o v w)
      as [(Hp & _ & E)|[(vm & w1 & -> & (Hm & H1 & H2) & _ & E)|(Hp & m & E)]].
    + rewrite Hp, (forM_cons_ret _ _ _ _ _ _ _ E). apply IH.
    + cbn [parses]. rewrite Hm, H1, H2. cbn [negb orb andb].
      rewrite (forM_cons_ret _ _ _ _ _ _ _ E). apply IH.
    + rewrite Hp, (forM_cons_exit _ _ _ _ _ _ _ E). cbn [andb]. eexists. reflexivity.
Qed.

(** X1. [processResults] returns exactly on a well-formed page: a JSON
    object whose "blocks" array is non-empty, holds no empty element, and
    whose main-chain elements have a height and a time that parsed.  On
    every other document the process exits with status 1, having made no
    request and written no file. *)
Theorem processResults_returns_iff_well_formed (d : QJsonDocument) o w :
  if wellFormedPage d
  then exists o' w', processResults d o w = Ret o' w'
  else exists w', processResults d o w = Exit 1 w'
                  /\ files w' = files w /\ requests w' = requests w.
Proof.
  pose proof (processResults_frame d o w) as Hframe.
  destruct d as [|[[|v vl]|]];
    try (cbn; eexists; split; [reflexivity|split; reflexivity]).
  unfold wellFormedPage. change (processResults (DocObject (Some (v :: vl))) o w)
    with (forM processElement (v :: vl) o w) in *.
  pose proof (forM_parses (v :: vl) o w) as H.
  destruct (forallb parses (v :: vl)); [exact H|].
  destruct H as (w' & E). rewrite E in Hframe. destruct Hframe as (_ & F & R & _).
  exists w'. auto.
Qed.

(** The lookups after the element loop. *)
Lemma forM_lookup (vl : list Element) : forall o w o' w' k,
  forM processElement vl o w = Ret o' w' ->
  QMap.find k (blocks o') = lastAccepted height_val k vl (QMap.find k (blocks o))
  /\ QMap.find k (blocksByTime o')
     = lastAccepted time_val k vl (QMap.find k (blocksByTime o)).
Proof.
  induction vl as [|v vl IH]; intros o w o' w' k H.
  - cbn in H. injection H as <- _. split; reflexivity.
  - destruct (processElement_cases o v w)
      as [(_ & Hmain & E)|[(vm & w1 & -> & (Hm & _) & _ & E)|(_ & m & E)]].
    + rewrite (forM_cons_ret _ _ _ _ _ _ _ E) in H. apply (IH _ _ _ _ k) in H.
      unfold lastAccepted in *. cbn [fold_left].
      destruct v as [|vm]; [exact H|]. cbn [isMainChain] in Hmain.
      rewrite Hmain. exact H.
    + rewrite (forM_cons_ret _ _ _ _ _ _ _ E) in H. apply (IH _ _ _ _ k) in H.
      unfold lastAccepted in *. cbn [fold_left]. rewrite Hm. cbn [andb].
      destruct H as [Hh Ht]. rewrite Hh, Ht.
      replace (blocks (insertBlock (blockOf vm)
                 (if QMap.contains (time_val vm) (blocksByTime o)
                  then set_nDupeTimes (int32 (nDupeTimes o + 1)) o else o)))
        with (QMap.insert (height_val vm) (blockOf vm) (blocks o))
        by (destruct (QMap.contains (time_val vm) (blocksByTime o)); reflexivity).
      replace (blocksByTime (insertBlock (blockOf vm)
                 (if QMap.contains (time_val vm) (blocksByTime o)
                  then set_nDupeTimes (int32 (nDupeTimes o + 1)) o else o)))
        with (QMap.insert (time_val vm) (blockOf vm) (blocksByTime o))
        by (destruct (QMap.contains (time_val vm) (blocksByTime o)); reflexivity).
      split.
      * destruct (Z.eqb_spec (height_val vm) k) as [->|Hne].
        -- now rewrite find_insert_eq.
        -- rewrite find_insert_ne by congruence. reflexivity.
      * destruct (Z.eqb_spec (time_val vm) k) as [->|Hne].
        -- now rewrite find_insert_eq.
        -- rewrite find_insert_ne by congruence. reflexivity.
    + rewrite (forM_cons_exit _ _ _ _ _ _ _ E) in H. discriminate.
Qed.

Lemma lastAccepted_some (key : BlockFields -> Z) (k : Z) (vl : list Element) :
  forall b, exists b', lastAccepted key k vl (Some b) = Some b'.
Proof.
  unfold lastAccepted. induction vl as [|v vl IH]; intros b; cbn [fold_left].
  - now exists b.
  - destruct v as [|vm]; [apply IH|].
    destruct (main_chain vm && (key vm =? k)); apply IH.
Qed.

(** X2. Last write wins over a whole page.  After a page that
    [processResults] returns from, the by-height index maps every height
    to the block of the last main-chain element of the page with that
    height, and to what it held before when the page has none; the by-time
    index does the same by timestamp. *)
Theorem page_last_write_wins (vl : list Element) o w o' w' (k : Z) :
  processResults (DocObject (Some vl)) o w = Ret o' w' ->
  QMap.find k (blocks o') = lastAccepted height_val k vl (QMap.find k (blocks o))
  /\ QMap.find k (blocksByTime o')
     = lastAccepted time_val k vl (QMap.find k (blocksByTime o)).
Proof.
  intros H. destruct vl as [|v vl]; [discriminate|].
  now apply (forM_lookup (v :: vl) o w o' w').
Qed.

(** X3. No entry is ever removed.  A height or a timestamp an index
    holds before a page is still held after it. *)
Theorem page_removes_no_entry (d : QJsonDocument) o w o' w' (k : Z) :
  processResults d o w = Ret o' w' ->
  (QMap.contains k (blocks o) = true -> QMap.contains k (blocks o') = true)
  /\ (QMap.contains k (blocksByTime o) = true ->
      QMap.contains k (blocksByTime o') = true).
Proof.
  intros H. destruct d as [|[[|v vl]|]]; try discriminate.
  destruct (forM_lookup (v :: vl) o w o' w' k H) as [Hh Ht].
  unfold QMap.contains. rewrite Hh, Ht. split; intros Hc.
  - destruct (QMap.find k (blocks o)) as [b|]; [|discriminate].
    destruct (lastAccepted_some height_val k (v :: vl) b) as (b' & ->). reflexivity.
  - destruct (QMap.find k (blocksByTime o)) as [b|]; [|discriminate].
    destruct (lastAccepted_some time_val k (v :: vl) b) as (b' & ->). reflexivity.
Qed.

(** X4. Page boundaries do not matter.  Processing a page that is the
    concatenation of two non-empty pages is processing the first and then
    the second. *)
Theorem page_split (vl1 vl2 : list Element) o w :
  vl1 <> [] -> vl2 <> [] ->
  processResults (DocObject (Some (vl1 ++ vl2))) o w
  = bind (processResults (DocObject (Some vl1)) o)
         (processResults (DocObject (Some vl2))) w.
Proof.
  intros H1 H2.
  rewrite processResults_nonempty by (destruct vl1; [contradiction|discriminate]).
  rewrite forM_app. unfold bind.
  rewrite (processResults_nonempty vl1) by assumption.
  destruct (forM processElement vl1 o w) as [o1 w1|]; [|reflexivity].
  now rewrite processResults_nonempty.
Qed.

End Pages.

(* ================================================================== *)
(** * Pages: the invariants of the three indexes *)

Section PageInvariants.
Context {D : Type} {DO : DoubleOps D} {PF : Platform}.
Implicit Types (o : MainObj) (w : World D) (v : Element) (vm : BlockFields).
Import QMapFacts.

Lemma size_insertMulti {V : Type} (k : Z) (v : V) (m : QMap.t V) :
  QMap.size (QMap.insertMulti k v m) = QMap.size m + 1.
Proof.
  unfold QMap.size. induction m as [|[k' v'] m IH]; cbn [QMap.insertMulti].
  - reflexivity.
  - destruct (k <=? k'); cbn [List.length] in *; lia.
Qed.

Lemma keys_insertMulti_in {V : Type} (k k0 : Z) (v : V) (m : QMap.t V) :
  In k0 (QMap.keys (QMap.insertMulti k v m)) -> k0 = k \/ In k0 (QMap.keys m).
Proof.
  induction m as [|[k' v'] m IH]; cbn [QMap.insertMulti QMap.keys map fst].
  - intros [H|[]]; now left.
  - destruct (k <=? k'); cbn [map fst].
    + intros [H|[H|H]]; auto. right. now left. right. now right.
    + intros [H|H]; [right; now left|].
      destruct (IH H); auto. right. now right.
Qed.

Lemma insertMulti_sorted {V : Type} (k : Z) (v : V) (m : QMap.t V) :
  StronglySorted Z.le (QMap.keys m) ->
  StronglySorted Z.le (QMap.keys (QMap.insertMulti k v m)).
Proof.
  induction m as [|[k' v'] m IH]; cbn [QMap.insertMulti QMap.keys map fst]; intros Hs.
  - repeat constructor.
  - inversion Hs as [|? ? Hs' Hall]; subst.
    destruct (Z.leb_spec k k') as [Hle|Hgt]; cbn [map fst].
    + constructor; [exact Hs|]. constructor; [exact Hle|].
      eapply Forall_impl; [|exact Hall]. simpl. intros; lia.
    + constructor; [now apply IH|].
      apply Forall_forall. intros k0 Hin.
      apply keys_insertMulti_in in Hin. destruct Hin as [->|Hin]; [lia|].
      rewrite Forall_forall in Hall. now apply Hall.
Qed.

Lemma insertMulti_keyed {V : Type} (key : V -> Z) (v : V) (m : QMap.t V) :
  Forall (fun e => key (snd e) = fst e) m ->
  Forall (fun e => key (snd e) = fst e) (QMap.insertMulti (key v) v m).
Proof.
  induction m as [|[k' v'] m IH]; cbn [QMap.insertMulti]; intros H.
  - now constructor.
  - inversion H; subst.
    destruct (key v <=? k'); constructor; auto.
Qed.

Lemma insert_keys_in_range {V : Type} (k : Z) (v : V) (m : QMap.t V) :
  in_int64 k -> Forall in_int64 (QMap.keys m) ->
  Forall in_int64 (QMap.keys (QMap.insert k v m)).
Proof.
  intros Hk Hm. apply Forall_forall. intros k0 Hin.
  apply keys_insert_in in Hin. destruct Hin as [->|Hin]; [exact Hk|].
  rewrite Forall_forall in Hm. now apply Hm.
Qed.

Lemma insertBlock_keeps_indexed (b : Block) o :
  in_int64 (time b) -> indexed o -> indexed (insertBlock b o).
Proof.
  intros Hb ((Hts & Htk) & (Hhs & Hhk) & (Hms & Hmk) & Hr).
  unfold indexed, timeIndexed, heightIndexed, multiIndexed, insertBlock.
  cbn [blocksByTime blocks blocksByTimeMulti].
  repeat split.
  - now apply insert_sorted.
  - now apply (insert_keyed time).
  - now apply insert_sorted.
  - now apply (insert_keyed height).
  - now apply insertMulti_sorted.
  - now apply (insertMulti_keyed time).
  - now apply insert_keys_in_range.
Qed.

Lemma indexed_set_nDupeTimes (n : Z) o : indexed o -> indexed (set_nDupeTimes n o).
Proof. exact (fun H => H). Qed.

Lemma indexed_set_daysLeft (n : Z) o : indexed o -> indexed (set_daysLeft n o).
Proof. exact (fun H => H). Qed.

Lemma forM_indexed (vl : list Element) : forall o w o' w',
  forM processElement vl o w = Ret o' w' ->
  forallb timeInRange vl = true ->
  indexed o -> indexed o'.
Proof.
  induction vl as [|v vl IH]; intros o w o' w' H Hr Hi.
  - cbn in H. injection H as <- _. exact Hi.
  - cbn [forallb] in Hr. apply andb_prop in Hr. destruct Hr as [Hv Hr].
    destruct (processElement_cases o v w)
      as [(_ & _ & E)|[(vm & w1 & -> & (Hm & _) & _ & E)|(_ & m & E)]].
    + rewrite (forM_cons_ret _ _ _ _ _ _ _ E) in H. eapply IH; eassumption.
    + rewrite (forM_cons_ret _ _ _ _ _ _ _ E) in H.
      eapply IH; [exact H|exact Hr|].
      apply insertBlock_keeps_indexed.
      * cbn [timeInRange] in Hv. rewrite Hm in Hv. cbn [negb orb] in Hv.
        apply andb_prop in Hv. destruct Hv as [H1 H2].
        apply Z.leb_le in H1, H2. split; assumption.
      * now destruct (QMap.contains (time_val vm) (blocksByTime o)).
    + rewrite (forM_cons_exit _ _ _ _ _ _ _ E) in H. discriminate.
Qed.

Lemma processResults_keeps_indexed (vl : list Element) o w o' w' :
  processResults (DocObject (Some vl)) o w = Ret o' w' ->
  forallb timeInRange vl = true ->
  indexed o -> indexed o'.
Proof.
  intros H. destruct vl as [|v vl]; [discriminate|].
  exact (forM_indexed (v :: vl) o w o' w' H).
Qed.

(** X5. The indexes stay ordered.  When the by-time and by-height
    indexes have strictly ascending keys, the multi-index ascending keys,
    each block sits under its own key and the timestamps are [qint64]
    values, the same holds after any page that [processResults] returns
    from and whose main-chain timestamps are [qint64] values. *)
Theorem page_keeps_indexes_ordered (vl : list Element) o w o' w' :
  processResults (DocObject (Some vl)) o w = Ret o' w' ->
  forallb timeInRange vl = true ->
  indexed o ->
  timeIndexed (blocksByTime o') /\ heightIndexed (blocks o')
  /\ multiIndexed (blocksByTimeMulti o')
  /\ Forall in_int64 (QMap.keys (blocksByTime o')).
Proof.
  intros H Hr Hi. destruct vl as [|v vl]; [discriminate|].
  change (processResults (DocObject (Some (v :: vl))) o w)
    with (forM processElement (v :: vl) o w) in H.
  exact (forM_indexed (v :: vl) o w o' w' H Hr Hi).
Qed.

Lemma indexed_ascending o :
  indexed o -> ascending (map time (QMap.values (blocksByTime o))).
Proof.
  intros (Ht & _ & _ & Hr). now apply timeIndexed_ascending.
Qed.

(** X6. The ordering check of the statistics cannot fire on an index
    built by [processResults]: over such an index the loop returns, with
    every delta computed the exact difference of two neighbours, none
    negative. *)
Theorem statistics_never_abort_on_built_index o w :
  indexed o ->
  exists s,
    statsLoop o w = Ret s w
    /\ Forall (fun d => 0 <= d)
              (deltasFrom (-1) (map time (QMap.values (blocksByTime o))))
    /\ max s = maxFrom (-1) (deltasFrom (-1) (map time (QMap.values (blocksByTime o))))
    /\ last s = List.last (map time (QMap.values (blocksByTime o))) (-1).
Proof.
  intros Hi. pose proof (indexed_ascending o Hi) as Hasc.
  eexists. split; [now apply statsLoop_ascending|].
  split; [apply deltasFrom_nonneg; [apply Hasc|lia]|].
  rewrite fold_stepPure. cbv zeta. split; reflexivity.
Qed.

(** The multi-index grows by one entry for each main-chain element. *)
Lemma forM_multi_count (vl : list Element) : forall o w o' w',
  forM processElement vl o w = Ret o' w' ->
  QMap.size (blocksByTimeMulti o')
  = QMap.size (blocksByTimeMulti o) + mainChainCount vl.
Proof.
  unfold mainChainCount.
  induction vl as [|v vl IH]; intros o w o' w' H.
  - cbn in H. injection H as <- _. cbn. lia.
  - destruct (processElement_cases o v w)
      as [(_ & Hmain & E)|[(vm & w1 & -> & (Hm & _) & _ & E)|(_ & m & E)]].
    + rewrite (forM_cons_ret _ _ _ _ _ _ _ E) in H. apply IH in H.
      cbn [filter]. now rewrite Hmain.
    + rewrite (forM_cons_ret _ _ _ _ _ _ _ E) in H. apply IH in H.
      cbn [filter isMainChain]. rewrite Hm. cbn [List.length].
      rewrite H.
      replace (blocksByTimeMulti (insertBlock (blockOf vm)
                 (if QMap.contains (time_val vm) (blocksByTime o)
                  then set_nDupeTimes (int32 (nDupeTimes o + 1)) o else o)))
        with (QMap.insertMulti (time_val vm) (blockOf vm) (blocksByTimeMulti o))
        by (destruct (QMap.contains (time_val vm) (blocksByTime o)); reflexivity).
      rewrite size_insertMulti. lia.
    + rewrite (forM_cons_exit _ _ _ _ _ _ _ E) in H. discriminate.
Qed.

(** X7. The total the statistics use counts the main-chain elements.
    Over a page that [processResults] returns from, the size of the
    by-time index plus the duplicate-timestamp counter grows by the
    number of main-chain elements of the page, provided the index is
    ordered and the [int] counter cannot overflow. *)
Theorem page_total_count (vl : list Element) o w o' w' :
  processResults (DocObject (Some vl)) o w = Ret o' w' ->
  StronglySorted Z.lt (QMap.keys (blocksByTime o)) ->
  0 <= nDupeTimes o ->
  nDupeTimes o + Z.of_nat (List.length vl) <= INT_MAX ->
  QMap.size (blocksByTime o') + nDupeTimes o'
  = QMap.size (blocksByTime o) + nDupeTimes o + mainChainCount vl.
Proof.
  intros H Hs Hn Hmax. destruct vl as [|v vl]; [discriminate|].
  unfold mainChainCount. now apply (total_count (v :: vl) o w o' w').
Qed.

(** X8. The multi-index keeps every block.  Over a page that
    [processResults] returns from, the multi-index grows by exactly the
    number of main-chain elements; so when it held as many blocks as the
    statistics count before the page, it does after. *)
Theorem multi_index_keeps_every_block (vl : list Element) o w o' w' :
  processResults (DocObject (Some vl)) o w = Ret o' w' ->
  StronglySorted Z.lt (QMap.keys (blocksByTime o)) ->
  0 <= nDupeTimes o ->
  nDupeTimes o + Z.of_nat (List.length vl) <= INT_MAX ->
  QMap.size (blocksByTimeMulti o')
  = QMap.size (blocksByTimeMulti o) + mainChainCount vl
  /\ (QMap.size (blocksByTimeMulti o)
      = QMap.size (blocksByTime o) + nDupeTimes o ->
      QMap.size (blocksByTimeMulti o')
      = QMap.size (blocksByTime o') + nDupeTimes o').
Proof.
  intros H Hs Hn Hmax. destruct vl as [|v vl]; [discriminate|].
  change (processResults (DocObject (Some (v :: vl))) o w)
    with (forM processElement (v :: vl) o w) in H.
  pose proof (forM_multi_count _ _ _ _ _ H) as Hm.
  pose proof (total_count _ _ _ _ _ H Hs Hn Hmax) as Ht.
  split; [exact Hm|]. intros Heq. unfold mainChainCount in Hm. lia.
Qed.

End PageInvariants.

(* ================================================================== *)
(** * The exporter and the end of the run *)

Section Exporting.
Context {D : Type} {DO : DoubleOps D} {PF : Platform}.
Implicit Types (o : MainObj) (w : World D) (s : Stats D).

Lemma fileA_fileB : String.eqb fileA fileB = false.
Proof. reflexivity. Qed.

Lemma lookupFile_store_eq (name : string) (c : list string) w :
  lookupFile name (files (store name c w)) = Some c.
Proof.
  unfold lookupFile, store. cbn [files List.find fst snd].
  now rewrite String.eqb_refl.
Qed.

Lemma lookupFile_store_ne (name other : string) (c : list string) w :
  String.eqb name other = false ->
  lookupFile other (files (store name c w)) = lookupFile other (files w).
Proof.
  intros Hne. unfold lookupFile, store. cbn [files List.find fst snd].
  rewrite Hne.
  induction (files w) as [|[n c'] fs IH]; [reflexivity|].
  cbn [filter fst]. destruct (String.eqb n name) eqn:En; cbn [negb List.find fst].
  - apply String.eqb_eq in En. subst n. rewrite Hne. exact IH.
  - destruct (String.eqb n other); [reflexivity|exact IH].
Qed.

Lemma saveCsv_A_unwritable o w :
  writable w fileA = false -> saveCsv o w = Exit 1 (print (FatalOpen fileA) w).
Proof.
  intros HA. unfold saveCsv, bind, openWrite, Fatal. now rewrite HA.
Qed.

Lemma saveCsv_B_unwritable o w :
  writable w fileA = true -> writable w fileB = false ->
  saveCsv o w =
    Exit 1 (print (FatalOpen fileB)
              (store fileA (headerA :: map rowA (QMap.values (blocks o))) w)).
Proof.
  intros HA HB. unfold saveCsv, bind, openWrite, writeFile, Fatal, ret.
  rewrite HA. cbn [negb writable store]. now rewrite HB.
Qed.

(** X9. When a CSV file cannot be opened [saveCsv] exits with status 1.
    If it is the first file, no file has been touched.  If it is the
    second, the first file has already been written in full, and the
    second keeps what it held. *)
Theorem saveCsv_open_failure o w :
  writable w fileA = false \/ writable w fileB = false ->
  exists w',
    saveCsv o w = Exit 1 w'
    /\ requests w' = requests w
    /\ (writable w fileA = false ->
        files w' = files w /\ console w' = console w ++ [FatalOpen fileA])
    /\ (writable w fileA = true ->
        lookupFile fileA (files w')
        = Some (headerA :: map rowA (QMap.values (blocks o)))
        /\ lookupFile fileB (files w') = lookupFile fileB (files w)
        /\ console w' = console w ++ [FatalOpen fileB]).
Proof.
  intros H. destruct (writable w fileA) eqn:HA.
  - destruct H as [H|HB]; [discriminate|].
    eexists. split; [now apply saveCsv_B_unwritable|].
    split; [reflexivity|]. split; [discriminate|]. intros _.
    cbn [files print].
    split; [apply lookupFile_store_eq|].
    split; [apply lookupFile_store_ne, fileA_fileB|reflexivity].
  - eexists. split; [now apply saveCsv_A_unwritable|].
    split; [reflexivity|]. split; [|discriminate]. intros _. split; reflexivity.
Qed.

(** With both files writable [saveCsv] returns and stores both files. *)
Lemma saveCsv_files o w :
  writable w fileA = true -> writable w fileB = true ->
  exists w',
    saveCsv o w = Ret tt w'
    /\ lookupFile fileA (files w') = Some (headerA :: map rowA (QMap.values (blocks o)))
    /\ lookupFile fileB (files w') = Some (headerB :: map rowB (QMap.values (blocks o)))
    /\ console w' = console w ++ [MsgSaved fileA fileB]
    /\ requests w' = requests w.
Proof.
  intros HA HB. eexists. split; [now apply saveCsv_writable|].
  cbn [files print console requests].
  split.
  { rewrite lookupFile_store_ne by (now rewrite String.eqb_sym, fileA_fileB).
    apply lookupFile_store_eq. }
  split; [apply lookupFile_store_eq|]. split; reflexivity.
Qed.

(** X10. With both files writable [saveCsv] returns.  Each file holds
    its header and then one row per entry of the by-height index; files
    of other names are left as they were.  When the by-height index is
    ordered, the rows of the first file are in strictly ascending height
    order. *)
Theorem saveCsv_success o w :
  writable w fileA = true -> writable w fileB = true ->
  exists w',
    saveCsv o w = Ret tt w'
    /\ lookupFile fileA (files w') = Some (headerA :: map rowA (QMap.values (blocks o)))
    /\ lookupFile fileB (files w') = Some (headerB :: map rowB (QMap.values (blocks o)))
    /\ (forall name, String.eqb fileA name = false -> String.eqb fileB name = false ->
        lookupFile name (files w') = lookupFile name (files w))
    /\ console w' = console w ++ [MsgSaved fileA fileB]
    /\ requests w' = requests w
    /\ (heightIndexed (blocks o) ->
        increasing (map height (QMap.values (blocks o)))).
Proof.
  intros HA HB. eexists. split; [now apply saveCsv_writable|].
  cbn [files print console requests].
  split.
  { rewrite lookupFile_store_ne by (now rewrite String.eqb_sym, fileA_fileB).
    apply lookupFile_store_eq. }
  split; [apply lookupFile_store_eq|].
  split.
  { intros name NA NB. now rewrite !lookupFile_store_ne. }
  split; [reflexivity|]. split; [reflexivity|].
  intros [Hs Hk].
  assert (E : map height (QMap.values (blocks o)) = QMap.keys (blocks o)).
  { unfold QMap.values, QMap.keys. rewrite map_map.
    apply map_ext_in. intros e He. rewrite Forall_forall in Hk. now apply Hk. }
  unfold increasing. now rewrite E.
Qed.

(** The statistics loop either returns without printing or prints a
    negative delta and exits with status 1. *)
Lemma forM_statsStep_outcome (n : Z) (bs : list Block) : forall s w,
  (exists s', forM (statsStep n) bs s w = Ret s' w)
  \/ (exists h d, d < 0
        /\ forM (statsStep n) bs s w = Exit 1 (print (FatalDelta h d) w)).
Proof.
  induction bs as [|b bs IH]; intros s w.
  - left. now exists s.
  - destruct (statsStep_cases n s b w) as [(s1 & E & _)|(d & Hd & E)].
    + rewrite (forM_cons_ret _ _ _ _ _ _ _ E). apply IH.
    + rewrite (forM_cons_exit _ _ _ _ _ _ _ E). right. now exists (height b), d.
Qed.

(** [printStatsAndExit], its sequence of effects spelled out. *)
Lemma printStatsAndExit_steps o w :
  printStatsAndExit (A := MainObj) o w =
    match statsLoop o (print (MsgGot (nBlocksOf o) (daysOf o)) w) with
    | Ret s w2 =>
        match saveCsv o
                (print (MsgCutoff (ddiv (of_int mycutoff) (of_int 60))
                          (ddiv (ddiv (of_int (cutoffdeltasums s))
                                      (of_int (nsums s))) (of_int 60)))
                   (print (MsgAvg (ddiv (avg s) (of_int 60))
                                  (ddiv (of_int (min s)) (of_int 60))
                                  (ddiv (of_int (max s)) (of_int 60))) w2))
        with
        | Ret _ w4 => Exit 0 (print MsgDone w4)
        | Exit c w4 => Exit c w4
        end
    | Exit c w2 => Exit c w2
    end.
Proof.
  unfold printStatsAndExit, bind, Log, appExit.
  destruct (statsLoop o _) as [s w2|c w2]; [|reflexivity].
  destruct (saveCsv o _) as [[] w4|c w4]; reflexivity.
Qed.

(** The ways [printStatsAndExit] ends. *)
Lemma printStatsAndExit_outcome o w :
  let w1 := print (MsgGot (nBlocksOf o) (daysOf o)) w in
  (exists h d, d < 0
     /\ printStatsAndExit (A := MainObj) o w = Exit 1 (print (FatalDelta h d) w1))
  \/ exists s,
       statsLoop o w1 = Ret s w1
       /\ let w3 := print (MsgCutoff (ddiv (of_int mycutoff) (of_int 60))
                             (ddiv (ddiv (of_int (cutoffdeltasums s))
                                         (of_int (nsums s))) (of_int 60)))
                      (print (MsgAvg (ddiv (avg s) (of_int 60))
                                     (ddiv (of_int (min s)) (of_int 60))
                                     (ddiv (of_int (max s)) (of_int 60))) w1) in
          printStatsAndExit (A := MainObj) o w =
            match saveCsv o w3 with
            | Ret _ w4 => Exit 0 (print MsgDone w4)
            | Exit c w4 => Exit c w4
            end.
Proof.
  cbv zeta. rewrite printStatsAndExit_steps. unfold statsLoop.
  destruct (forM_statsStep_outcome (nBlocksOf o) (QMap.values (blocksByTime o))
              (initStats o) (print (MsgGot (nBlocksOf o) (daysOf o)) w))
    as [(s & E)|(h & d & Hd & E)]; rewrite E.
  - right. exists s. split; reflexivity.
  - left. now exists h, d.
Qed.

(** Where [saveCsv] cannot fail, [printStatsAndExit] over an index built
    by [processResults] ends the run with status 0: it prints the three
    lines of the report, writes both files, prints "Saved" and "Done",
    and makes no request. *)
Lemma printStatsAndExit_success o w :
  indexed o ->
  writable w fileA = true -> writable w fileB = true ->
  exists s w',
    printStatsAndExit (A := MainObj) o w = Exit 0 w'
    /\ console w' = console w ++ report o s ++ [MsgSaved fileA fileB; MsgDone]
    /\ requests w' = requests w
    /\ lookupFile fileA (files w') = Some (headerA :: map rowA (QMap.values (blocks o)))
    /\ lookupFile fileB (files w') = Some (headerB :: map rowB (QMap.values (blocks o))).
Proof.
  intros Hi HA HB.
  destruct (printStatsAndExit_outcome o w) as [(h & d & Hd & E)|(s & Hloop & E)].
  - exfalso. pose proof (indexed_ascending o Hi) as Hasc.
    rewrite printStatsAndExit_steps, (statsLoop_ascending o _ Hasc) in E.
    destruct (saveCsv o _) as [[] w4|c w4] eqn:Es.
    + discriminate.
    + match type of Es with
      | saveCsv o ?w3 = _ =>
          destruct (saveCsv_files o w3 HA HB) as (w5 & Hs & _)
      end.
      rewrite Hs in Es. discriminate.
  - cbv zeta in E.
    match type of E with
    | _ = match saveCsv o ?w3 with _ => _ end =>
        destruct (saveCsv_files o w3 HA HB)
          as (w4 & Hsave & HfA & HfB & Hcons & Hreq)
    end.
    rewrite Hsave in E. exists s. eexists. split; [exact E|].
    cbn [console print requests files]. rewrite Hcons, Hreq.
    cbn [console print requests]. unfold report.
    rewrite <- !app_assoc. cbn [app]. auto.
Qed.

Lemma fold_max_spec (ds : list Z) : forall a,
  a <= fold_left Z.max ds a
  /\ Forall (fun d => d <= fold_left Z.max ds a) ds
  /\ (fold_left Z.max ds a = a \/ In (fold_left Z.max ds a) ds).
Proof.
  induction ds as [|d ds IH]; intros a; cbn [fold_left].
  - repeat split; auto. lia.
  - destruct (IH (Z.max a d)) as (H1 & H2 & H3). split; [lia|]. split.
    + constructor; [lia|exact H2].
    + destruct H3 as [H3|H3]; [|right; now right].
      rewrite H3.
      destruct (Z.max_spec a d) as [[_ E]|[_ E]]; rewrite E.
      * right. now left.
      * now left.
Qed.

Lemma fold_min_spec (ds : list Z) : forall a,
  fold_left Z.min ds a <= a
  /\ Forall (fun d => fold_left Z.min ds a <= d) ds
  /\ (fold_left Z.min ds a = a \/ In (fold_left Z.min ds a) ds).
Proof.
  induction ds as [|d ds IH]; intros a; cbn [fold_left].
  - repeat split; auto. lia.
  - destruct (IH (Z.min a d)) as (H1 & H2 & H3). split; [lia|]. split.
    + constructor; [lia|exact H2].
    + destruct H3 as [H3|H3]; [|right; now right].
      rewrite H3.
      destruct (Z.min_spec a d) as [[_ E]|[_ E]]; rewrite E.
      * now left.
      * right. now left.
Qed.

(** X11. Over ascending non-negative timestamps of at least two blocks,
    [max] ends as the greatest of the consecutive gaps.  [min] ends below
    every gap; with a zero duplicate counter it is the least gap, as long
    as that gap is below [LONG_MAX]. *)
Theorem min_max_are_extreme_gaps o w :
  let ts := map time (QMap.values (blocksByTime o)) in
  ascending ts ->
  Forall (fun t => 0 <= t) ts ->
  (2 <= List.length ts)%nat ->
  exists s,
    statsLoop o w = Ret s w
    /\ In (max s) (gaps ts)
    /\ Forall (fun d => d <= max s) (gaps ts)
    /\ Forall (fun d => min s <= d) (gaps ts)
    /\ (nDupeTimes o = 0 -> Exists (fun d => d < LONG_MAX) (gaps ts) ->
        In (min s) (gaps ts)).
Proof.
  intros ts Hasc Hpos Hlen.
  assert (Hds : deltasFrom (-1) ts = gaps ts).
  { apply deltasFrom_start. eapply Forall_impl; [|exact Hpos]. simpl. intros; lia. }
  assert (Hnn : Forall (fun d => 0 <= d) (gaps ts)) by (apply gaps_nonneg, Hasc).
  assert (Hne : gaps ts <> []).
  { destruct ts as [|t0 [|t1 ts']]; cbn [List.length] in Hlen; try lia. discriminate. }
  eexists. split; [now apply statsLoop_ascending|].
  rewrite fold_stepPure. cbv zeta. cbn [max min initStats last]. fold ts. rewrite Hds.
  destruct (fold_max_spec (gaps ts) (-1)) as (M1 & M2 & M3).
  destruct (fold_min_spec (gaps ts) (if nDupeTimes o =? 0 then LONG_MAX else 0))
    as (N1 & N2 & N3).
  split.
  { destruct M3 as [M3|M3]; [|exact M3]. exfalso.
    destruct (gaps ts) as [|d ds]; [contradiction|].
    inversion Hnn; subst. inversion M2; subst. lia. }
  split; [exact M2|]. split; [exact N2|].
  intros Hz Hex. rewrite Hz in *. cbn [Z.eqb] in *.
  destruct N3 as [N3|N3]; [|exact N3]. exfalso.
  apply Exists_exists in Hex. destruct Hex as (d & Hin & Hd).
  rewrite Forall_forall in N2. specialize (N2 d Hin). lia.
Qed.

End Exporting.

(* ================================================================== *)
(** * Whole runs *)

Section Runs.
Context {D : Type} {DO : DoubleOps D} {PF : Platform}.
Implicit Types (o : MainObj) (w : World D) (script : list (Reply * Z)).

Lemma getNext_steps (now : Z) o w :
  getNext now o w =
    let w1 := print (MsgReceived (QMap.size (blocksByTime o))
                                 (int32 (daysLeft o - NDAYS o))) w in
    if QMap.isEmpty (blocksByTime o)
    then Ret (set_nDupeTimes 0 o) (request now w1)
    else Ret o (request (int64 (int64 (time (QMap.first Block0 (blocksByTime o)) * 1000)
                                - aday_ms)) w1).
Proof.
  unfold getNext, bind, Log, sendRequest, ret. cbv zeta.
  now destruct (QMap.isEmpty (blocksByTime o)).
Qed.

(** [getNext] returns; it adds one request and one console line, and
    changes nothing of the object but, on an empty index, the counter. *)
Lemma getNext_ret (now : Z) o w :
  exists o3 w3 ts,
    getNext now o w = Ret o3 w3
    /\ blocks o3 = blocks o /\ blocksByTime o3 = blocksByTime o
    /\ blocksByTimeMulti o3 = blocksByTimeMulti o
    /\ NDAYS o3 = NDAYS o /\ daysLeft o3 = daysLeft o
    /\ (nDupeTimes o3 = nDupeTimes o \/ nDupeTimes o3 = 0)
    /\ files w3 = files w /\ writable w3 = writable w
    /\ requests w3 = requests w ++ [ts]
    /\ (blocksByTime o = [] -> ts = now /\ nDupeTimes o3 = 0).
Proof.
  rewrite getNext_steps. cbv zeta.
  destruct (QMap.isEmpty (blocksByTime o)) eqn:E.
  - exists (set_nDupeTimes 0 o). do 2 eexists. split; [reflexivity|].
    do 5 (split; [reflexivity|]). split; [now right|].
    do 3 (split; [reflexivity|]). intros _. split; reflexivity.
  - exists o. do 2 eexists. split; [reflexivity|].
    do 5 (split; [reflexivity|]). split; [now left|].
    do 3 (split; [reflexivity|]). intros He. rewrite He in E. discriminate.
Qed.

Lemma finished_steps (body : Body) (now : Z) o w :
  finished body now o w =
    match body with
    | NullDoc e => Exit 1 (print (FatalJson e) w)
    | Doc d =>
        match processResults d o w with
        | Ret o1 w1 =>
            if 0 <? int32 (daysLeft o1 - 1)
            then getNext now (set_daysLeft (int32 (daysLeft o1 - 1)) o1) w1
            else printStatsAndExit (set_daysLeft (int32 (daysLeft o1 - 1)) o1) w1
        | Exit c w1 => Exit c w1
        end
    end.
Proof.
  unfold finished, bind. destruct body as [e|d]; [reflexivity|].
  destruct (processResults d o w) as [o1 w1|c w1]; [|reflexivity].
  cbv zeta. cbn [daysLeft set_daysLeft].
  now destruct (0 <? int32 (daysLeft o1 - 1)).
Qed.

Lemma appEntry_fresh (now ndays junk1 junk2 : Z) w :
  appEntry now (newMainObj ndays junk1 junk2) w =
    Ret (newMainObj ndays ndays 0)
        (request now (print (MsgReceived 0 0) (print (MsgConnecting ndays) w))).
Proof.
  unfold appEntry, getNext, bind, Log, sendRequest, ret, newMainObj.
  cbn -[int32]. now rewrite Z.sub_diag.
Qed.

Lemma in_console_app (m : Msg D) (l1 l2 : list (Msg D)) :
  In m l1 -> In m (l1 ++ l2).
Proof. intros H. apply in_or_app. now left. Qed.

(** What [printStatsAndExit] leaves behind, however it ends. *)
Lemma printStatsAndExit_exit o w :
  exists c w',
    printStatsAndExit (A := MainObj) o w = Exit c w'
    /\ (c = 0 \/ c = 1)
    /\ requests w' = requests w
    /\ (files w' = files w \/ exists x y, In (MsgCutoff x y) (console w'))
    /\ (c = 0 ->
        lookupFile fileA (files w') = Some (headerA :: map rowA (QMap.values (blocks o)))
        /\ lookupFile fileB (files w') = Some (headerB :: map rowB (QMap.values (blocks o)))
        /\ List.last (console w') MsgUsage = MsgDone).
Proof.
  destruct (printStatsAndExit_outcome o w) as [(h & d & Hd & E)|(s & _ & E)].
  - do 2 eexists. split; [exact E|]. split; [now right|]. split; [reflexivity|].
    split; [now left|]. discriminate.
  - cbv zeta in E. rewrite E. clear E.
    match goal with |- context [saveCsv o ?w3] => set (w3' := w3) end.
    assert (Hcut : exists x y, In (MsgCutoff x y) (console w3')).
    { do 2 eexists. subst w3'. cbn [console print]. apply in_or_app. right.
      left. reflexivity. }
    destruct Hcut as (x & y & Hcut).
    destruct (writable w3' fileA) eqn:HA; [destruct (writable w3' fileB) eqn:HB|].
    + destruct (saveCsv_files o w3' HA HB)
        as (w4 & -> & HfA & HfB & Hcons & Hreq).
      do 2 eexists. split; [reflexivity|]. split; [now left|].
      cbn [requests print files console]. split; [now rewrite Hreq|].
      split.
      { right. exists x, y. apply in_console_app. rewrite Hcons.
        now apply in_console_app. }
      intros _. split; [exact HfA|]. split; [exact HfB|]. apply last_last.
    + rewrite (saveCsv_B_unwritable o w3' HA HB).
      do 2 eexists. split; [reflexivity|]. split; [now right|].
      split; [reflexivity|]. split; [|discriminate].
      right. exists x, y. cbn [console print store]. now apply in_console_app.
    + rewrite (saveCsv_A_unwritable o w3' HA).
      do 2 eexists. split; [reflexivity|]. split; [now right|].
      split; [reflexivity|]. split; [|discriminate]. now left.
Qed.

(** A reply after which the event loop goes on waiting. *)
Lemma onReply_ret (r : Reply) (now : Z) o w o1 w1 :
  1 <= daysLeft o <= INT_MAX ->
  onReply r now o w = Ret o1 w1 ->
  daysLeft o1 = daysLeft o - 1 /\ 1 <= daysLeft o1 /\ NDAYS o1 = NDAYS o
  /\ files w1 = files w /\ writable w1 = writable w
  /\ exists ts, requests w1 = requests w ++ [ts].
Proof.
  intros Hd H. destruct r as [c|body]; [discriminate|].
  cbn [onReply] in H. rewrite finished_steps in H.
  destruct body as [e|d]; [discriminate|].
  pose proof (processResults_frame d o w) as Hf.
  destruct (processResults d o w) as [o' w'|c w']; [|discriminate].
  destruct Hf as ((F & R & W) & Hn & Hl).
  rewrite Hl in H.
  rewrite int32_id in H by (unfold in_int32, INT_MIN, INT_MAX in *; lia).
  destruct (Z.ltb_spec 0 (daysLeft o - 1)) as [Hpos|Hle].
  - destruct (getNext_ret now (set_daysLeft (daysLeft o - 1) o') w')
      as (o3 & w3 & ts & E & _ & _ & _ & Hn3 & Hl3 & _ & F3 & W3 & R3 & _).
    rewrite E in H. injection H as <- <-.
    rewrite Hl3, Hn3. cbn [daysLeft NDAYS set_daysLeft].
    repeat split; try lia; try congruence.
    exists ts. congruence.
  - destruct (printStatsAndExit_exit (set_daysLeft (daysLeft o - 1) o') w')
      as (c & w4 & E & _). rewrite E in H. discriminate.
Qed.

Lemma exec_pending script : forall o w o' w',
  1 <= daysLeft o <= INT_MAX ->
  exec script o w = Ret o' w' ->
  files w' = files w
  /\ Z.of_nat (List.length (requests w'))
     = Z.of_nat (List.length (requests w)) + Z.of_nat (List.length script)
  /\ daysLeft o' = daysLeft o - Z.of_nat (List.length script)
  /\ 1 <= daysLeft o'
  /\ NDAYS o' = NDAYS o.
Proof.
  induction script as [|[r now] script IH]; intros o w o' w' Hd H.
  - cbn in H. injection H as <- <-. cbn [List.length]. repeat split; lia.
  - cbn [exec] in H. unfold bind in H.
    destruct (onReply r now o w) as [o1 w1|c w1] eqn:E; [|discriminate].
    apply (onReply_ret r now o w o1 w1 Hd) in E.
    destruct E as (Hl & H1 & Hn & F & _ & ts & R).
    apply IH in H; [|lia].
    destruct H as (F' & R' & Hl' & H1' & Hn').
    rewrite R, length_app in R'. cbn [List.length] in *.
    repeat split; try lia; congruence.
Qed.

(** X12. While a run waits for a reply it has made exactly one request
    more than the replies it has handled, has written no file, and has
    handled fewer replies than the number of days asked for. *)
Theorem pending_run_has_one_request_outstanding
    (ndays junk1 junk2 now : Z) script w o' w' :
  ndays <= INT_MAX ->
  main (Some ndays) junk1 junk2 now script w = Ret o' w' ->
  files w' = files w
  /\ Z.of_nat (List.length (requests w'))
     = Z.of_nat (List.length (requests w)) + Z.of_nat (List.length script) + 1
  /\ daysLeft o' = ndays - Z.of_nat (List.length script)
  /\ Z.of_nat (List.length script) < ndays.
Proof.
  intros Hmax H. unfold main in H.
  destruct (Z.leb_spec ndays 0) as [Hle|Hpos]; [discriminate|].
  unfold bind in H. rewrite appEntry_fresh in H.
  apply exec_pending in H; [|cbn [daysLeft newMainObj]; lia].
  destruct H as (F & R & Hl & H1 & _).
  cbn [files requests request print daysLeft newMainObj] in *.
  rewrite length_app in R. cbn [List.length] in R.
  repeat split; try lia; congruence.
Qed.

Lemma exec_exit script : forall o w c w',
  1 <= daysLeft o <= INT_MAX ->
  exec script o w = Exit c w' ->
  (c = 0 \/ c = 1)
  /\ Z.of_nat (List.length (requests w'))
     <= Z.of_nat (List.length (requests w)) + daysLeft o - 1
  /\ (files w' = files w \/ exists x y, In (MsgCutoff x y) (console w'))
  /\ (c = 0 ->
      Z.of_nat (List.length (requests w'))
      = Z.of_nat (List.length (requests w)) + daysLeft o - 1
      /\ (exists rows, lookupFile fileA (files w') = Some (headerA :: rows))
      /\ (exists rows, lookupFile fileB (files w') = Some (headerB :: rows))
      /\ List.last (console w') MsgUsage = MsgDone).
Proof.
  induction script as [|[r now] script IH]; intros o w c w' Hd H.
  - discriminate.
  - cbn [exec] in H. unfold bind in H.
    destruct (onReply r now o w) as [o1 w1|c1 w1] eqn:E.
    + apply (onReply_ret r now o w o1 w1 Hd) in E.
      destruct E as (Hl & H1 & Hn & F & _ & ts & R).
      apply IH in H; [|lia].
      destruct H as (Hc & Hr & Hf & H0).
      rewrite R, length_app in Hr, H0. cbn [List.length] in *.
      split; [exact Hc|]. split; [lia|]. split.
      * destruct Hf as [Hf|Hf]; [left; congruence|now right].
      * intros Hz. destruct (H0 Hz) as (H01 & H02 & H03 & H04).
        repeat split; auto. lia.
    + injection H as <- <-.
      destruct r as [code|body].
      * cbn in E. injection E as <- <-. cbn [requests files print].
        split; [now right|]. split; [lia|]. split; [now left|]. discriminate.
      * cbn [onReply] in E. rewrite finished_steps in E.
        destruct body as [e|d].
        -- injection E as <- <-. cbn [requests files print].
           split; [now right|]. split; [lia|]. split; [now left|]. discriminate.
        -- pose proof (processResults_frame d o w) as Hf.
           destruct (processResults d o w) as [o' w2|c2 w2].
           ++ destruct Hf as ((F & R & W) & Hn & Hl).
              rewrite Hl in E.
              rewrite int32_id in E by (unfold in_int32, INT_MIN, INT_MAX in *; lia).
              destruct (Z.ltb_spec 0 (daysLeft o - 1)) as [Hpos|Hle].
              ** destruct (getNext_ret now (set_daysLeft (daysLeft o - 1) o') w2)
                   as (o3 & w3 & ts & E3 & _). rewrite E3 in E. discriminate.
              ** destruct (printStatsAndExit_exit (set_daysLeft (daysLeft o - 1) o') w2)
                   as (c4 & w4 & E4 & Hc & Hr & Hfi & H0).
                 rewrite E4 in E. injection E as <- <-.
                 split; [exact Hc|]. rewrite Hr, R. split; [lia|]. split.
                 { destruct Hfi as [Hfi|Hfi]; [left; congruence|now right]. }
                 intros Hz. destruct (H0 Hz) as (HA & HB & HL).
                 split; [lia|]. split; [eexists; exact HA|].
                 split; [eexists; exact HB|exact HL].
           ++ destruct Hf as (-> & F & R & W). injection E as <- <-.
              split; [now right|]. rewrite R. split; [lia|].
              split; [now left|]. discriminate.
Qed.

(** X13. However a run ends, its exit status is 0 or 1 and it has made
    at most as many requests as the days asked for.  A file is touched
    only after the statistics have been printed.  A run that ends with
    status 0 has made exactly that many requests, has written both files
    and has printed "Done" last. *)
Theorem run_exit_summary (arg : option Z) (junk1 junk2 now : Z) script w c w' :
  match arg with Some ndays => ndays <= INT_MAX | None => True end ->
  main arg junk1 junk2 now script w = Exit c w' ->
  (c = 0 \/ c = 1)
  /\ Z.of_nat (List.length (requests w'))
     <= Z.of_nat (List.length (requests w))
        + match arg with Some ndays => Z.max 0 ndays | None => 0 end
  /\ (files w' = files w \/ exists x y, In (MsgCutoff x y) (console w'))
  /\ (c = 0 ->
      exists ndays,
        arg = Some ndays /\ 0 < ndays
        /\ Z.of_nat (List.length (requests w'))
           = Z.of_nat (List.length (requests w)) + ndays
        /\ (exists rows, lookupFile fileA (files w') = Some (headerA :: rows))
        /\ (exists rows, lookupFile fileB (files w') = Some (headerB :: rows))
        /\ List.last (console w') MsgUsage = MsgDone).
Proof.
  intros Hmax H. unfold main in H.
  destruct arg as [ndays|].
  - destruct (Z.leb_spec ndays 0) as [Hle|Hpos].
    + cbn in H. injection H as <- <-. cbn [requests files print].
      split; [now right|]. split; [lia|]. split; [now left|]. discriminate.
    + unfold bind in H. rewrite appEntry_fresh in H.
      apply exec_exit in H; [|cbn [daysLeft newMainObj]; lia].
      destruct H as (Hc & Hr & Hf & H0).
      cbn [files requests request print daysLeft newMainObj] in *.
      rewrite length_app in Hr, H0. cbn [List.length] in *.
      split; [exact Hc|]. split; [lia|]. split; [exact Hf|].
      intros Hz. destruct (H0 Hz) as (H1 & H2 & H3 & H4).
      exists ndays. repeat split; auto; lia.
  - cbn in H. injection H as <- <-. cbn [requests files print].
    split; [now right|]. split; [lia|]. split; [now left|]. discriminate.
Qed.

(** X14. The members the constructor leaves uninitialised are never
    read: a run does not depend on what [daysLeft] and [nDupeTimes] hold
    when the object is built. *)
Theorem uninitialised_members_are_never_read
    (arg : option Z) (junk1 junk2 junk1' junk2' now : Z) script w :
  main arg junk1 junk2 now script w = main arg junk1' junk2' now script w.
Proof.
  unfold main. destruct arg as [ndays|]; [|reflexivity].
  destruct (ndays <=? 0); [reflexivity|].
  unfold bind. now rewrite !appEntry_fresh.
Qed.

End Runs.

(* ================================================================== *)
(** * Runs over well-formed pages *)

Section GoodRuns.
Context {D : Type} {DO : DoubleOps D} {PF : Platform}.
Implicit Types (o : MainObj) (w : World D) (script : list (Reply * Z)).

Lemma indexed_same_maps o o3 :
  blocks o3 = blocks o -> blocksByTime o3 = blocksByTime o ->
  blocksByTimeMulti o3 = blocksByTimeMulti o ->
  indexed o -> indexed o3.
Proof. unfold indexed. intros -> -> ->. exact (fun H => H). Qed.

Lemma indexed_fresh (ndays a b : Z) : indexed (newMainObj ndays a b).
Proof.
  unfold indexed, timeIndexed, heightIndexed, multiIndexed, newMainObj.
  cbn. repeat split; constructor.
Qed.

Lemma goodReply_inv (r : Reply) :
  goodReply r = true ->
  exists v vl, r = Finished (Doc (DocObject (Some (v :: vl))))
               /\ forallb parses (v :: vl) = true
               /\ forallb timeInRange (v :: vl) = true.
Proof.
  destruct r as [|[|[|[[|v vl]|]]]]; try discriminate.
  intros H. cbn [goodReply wellFormedPage] in H. apply andb_prop in H.
  exists v, vl. split; [reflexivity|exact H].
Qed.

(** A well-formed page in range: [finished] goes on, and the indexes stay
    ordered. *)
Lemma finished_good (r : Reply) (now : Z) o w :
  goodReply r = true -> indexed o -> 1 <= daysLeft o <= INT_MAX ->
  exists o1 w1,
    indexed o1 /\ sameIO w w1 /\ NDAYS o1 = NDAYS o
    /\ daysLeft o1 = daysLeft o - 1
    /\ onReply r now o w =
         if 0 <? daysLeft o - 1 then getNext now o1 w1
         else printStatsAndExit o1 w1.
Proof.
  intros Hg Hi Hd. apply goodReply_inv in Hg.
  destruct Hg as (v & vl & -> & Hp & Hr).
  cbn [onReply]. rewrite finished_steps.
  pose proof (forM_parses (v :: vl) o w) as Hret. rewrite Hp in Hret.
  destruct Hret as (o' & w' & E).
  change (processResults (DocObject (Some (v :: vl))) o w)
    with (forM processElement (v :: vl) o w).
  pose proof (forM_processElement_frame (v :: vl) o w) as Hf.
  rewrite E in *. destruct Hf as (Hio & Hn & Hl).
  rewrite Hl. rewrite int32_id by (unfold in_int32, INT_MIN, INT_MAX in *; lia).
  exists (set_daysLeft (daysLeft o - 1) o'), w'.
  split; [apply (forM_indexed (v :: vl) o w o' w' E Hr Hi)|].
  split; [exact Hio|]. split; [exact Hn|]. split; [reflexivity|].
  now destruct (0 <? daysLeft o - 1).
Qed.

Lemma exec_good script : forall (n : nat) o w,
  daysLeft o = Z.of_nat n -> (1 <= n)%nat -> Z.of_nat n <= INT_MAX ->
  (n <= List.length script)%nat ->
  forallb goodReply (map fst (firstn n script)) = true ->
  indexed o ->
  writable w fileA = true -> writable w fileB = true ->
  exists w',
    exec script o w = Exit 0 w'
    /\ Z.of_nat (List.length (requests w'))
       = Z.of_nat (List.length (requests w)) + Z.of_nat n - 1
    /\ (exists rowsA rowsB,
          lookupFile fileA (files w') = Some (headerA :: rowsA)
          /\ lookupFile fileB (files w') = Some (headerB :: rowsB)
          /\ List.length rowsA = List.length rowsB)
    /\ List.last (console w') MsgUsage = MsgDone.
Proof.
  induction script as [|[r now] script IH]; intros n o w Hl Hn Hmax Hlen Hg Hi HA HB.
  - cbn [List.length] in Hlen. lia.
  - destruct n as [|n]; [lia|]. cbn [firstn map fst forallb] in Hg.
    apply andb_prop in Hg. destruct Hg as [Hr Hg].
    destruct (finished_good r now o w Hr Hi) as (o1 & w1 & Hi1 & (F & R & W) & _ & Hl1 & E).
    { lia. }
    cbn [exec]. unfold bind. rewrite E.
    destruct (Z.ltb_spec 0 (daysLeft o - 1)) as [Hpos|Hle].
    + destruct (getNext_ret now o1 w1)
        as (o3 & w3 & ts & E3 & Hb & Ht & Hm & _ & Hl3 & _ & F3 & W3 & R3 & _).
      rewrite E3.
      destruct (IH n o3 w3) as (w' & Ex & Hreq & Hfiles & Hlast).
      * lia.
      * lia.
      * lia.
      * cbn [List.length] in Hlen. lia.
      * exact Hg.
      * now apply (indexed_same_maps o1).
      * congruence.
      * congruence.
      * exists w'. split; [exact Ex|].
        rewrite R3, length_app, R in Hreq. cbn [List.length] in Hreq.
        split; [lia|]. split; assumption.
    + assert (n = 0%nat) by lia. subst n.
      destruct (printStatsAndExit_success o1 w1 Hi1) as (s & w' & Ex & Hc & Hreq & HfA & HfB).
      { congruence. }
      { congruence. }
      exists w'. split; [now rewrite Ex|]. rewrite Hreq, R. split; [lia|].
      split.
      * do 2 eexists. split; [exact HfA|]. split; [exact HfB|].
        now rewrite !length_map.
      * rewrite Hc.
        change [MsgSaved fileA fileB; MsgDone]
          with ([MsgSaved fileA fileB] ++ [@MsgDone D]).
        rewrite !app_assoc. apply last_last.
Qed.

(** X15. A run over well-formed pages succeeds.  When the first [ndays]
    replies each carry a well-formed page whose main-chain timestamps are
    [qint64] values and both CSV files can be opened, the run exits with
    status 0 after exactly [ndays] requests, having written both files
    with as many rows in the one as in the other, and "Done" is the last
    line printed. *)
Theorem well_formed_run_succeeds (ndays junk1 junk2 now : Z) script w :
  0 < ndays <= INT_MAX ->
  (Z.to_nat ndays <= List.length script)%nat ->
  forallb goodReply (map fst (firstn (Z.to_nat ndays) script)) = true ->
  writable w fileA = true -> writable w fileB = true ->
  exists w',
    main (Some ndays) junk1 junk2 now script w = Exit 0 w'
    /\ Z.of_nat (List.length (requests w'))
       = Z.of_nat (List.length (requests w)) + ndays
    /\ (exists rowsA rowsB,
          lookupFile fileA (files w') = Some (headerA :: rowsA)
          /\ lookupFile fileB (files w') = Some (headerB :: rowsB)
          /\ List.length rowsA = List.length rowsB)
    /\ List.last (console w') MsgUsage = MsgDone.
Proof.
  intros Hn Hlen Hg HA HB. unfold main.
  destruct (Z.leb_spec ndays 0) as [Hle|_]; [lia|].
  unfold bind. rewrite appEntry_fresh.
  destruct (exec_good script (Z.to_nat ndays) (newMainObj ndays ndays 0)
              (request now (print (MsgReceived 0 0) (print (MsgConnecting ndays) w))))
    as (w' & Ex & Hreq & Hfiles & Hlast); try assumption.
  - cbn [daysLeft newMainObj]. lia.
  - lia.
  - lia.
  - apply indexed_fresh.
  - exists w'. split; [exact Ex|].
    cbn [requests request print] in Hreq. rewrite length_app in Hreq.
    cbn [List.length] in Hreq. split; [lia|]. split; assumption.
Qed.

Lemma filteredReply_inv (r : Reply) :
  filteredReply r = true ->
  exists v vl, r = Finished (Doc (DocObject (Some (v :: vl))))
               /\ Forall filtered (v :: vl).
Proof.
  destruct r as [|[|[|[[|v vl]|]]]]; try discriminate.
  intros H. cbn [filteredReply] in H. exists v, vl. split; [reflexivity|].
  apply Forall_forall. intros x Hx.
  rewrite forallb_forall in H. specialize (H x Hx).
  destruct x as [|vm]; [discriminate|]. exists vm. split; [reflexivity|].
  now apply negb_true_iff in H.
Qed.

Lemma exec_filtered script : forall (n : nat) o w,
  daysLeft o = Z.of_nat n -> (1 <= n)%nat -> Z.of_nat n <= INT_MAX ->
  (n <= List.length script)%nat ->
  forallb filteredReply (map fst (firstn n script)) = true ->
  blocks o = [] -> blocksByTime o = [] -> blocksByTimeMulti o = [] ->
  nDupeTimes o = 0 ->
  writable w fileA = true -> writable w fileB = true ->
  exists w',
    exec script o w = Exit 0 w'
    /\ requests w' = requests w ++ map snd (firstn (n - 1) script)
    /\ lookupFile fileA (files w') = Some [headerA]
    /\ lookupFile fileB (files w') = Some [headerB]
    /\ In (MsgGot 0 (of_int 0)) (console w').
Proof.
  induction script as [|[r now] script IH];
    intros n o w Hl Hn Hmax Hlen Hg Hb Ht Hm Hc HA HB.
  - cbn [List.length] in Hlen. lia.
  - destruct n as [|n]; [lia|]. cbn [firstn map fst forallb] in Hg.
    apply andb_prop in Hg. destruct Hg as [Hr Hg].
    apply filteredReply_inv in Hr. destruct Hr as (v & vl & -> & Hf).
    cbn [exec onReply]. unfold bind. rewrite finished_steps.
    change (processResults (DocObject (Some (v :: vl))) o w)
      with (forM processElement (v :: vl) o w).
    rewrite (forM_filtered (v :: vl) o w Hf).
    rewrite int32_id by (unfold in_int32, INT_MIN, INT_MAX in *; lia).
    destruct (Z.ltb_spec 0 (daysLeft o - 1)) as [Hpos|Hle].
    + rewrite getNext_steps. cbv zeta. cbn [blocksByTime set_daysLeft].
      rewrite Ht. cbn [QMap.isEmpty].
      match goal with |- context [exec script ?o3 ?w3] =>
        destruct (IH n o3 w3) as (w' & Ex & Hreq & Hfiles)
      end; try assumption; try reflexivity.
      * cbn [daysLeft set_nDupeTimes set_daysLeft]. lia.
      * lia.
      * lia.
      * cbn [List.length] in Hlen. lia.
      * exists w'. split; [exact Ex|]. split; [|exact Hfiles].
        rewrite Hreq. cbn [requests request print].
        replace (S n - 1)%nat with n by lia.
        destruct n as [|n]; [lia|]. cbn [Nat.sub firstn map snd].
        rewrite Nat.sub_0_r, <- app_assoc. reflexivity.
    + assert (n = 0%nat) by lia. subst n.
      set (o1 := set_daysLeft (daysLeft o - 1) o).
      assert (Hi : indexed o1).
      { unfold indexed, timeIndexed, heightIndexed, multiIndexed. subst o1.
        cbn [blocks blocksByTime blocksByTimeMulti set_daysLeft].
        rewrite Hb, Ht, Hm. cbn. repeat split; constructor. }
      destruct (printStatsAndExit_success o1 w Hi HA HB)
        as (s & w' & Ex & Hcons & Hreq & HfA & HfB).
      exists w'. split; [subst o1; now rewrite Ex|]. cbn [Nat.sub firstn map].
      rewrite app_nil_r. split; [exact Hreq|].
      subst o1. cbn [blocks set_daysLeft] in HfA, HfB. rewrite Hb in HfA, HfB.
      split; [exact HfA|]. split; [exact HfB|].
      rewrite Hcons. apply in_or_app. right. apply in_or_app. left.
      unfold report, nBlocksOf, daysOf.
      cbn [blocksByTime nDupeTimes set_daysLeft]. rewrite Ht, Hc.
      left. reflexivity.
Qed.

(** X16. A run whose pages hold nothing of the main chain completes.
    When the first [ndays] replies each carry a non-empty page of
    elements with [main_chain == false] and both files can be opened, the
    run exits with status 0; every request is anchored at the clock value
    of its time, the statistics report 0 blocks over 0 days, and both
    files hold their header only. *)
Theorem all_filtered_run_completes (ndays junk1 junk2 now : Z) script w :
  0 < ndays <= INT_MAX ->
  (Z.to_nat ndays <= List.length script)%nat ->
  forallb filteredReply (map fst (firstn (Z.to_nat ndays) script)) = true ->
  writable w fileA = true -> writable w fileB = true ->
  exists w',
    main (Some ndays) junk1 junk2 now script w = Exit 0 w'
    /\ requests w'
       = requests w ++ now :: map snd (firstn (Z.to_nat ndays - 1) script)
    /\ lookupFile fileA (files w') = Some [headerA]
    /\ lookupFile fileB (files w') = Some [headerB]
    /\ In (MsgGot 0 (of_int 0)) (console w').
Proof.
  intros Hn Hlen Hg HA HB. unfold main.
  destruct (Z.leb_spec ndays 0) as [Hle|_]; [lia|].
  unfold bind. rewrite appEntry_fresh.
  destruct (exec_filtered script (Z.to_nat ndays) (newMainObj ndays ndays 0)
              (request now (print (MsgReceived 0 0) (print (MsgConnecting ndays) w))))
    as (w' & Ex & Hreq & Hfiles); try assumption; try reflexivity.
  - cbn [daysLeft newMainObj]. lia.
  - lia.
  - lia.
  - exists w'. split; [exact Ex|]. split; [|exact Hfiles].
    rewrite Hreq. cbn [requests request print]. now rewrite <- app_assoc.
Qed.

End GoodRuns.

(* ================================================================== *)
(** * The anchor over the pages *)

Section AnchorOrder.
Context {D : Type}.
Implicit Types (o : MainObj) (w : World D) (m : BlockTimeMap).
Import QMapFacts.

Lemma timeIndexed_insert (b : Block) m :
  timeIndexed m -> timeIndexed (QMap.insert (time b) b m).
Proof.
  intros [Hs Hk]. split; [now apply insert_sorted|now apply (insert_keyed time)].
Qed.

Lemma insert_nonempty {V : Type} (k : Z) (v : V) (m : QMap.t V) :
  QMap.insert k v m <> [].
Proof.
  destruct m as [|[k' v'] m]; cbn [QMap.insert]; [discriminate|].
  destruct (k <? k'); [discriminate|]. destruct (k =? k'); discriminate.
Qed.

(** Inserting a block can only lower the earliest timestamp. *)
Lemma earliest_insert (b : Block) m :
  timeIndexed m -> m <> [] ->
  earliest (QMap.insert (time b) b m) = Z.min (time b) (earliest m).
Proof.
  intros Hi Hne.
  rewrite <- (first_earliest _ (timeIndexed_insert b m Hi)).
  rewrite <- (first_earliest _ Hi).
  destruct m as [|[k0 b0] m]; [contradiction|].
  destruct Hi as [_ Hk]. inversion Hk as [|? ? Hk0 _]; subst.
  cbn [fst snd] in Hk0. cbn [QMap.insert].
  destruct (Z.ltb_spec (time b) k0) as [Hlt|Hge].
  - unfold QMap.first. cbn. lia.
  - destruct (Z.eqb_spec (time b) k0) as [He|Hn].
    + unfold QMap.first. cbn. lia.
    + unfold QMap.first. cbn. lia.
Qed.

Lemma forM_earliest (vl : list Element) : forall o w o' w',
  forM processElement vl o w = Ret o' w' ->
  timeIndexed (blocksByTime o) -> blocksByTime o <> [] ->
  timeIndexed (blocksByTime o') /\ blocksByTime o' <> []
  /\ earliest (blocksByTime o') <= earliest (blocksByTime o).
Proof.
  induction vl as [|v vl IH]; intros o w o' w' H Hi Hne.
  - cbn in H. injection H as <- _. split; [exact Hi|]. split; [exact Hne|]. lia.
  - destruct (processElement_cases o v w)
      as [(_ & _ & E)|[(vm & w1 & -> & _ & _ & E)|(_ & m & E)]].
    + rewrite (forM_cons_ret _ _ _ _ _ _ _ E) in H. eapply IH; eassumption.
    + rewrite (forM_cons_ret _ _ _ _ _ _ _ E) in H.
      apply IH in H.
      * destruct H as (Hi' & Hne' & Hle). split; [exact Hi'|]. split; [exact Hne'|].
        replace (blocksByTime (insertBlock (blockOf vm)
                   (if QMap.contains (time_val vm) (blocksByTime o)
                    then set_nDupeTimes (int32 (nDupeTimes o + 1)) o else o)))
          with (QMap.insert (time (blockOf vm)) (blockOf vm) (blocksByTime o)) in Hle
          by (destruct (QMap.contains (time_val vm) (blocksByTime o)); reflexivity).
        rewrite earliest_insert in Hle by assumption. lia.
      * destruct (QMap.contains (time_val vm) (blocksByTime o));
          now apply timeIndexed_insert.
      * destruct (QMap.contains (time_val vm) (blocksByTime o));
          apply insert_nonempty.
    + rewrite (forM_cons_exit _ _ _ _ _ _ _ E) in H. discriminate.
Qed.

(** X17. The anchor never moves forward.  Once the by-time index holds a
    block, the request made after a further page is anchored at or before
    the anchor the request would have had before that page; the anchors
    are assumed to fit in a [qint64]. *)
Theorem anchor_never_moves_forward (d : QJsonDocument) o w o' w'
    (now now' : Z) (wa wb : World D) :
  processResults d o w = Ret o' w' ->
  timeIndexed (blocksByTime o) -> blocksByTime o <> [] ->
  INT64_MIN + 86400000 <= earliest (blocksByTime o') * 1000 ->
  earliest (blocksByTime o) * 1000 <= INT64_MAX ->
  exists t t',
    getNext now o wa
      = Ret o (request t (print (MsgReceived (QMap.size (blocksByTime o))
                                   (int32 (daysLeft o - NDAYS o))) wa))
    /\ getNext now' o' wb
       = Ret o' (request t' (print (MsgReceived (QMap.size (blocksByTime o'))
                                      (int32 (daysLeft o' - NDAYS o'))) wb))
    /\ t = earliest (blocksByTime o) * 1000 - 86400000
    /\ t' = earliest (blocksByTime o') * 1000 - 86400000
    /\ t' <= t.
Proof.
  intros H Hi Hne Hlo Hhi.
  destruct d as [|[[|v vl]|]]; try discriminate.
  destruct (forM_earliest (v :: vl) o w o' w' H Hi Hne) as (Hi' & Hne' & Hle).
  assert (Hget : forall now0 o0 w0,
            timeIndexed (blocksByTime o0) -> blocksByTime o0 <> [] ->
            INT64_MIN + 86400000 <= earliest (blocksByTime o0) * 1000 <= INT64_MAX ->
            getNext now0 o0 w0
            = Ret o0 (request (earliest (blocksByTime o0) * 1000 - 86400000)
                        (print (MsgReceived (QMap.size (blocksByTime o0))
                                  (int32 (daysLeft o0 - NDAYS o0))) w0))).
  { intros now0 o0 w0 Hi0 Hne0 Hr0.
    unfold getNext, bind, Log, sendRequest, ret. cbv zeta.
    destruct (QMap.isEmpty (blocksByTime o0)) eqn:He; cbn [negb].
    { destruct (blocksByTime o0); [contradiction|discriminate]. }
    rewrite (first_earliest _ Hi0).
    rewrite (int64_id (earliest (blocksByTime o0) * 1000))
      by (unfold in_int64, INT64_MIN, INT64_MAX in *; lia).
    rewrite int64_id
      by (unfold in_int64, INT64_MIN, INT64_MAX, aday_ms in *; lia).
    reflexivity. }
  do 2 eexists.
  split; [apply Hget; auto; lia|]. split; [apply Hget; auto; lia|].
  split; [reflexivity|]. split; [reflexivity|]. lia.
Qed.

End AnchorOrder.

(* ================================================================== *)
(** * The text of a line and of a row *)

Section Text.
Import LogText.

Lemma substring_at_end (s t : string) :
  substring (String.length s) (String.length t) (s ++ t)%string = t.
Proof.
  induction s as [|c s IH]; cbn [String.length append].
  - induction t as [|c t IHt]; [reflexivity|].
    cbn [String.length substring]. now rewrite IHt.
  - cbn [substring]. exact IH.
Qed.

Lemma length_app_string (s t : string) :
  String.length (s ++ t)%string = (String.length s + String.length t)%nat.
Proof.
  induction s as [|c s IH]; cbn [String.length append]; [reflexivity|].
  now rewrite IH.
Qed.

Lemma endsWith_append (s t : string) : endsWith (s ++ t)%string t = true.
Proof.
  unfold endsWith. rewrite length_app_string.
  replace (String.length s + String.length t - String.length t)%nat
    with (String.length s) by lia.
  rewrite substring_at_end, String.eqb_refl, andb_true_r.
  apply Nat.leb_le. lia.
Qed.

(** X18. Every line of the log ends with a line feed, added only when
    the text does not end with one already; a null text prints nothing,
    and after printing the text is null, so that nothing is printed a
    second time. *)
Theorem finishPrt_prints_one_terminated_line (s : string) :
  exists out,
    finishPrt (Some s) = (Some out, None)
    /\ endsWith out nl = true
    /\ (endsWith s nl = true -> s <> EmptyString -> out = s)
    /\ (endsWith s nl = false -> out = (s ++ nl)%string)
    /\ finishPrt (snd (finishPrt (Some s))) = (None, None)
    /\ finishPrt None = (None, None).
Proof.
  eexists. split; [reflexivity|].
  destruct (String.eqb_spec s EmptyString) as [->|Hne].
  - cbn. repeat split; try reflexivity. intros _ H. now contradiction H.
  - cbn [orb]. destruct (endsWith s nl) eqn:E; cbn [negb].
    + repeat split; auto. discriminate.
    + split; [apply endsWith_append|]. repeat split; auto. discriminate.
Qed.

Lemma int32_high (x : Z) :
  INT_MAX < x <= 4294967295 -> int32 x = x - 4294967296.
Proof.
  unfold INT_MAX, int32, wrap. intros H.
  change (2 ^ (32 - 1)) with 2147483648. change (2 ^ 32) with 4294967296.
  change (2 ^ 31) with 2147483648 in H.
  replace (x + 2147483648) with ((x - 2147483648) + 1 * 4294967296) by lia.
  rewrite Z.mod_add by lia. rewrite Z.mod_small; lia.
Qed.

(** X19. The height of a row is written through [%d]: heights up to
    [INT_MAX] are written as they are, and the heights above, which an
    [unsigned] can hold, are written as the negative number 2^32 below
    them.  The time is written as it is. *)
Theorem row_height_is_read_as_int (b : Block) :
  0 <= height b <= 4294967295 ->
  in_int64 (time b) ->
  let h := if height b <=? INT_MAX then height b else height b - 4294967296 in
  rowA b = (show h ++ "," ++ show (time b) ++ "," ++ hash b ++ nl)%string
  /\ rowB b = (show (time b) ++ "," ++ show h ++ "," ++ hash b ++ nl)%string
  /\ (INT_MAX < height b -> h < 0).
Proof.
  intros Hh Ht. cbv zeta. unfold rowA, rowB, fmt_d, fmt_lld.
  rewrite (int64_id _ Ht).
  destruct (Z.leb_spec (height b) INT_MAX) as [Hle|Hgt].
  - rewrite int32_id by (unfold in_int32, INT_MIN, INT_MAX in *; lia).
    repeat split. lia.
  - rewrite int32_high by lia. repeat split. intros _. lia.
Qed.

End Text.

(* ================================================================== *)
(** * The cutoff sums against the gaps *)

(** C8, as stated, on three blocks in time order, the first one before
    the epoch.  The consecutive gaps are 1000 and 500, both above the
    cutoff: their overages add up to 600 and they are 2.  The loop does
    not compute the gap after the negative timestamp: it ends with the
    sum 50 and the count 1. *)
Lemma cutoff_skips_gap_after_negative_timestamp :
  let w0 := world0 float Sample.always in
  let ts := map time_val Sample.negativeStart in
  increasing ts
  /\ gaps ts = [1000; 500]
  /\ sumZ (map (fun d => d - 450) (filter (fun d => 450 <=? d) (gaps ts))) = 600
  /\ Z.of_nat (List.length (filter (fun d => 450 <=? d) (gaps ts))) = 2
  /\ exists o s,
       @processResults float (DocObject (Some (map Fields Sample.negativeStart)))
         Sample.fresh w0 = Ret o w0
       /\ map time (QMap.values (blocksByTime o)) = ts
       /\ @statsLoop float binary64 LP64 o w0 = Ret s w0
       /\ cutoffdeltasums s = 50
       /\ nsums s = 1
       /\ cutoffdeltasums s
          <> sumZ (map (fun d => d - 450) (filter (fun d => 450 <=? d) (gaps ts)))
       /\ nsums s <> Z.of_nat (List.length (filter (fun d => 450 <=? d) (gaps ts))).
Proof.
  cbv zeta. split; [cbn; sorted_list; lia|].
  split; [reflexivity|]. split; [reflexivity|]. split; [reflexivity|].
  do 2 eexists.
  split; [vm_compute; reflexivity|]. split; [reflexivity|].
  split; [vm_compute; reflexivity|].
  split; [reflexivity|]. split; [reflexivity|].
  split; vm_compute; discriminate.
Qed.

(* ================================================================== *)
(** * Instances of the theorems on sample inputs *)

Lemma all_filtered_page_is_skipped_witness :
  [Fields Sample.orphan; Fields Sample.orphan] <> []
  /\ Forall filtered [Fields Sample.orphan; Fields Sample.orphan]
  /\ processResults (DocObject (Some [Fields Sample.orphan; Fields Sample.orphan]))
       Sample.fresh (world0 float Sample.always)
     = Ret Sample.fresh (world0 float Sample.always).
Proof.
  assert (H1 : [Fields Sample.orphan; Fields Sample.orphan] <> []) by discriminate.
  assert (H2 : Forall filtered [Fields Sample.orphan; Fields Sample.orphan]).
  { repeat constructor; exists Sample.orphan; split; reflexivity. }
  split; [exact H1|]. split; [exact H2|].
  exact (proj1 (@all_filtered_page_is_skipped float binary64 LP64
                  Sample.fresh (world0 float Sample.always) _ H1 H2)).
Defined.

Lemma filter_precedes_parse_check_witness :
  main_chain Sample.orphan = false
  /\ ok1 Sample.orphan = false
  /\ ok2 Sample.orphan = false
  /\ processElement Sample.fresh (Fields Sample.orphan) (world0 float Sample.always)
     = Ret Sample.fresh (world0 float Sample.always).
Proof.
  split; [reflexivity|]. split; [reflexivity|]. split; [reflexivity|].
  exact (proj1 (@filter_precedes_parse_check float
                  Sample.fresh (world0 float Sample.always) Sample.orphan eq_refl)).
Defined.

Lemma duplicate_timestamp_pair_witness :
  accepted Sample.sameTime1 /\ accepted Sample.sameTime2
  /\ time_val Sample.sameTime1 = time_val Sample.sameTime2
  /\ (height_val Sample.sameTime1 <> height_val Sample.sameTime2
      \/ hash_val Sample.sameTime1 <> hash_val Sample.sameTime2)
  /\ QMap.contains (time_val Sample.sameTime1) (blocksByTime Sample.fresh) = false
  /\ 0 <= nDupeTimes Sample.fresh
  /\ QMap.size (blocksByTime Sample.fresh) + nDupeTimes Sample.fresh + 2 <= INT_MAX
  /\ exists o' w',
       processResults
         (DocObject (Some ([Fields Sample.orphan] ++ Fields Sample.sameTime1
                           :: [] ++ Fields Sample.sameTime2 :: [Fields Sample.orphan])))
         Sample.fresh (world0 float Sample.always) = Ret o' w'
       /\ QMap.values (blocksByTime o') = [blockOf Sample.sameTime2]
       /\ nDupeTimes o' = 1
       /\ nBlocksOf o' = 2.
Proof.
  assert (A1 : accepted Sample.sameTime1) by (repeat split).
  assert (A2 : accepted Sample.sameTime2) by (repeat split).
  assert (Hd : height_val Sample.sameTime1 <> height_val Sample.sameTime2
               \/ hash_val Sample.sameTime1 <> hash_val Sample.sameTime2)
    by (left; discriminate).
  assert (Hn : 0 <= nDupeTimes Sample.fresh) by (simpl; lia).
  assert (Hm : QMap.size (blocksByTime Sample.fresh) + nDupeTimes Sample.fresh + 2
               <= INT_MAX) by (vm_compute; discriminate).
  repeat (split; [assumption || reflexivity|]).
  assert (S1 : Forall filtered [Fields Sample.orphan]).
  { repeat constructor. exists Sample.orphan. split; reflexivity. }
  destruct (@duplicate_timestamp_pair float Sample.fresh (world0 float Sample.always)
              Sample.sameTime1 Sample.sameTime2 _ [] _ A1 A2 S1 (Forall_nil _) S1
              eq_refl Hd eq_refl Hn Hm)
    as (o' & w' & out & Hrun & Hidx & _ & _ & _ & _ & Hcnt & _ & Htot).
  exists o', w'. split; [exact Hrun|]. split; [now rewrite Hidx|].
  split; [exact Hcnt|exact Htot].
Defined.

Lemma duplicate_height_pair_witness :
  accepted Sample.sameHeight1 /\ accepted Sample.sameHeight2
  /\ height_val Sample.sameHeight1 = height_val Sample.sameHeight2
  /\ (hash_val Sample.sameHeight1 <> hash_val Sample.sameHeight2
      \/ time_val Sample.sameHeight1 <> time_val Sample.sameHeight2)
  /\ QMap.contains (height_val Sample.sameHeight1) (blocks Sample.fresh) = false
  /\ exists o' w' out,
       processResults
         (DocObject (Some ([] ++ Fields Sample.sameHeight1
                           :: [Fields Sample.orphan] ++ Fields Sample.sameHeight2 :: [])))
         Sample.fresh (world0 float Sample.always) = Ret o' w'
       /\ QMap.values (blocks o') = [blockOf Sample.sameHeight2]
       /\ console w' = console (world0 float Sample.always) ++ out
       /\ filter isDupeBlock out =
            [MsgDupeBlock 478000 1500000600 "00c3" 1500000000 "00a1"].
Proof.
  assert (A1 : accepted Sample.sameHeight1) by (repeat split).
  assert (A2 : accepted Sample.sameHeight2) by (repeat split).
  assert (Hd : hash_val Sample.sameHeight1 <> hash_val Sample.sameHeight2
               \/ time_val Sample.sameHeight1 <> time_val Sample.sameHeight2)
    by (right; discriminate).
  repeat (split; [assumption || reflexivity|]).
  assert (S1 : Forall filtered [Fields Sample.orphan]).
  { repeat constructor. exists Sample.orphan. split; reflexivity. }
  destruct (@duplicate_height_pair float Sample.fresh (world0 float Sample.always)
              Sample.sameHeight1 Sample.sameHeight2 [] _ [] A1 A2 (Forall_nil _) S1
              (Forall_nil _) eq_refl Hd eq_refl)
    as (o' & w' & out & Hrun & Hidx & _ & _ & Hcons & Hmsg & _).
  exists o', w', out. split; [exact Hrun|]. split; [now rewrite Hidx|].
  split; [exact Hcons|exact Hmsg].
Defined.

Lemma next_request_anchor_witness :
  timeIndexed (blocksByTime (Sample.twoBlocks 0))
  /\ INT64_MIN + 86400000 <= earliest (blocksByTime (Sample.twoBlocks 0)) * 1000 <= INT64_MAX
  /\ exists w',
       @getNext float 1500003000000 (Sample.twoBlocks 0) (world0 float Sample.always)
         = Ret (Sample.twoBlocks 0) w'
       /\ requests w' = [1499913600000].
Proof.
  assert (H1 : timeIndexed (blocksByTime (Sample.twoBlocks 0))).
  { split; cbn; sorted_list; reflexivity. }
  assert (H2 : INT64_MIN + 86400000
               <= earliest (blocksByTime (Sample.twoBlocks 0)) * 1000 <= INT64_MAX).
  { vm_compute. split; discriminate. }
  split; [exact H1|]. split; [exact H2|].
  eexists. split.
  - exact (proj1 (@next_request_anchor float 1500003000000 (Sample.twoBlocks 0)
                    (world0 float Sample.always) H1 H2)).
  - reflexivity.
Defined.

Lemma negative_delta_aborts_witness :
  QMap.values (blocksByTime Sample.disordered) = [] ++ Sample.blockB :: Sample.blockA :: []
  /\ -1 < time Sample.blockB
  /\ int64 (time Sample.blockA - time Sample.blockB) < 0
  /\ exists w',
       @printStatsAndExit float binary64 LP64 MainObj Sample.disordered
         (world0 float Sample.always) = Exit 1 w'
       /\ files w' = [].
Proof.
  assert (H1 : -1 < time Sample.blockB) by (simpl; lia).
  assert (H2 : int64 (time Sample.blockA - time Sample.blockB) < 0)
    by (vm_compute; reflexivity).
  split; [reflexivity|]. split; [exact H1|]. split; [exact H2|].
  destruct (@negative_delta_aborts float binary64 LP64 Sample.disordered
              (world0 float Sample.always) [] [] Sample.blockB Sample.blockA
              eq_refl H1 H2)
    as (h & d & w' & Hd & Hexit & _ & Hfiles).
  exists w'. split; [exact Hexit|exact Hfiles].
Defined.

Lemma cutoff_statistic_witness :
  ascending (map time (QMap.values (blocksByTime (Sample.twoBlocks 0))))
  /\ exists s,
       @statsLoop float binary64 LP64 (Sample.twoBlocks 0) (world0 float Sample.always)
         = Ret s (world0 float Sample.always)
       /\ cutoffdeltasums s = 150
       /\ nsums s = 1.
Proof.
  assert (H1 : ascending (map time (QMap.values (blocksByTime (Sample.twoBlocks 0)))))
    by (split; cbn; sorted_list).
  split; [exact H1|].
  destruct (@cutoff_statistic float binary64 LP64 (Sample.twoBlocks 0)
              (world0 float Sample.always) H1)
    as (s & c & w' & rest & Hloop & _ & Hsum & Hcount & _).
  exists s. split; [exact Hloop|]. split; [exact Hsum|exact Hcount].
Defined.

Lemma min_delta_sentinel_witness :
  ascending (map time (QMap.values (blocksByTime (Sample.twoBlocks 1))))
  /\ nDupeTimes (Sample.twoBlocks 1) <> 0
  /\ (exists s,
        @statsLoop float binary64 LP64 (Sample.twoBlocks 1) (world0 float Sample.always)
          = Ret s (world0 float Sample.always)
        /\ min s = 0)
  /\ ascending (map time (QMap.values (blocksByTime Sample.oneBlock)))
  /\ nDupeTimes Sample.oneBlock = 0
  /\ (exists s,
        @statsLoop float binary64 LP64 Sample.oneBlock (world0 float Sample.always)
          = Ret s (world0 float Sample.always)
        /\ min s = 9223372036854775807).
Proof.
  assert (H1 : ascending (map time (QMap.values (blocksByTime (Sample.twoBlocks 1)))))
    by (split; cbn; sorted_list).
  assert (H2 : nDupeTimes (Sample.twoBlocks 1) <> 0) by discriminate.
  assert (H3 : ascending (map time (QMap.values (blocksByTime Sample.oneBlock))))
    by (split; cbn; sorted_list).
  split; [exact H1|]. split; [exact H2|]. split; [|split; [exact H3|split; [reflexivity|]]].
  - destruct (@min_delta_sentinel float binary64 LP64 (Sample.twoBlocks 1)
                (world0 float Sample.always) H1)
      as (s & c & w' & rest & Hloop & Hdup & _).
    exists s. split; [exact Hloop|]. exact (proj2 (Hdup H2)).
  - destruct (@min_delta_sentinel float binary64 LP64 Sample.oneBlock
                (world0 float Sample.always) H3)
      as (s & c & w' & rest & Hloop & _ & Hnone & _).
    exists s. split; [exact Hloop|].
    exact (proj2 (Hnone eq_refl (Forall_nil _))).
Defined.

Lemma increasing_blocks_average_witness :
  Sample.tenMinutes <> []
  /\ Forall accepted Sample.tenMinutes
  /\ increasing (map time_val Sample.tenMinutes)
  /\ NoDup (map height_val Sample.tenMinutes)
  /\ Forall (fun t => 0 <= t <= INT64_MAX) (map time_val Sample.tenMinutes)
  /\ Z.of_nat (List.length Sample.tenMinutes) <= INT_MAX
  /\ exists o' s,
       processResults (DocObject (Some (map Fields Sample.tenMinutes)))
         Sample.fresh (world0 float Sample.always) = Ret o' (world0 float Sample.always)
       /\ nBlocksOf o' = 2
       /\ @statsLoop float binary64 LP64 o' (world0 float Sample.always)
          = Ret s (world0 float Sample.always)
       /\ avg s = PrimFloat.add (Z2F 0) (PrimFloat.div (Z2F 600) (Z2F 2)).
Proof.
  assert (H1 : Sample.tenMinutes <> []) by discriminate.
  assert (H2 : Forall accepted Sample.tenMinutes) by (repeat constructor).
  assert (H3 : increasing (map time_val Sample.tenMinutes)) by (cbn; sorted_list; lia).
  assert (H4 : NoDup (map height_val Sample.tenMinutes)).
  { cbn. repeat constructor; cbn; intuition discriminate. }
  assert (H5 : Forall (fun t => 0 <= t <= INT64_MAX) (map time_val Sample.tenMinutes)).
  { cbn. repeat constructor; vm_compute; discriminate. }
  assert (H6 : Z.of_nat (List.length Sample.tenMinutes) <= INT_MAX)
    by (vm_compute; discriminate).
  repeat (split; [assumption|]).
  destruct (@increasing_blocks_average float binary64 LP64 Sample.fresh
              (world0 float Sample.always) Sample.tenMinutes
              H1 H2 H3 H4 H5 H6 eq_refl eq_refl eq_refl)
    as (o' & s & Hrun & _ & _ & _ & Hn & Hloop & Havg).
  exists o', s. split; [exact Hrun|]. split; [exact Hn|]. split; [exact Hloop|].
  rewrite Havg, Hn. reflexivity.
Defined.

Lemma indexed_twoBlocks (dupes : Z) : indexed (Sample.twoBlocks dupes).
Proof.
  unfold indexed, timeIndexed, heightIndexed, multiIndexed.
  repeat split; cbn; sorted_list; try reflexivity; lia.
Qed.

Lemma page_last_write_wins_witness :
  exists o' w',
    processResults (DocObject (Some [Fields Sample.sameHeight1; Fields Sample.sameHeight2]))
      Sample.fresh (world0 float Sample.always) = Ret o' w'
    /\ QMap.find 478000 (blocks o') = Some (blockOf Sample.sameHeight2).
Proof.
  do 2 eexists. split; [reflexivity|].
  exact (proj1 (@page_last_write_wins float
                  [Fields Sample.sameHeight1; Fields Sample.sameHeight2]
                  Sample.fresh (world0 float Sample.always) _ _ 478000 eq_refl)).
Defined.

Lemma page_removes_no_entry_witness :
  exists o' w',
    processResults (DocObject (Some Sample.earlierPage))
      (Sample.twoBlocks 0) (world0 float Sample.always) = Ret o' w'
    /\ QMap.contains 478001 (blocks (Sample.twoBlocks 0)) = true
    /\ QMap.contains 478001 (blocks o') = true.
Proof.
  do 2 eexists. split; [reflexivity|]. split; [reflexivity|].
  exact (proj1 (@page_removes_no_entry float (DocObject (Some Sample.earlierPage))
                  (Sample.twoBlocks 0) (world0 float Sample.always) _ _ 478001 eq_refl)
               eq_refl).
Defined.

Lemma page_split_witness :
  [Fields Sample.sameTime1] <> [] /\ [Fields Sample.sameTime2] <> []
  /\ processResults (DocObject (Some ([Fields Sample.sameTime1] ++ [Fields Sample.sameTime2])))
       Sample.fresh (world0 float Sample.always)
     = bind (processResults (DocObject (Some [Fields Sample.sameTime1])) Sample.fresh)
            (processResults (DocObject (Some [Fields Sample.sameTime2])))
            (world0 float Sample.always).
Proof.
  assert (H1 : [Fields Sample.sameTime1] <> []) by discriminate.
  assert (H2 : [Fields Sample.sameTime2] <> []) by discriminate.
  split; [exact H1|]. split; [exact H2|].
  exact (@page_split float _ _ Sample.fresh (world0 float Sample.always) H1 H2).
Defined.

Lemma page_keeps_indexes_ordered_witness :
  exists o' w',
    processResults (DocObject (Some Sample.earlierPage))
      (Sample.twoBlocks 0) (world0 float Sample.always) = Ret o' w'
    /\ forallb timeInRange Sample.earlierPage = true
    /\ indexed (Sample.twoBlocks 0)
    /\ timeIndexed (blocksByTime o').
Proof.
  do 2 eexists. split; [reflexivity|]. split; [reflexivity|].
  split; [apply indexed_twoBlocks|].
  exact (proj1 (@page_keeps_indexes_ordered float Sample.earlierPage
                  (Sample.twoBlocks 0) (world0 float Sample.always) _ _
                  eq_refl eq_refl (indexed_twoBlocks 0))).
Defined.

Lemma statistics_never_abort_on_built_index_witness :
  indexed (Sample.twoBlocks 0)
  /\ exists s,
       @statsLoop float binary64 LP64 (Sample.twoBlocks 0) (world0 float Sample.always)
         = Ret s (world0 float Sample.always)
       /\ max s = 600.
Proof.
  split; [apply indexed_twoBlocks|].
  destruct (@statistics_never_abort_on_built_index float binary64 LP64
              (Sample.twoBlocks 0) (world0 float Sample.always) (indexed_twoBlocks 0))
    as (s & Hloop & _ & Hmax & _).
  exists s. split; [exact Hloop|exact Hmax].
Defined.

Lemma page_total_count_witness :
  exists o' w',
    processResults (DocObject (Some Sample.mixedPage))
      Sample.fresh (world0 float Sample.always) = Ret o' w'
    /\ StronglySorted Z.lt (QMap.keys (blocksByTime Sample.fresh))
    /\ 0 <= nDupeTimes Sample.fresh
    /\ nDupeTimes Sample.fresh + Z.of_nat (List.length Sample.mixedPage) <= INT_MAX
    /\ QMap.size (blocksByTime o') + nDupeTimes o' = 2.
Proof.
  assert (H1 : StronglySorted Z.lt (QMap.keys (blocksByTime Sample.fresh)))
    by constructor.
  assert (H2 : 0 <= nDupeTimes Sample.fresh) by (cbn; lia).
  assert (H3 : nDupeTimes Sample.fresh + Z.of_nat (List.length Sample.mixedPage)
               <= INT_MAX) by (vm_compute; discriminate).
  do 2 eexists. split; [reflexivity|].
  split; [exact H1|]. split; [exact H2|]. split; [exact H3|].
  exact (@page_total_count float Sample.mixedPage Sample.fresh
           (world0 float Sample.always) _ _ eq_refl H1 H2 H3).
Defined.

Lemma multi_index_keeps_every_block_witness :
  exists o' w',
    processResults (DocObject (Some [Fields Sample.sameTime1; Fields Sample.sameTime2]))
      Sample.fresh (world0 float Sample.always) = Ret o' w'
    /\ StronglySorted Z.lt (QMap.keys (blocksByTime Sample.fresh))
    /\ 0 <= nDupeTimes Sample.fresh
    /\ nDupeTimes Sample.fresh + 2 <= INT_MAX
    /\ QMap.size (blocksByTimeMulti o') = 2
    /\ QMap.size (blocksByTime o') = 1.
Proof.
  assert (H1 : StronglySorted Z.lt (QMap.keys (blocksByTime Sample.fresh)))
    by constructor.
  assert (H2 : 0 <= nDupeTimes Sample.fresh) by (cbn; lia).
  assert (H3 : nDupeTimes Sample.fresh + 2 <= INT_MAX) by (vm_compute; discriminate).
  do 2 eexists. split; [reflexivity|].
  split; [exact H1|]. split; [exact H2|]. split; [exact H3|].
  split; [|reflexivity].
  exact (proj1 (@multi_index_keeps_every_block float
                  [Fields Sample.sameTime1; Fields Sample.sameTime2] Sample.fresh
                  (world0 float Sample.always) _ _ eq_refl H1 H2 H3)).
Defined.

Lemma saveCsv_open_failure_witness :
  (writable (world0 float Sample.onlyA) fileA = false
   \/ writable (world0 float Sample.onlyA) fileB = false)
  /\ exists w',
       saveCsv (Sample.twoBlocks 0) (world0 float Sample.onlyA) = Exit 1 w'
       /\ lookupFile fileA (files w')
          = Some [headerA; rowA Sample.blockA; rowA Sample.blockB]
       /\ lookupFile fileB (files w') = None.
Proof.
  assert (H : writable (world0 float Sample.onlyA) fileA = false
              \/ writable (world0 float Sample.onlyA) fileB = false)
    by (right; reflexivity).
  split; [exact H|].
  destruct (@saveCsv_open_failure float (Sample.twoBlocks 0)
              (world0 float Sample.onlyA) H) as (w' & Hexit & _ & _ & HA).
  destruct (HA eq_refl) as (HfA & HfB & _).
  exists w'. split; [exact Hexit|]. split; [exact HfA|exact HfB].
Defined.

Lemma saveCsv_success_witness :
  writable (world0 float Sample.always) fileA = true
  /\ writable (world0 float Sample.always) fileB = true
  /\ exists w',
       saveCsv (Sample.twoBlocks 0) (world0 float Sample.always) = Ret tt w'
       /\ lookupFile fileA (files w')
          = Some [headerA; rowA Sample.blockA; rowA Sample.blockB].
Proof.
  split; [reflexivity|]. split; [reflexivity|].
  destruct (@saveCsv_success float (Sample.twoBlocks 0)
              (world0 float Sample.always) eq_refl eq_refl) as (w' & Hret & HfA & _).
  exists w'. split; [exact Hret|exact HfA].
Defined.

Lemma min_max_are_extreme_gaps_witness :
  ascending (map time (QMap.values (blocksByTime (Sample.twoBlocks 0))))
  /\ Forall (fun t => 0 <= t) (map time (QMap.values (blocksByTime (Sample.twoBlocks 0))))
  /\ (2 <= List.length (map time (QMap.values (blocksByTime (Sample.twoBlocks 0)))))%nat
  /\ exists s,
       @statsLoop float binary64 LP64 (Sample.twoBlocks 0) (world0 float Sample.always)
         = Ret s (world0 float Sample.always)
       /\ In (max s) [600].
Proof.
  assert (H1 : ascending (map time (QMap.values (blocksByTime (Sample.twoBlocks 0)))))
    by (split; cbn; sorted_list).
  assert (H2 : Forall (fun t => 0 <= t)
                 (map time (QMap.values (blocksByTime (Sample.twoBlocks 0)))))
    by (cbn; sorted_list; lia).
  assert (H3 : (2 <= List.length
                  (map time (QMap.values (blocksByTime (Sample.twoBlocks 0)))))%nat)
    by (cbn; lia).
  split; [exact H1|]. split; [exact H2|]. split; [exact H3|].
  destruct (@min_max_are_extreme_gaps float binary64 LP64 (Sample.twoBlocks 0)
              (world0 float Sample.always) H1 H2 H3) as (s & Hloop & Hmax & _).
  exists s. split; [exact Hloop|exact Hmax].
Defined.

Lemma pending_run_has_one_request_outstanding_witness :
  3 <= INT_MAX
  /\ exists o' w',
       @main float binary64 LP64 (Some 3) 0 0 1500002000000 Sample.twoDays
         (world0 float Sample.always) = Ret o' w'
       /\ files w' = []
       /\ Z.of_nat (List.length (requests w')) = 3
       /\ daysLeft o' = 1.
Proof.
  assert (H : 3 <= INT_MAX) by (vm_compute; discriminate).
  split; [exact H|]. do 2 eexists. split; [reflexivity|].
  destruct (@pending_run_has_one_request_outstanding float binary64 LP64
              3 0 0 1500002000000 Sample.twoDays (world0 float Sample.always)
              _ _ H eq_refl) as (Hf & Hr & Hd & _).
  split; [exact Hf|]. split; [exact Hr|exact Hd].
Defined.

Lemma run_exit_summary_witness :
  2 <= INT_MAX
  /\ exists c w',
       @main float binary64 LP64 (Some 2) 0 0 1500002000000
         [(NetworkError 3, 0)] (world0 float Sample.always) = Exit c w'
       /\ (c = 0 \/ c = 1)
       /\ Z.of_nat (List.length (requests w')) <= 2.
Proof.
  assert (H : 2 <= INT_MAX) by (vm_compute; discriminate).
  split; [exact H|]. do 2 eexists. split; [reflexivity|].
  destruct (@run_exit_summary float binary64 LP64 (Some 2) 0 0 1500002000000
              [(NetworkError 3, 0)] (world0 float Sample.always) _ _ H eq_refl)
    as (Hc & Hr & _).
  split; [exact Hc|exact Hr].
Defined.

Lemma well_formed_run_succeeds_witness :
  0 < 2 <= INT_MAX
  /\ (Z.to_nat 2 <= List.length Sample.twoDays)%nat
  /\ forallb goodReply (map fst (firstn (Z.to_nat 2) Sample.twoDays)) = true
  /\ exists w',
       @main float binary64 LP64 (Some 2) 0 0 1500002000000 Sample.twoDays
         (world0 float Sample.always) = Exit 0 w'
       /\ Z.of_nat (List.length (requests w')) = 2.
Proof.
  assert (H1 : 0 < 2 <= INT_MAX) by (split; [lia|vm_compute; discriminate]).
  assert (H2 : (Z.to_nat 2 <= List.length Sample.twoDays)%nat) by (cbn; lia).
  split; [exact H1|]. split; [exact H2|]. split; [reflexivity|].
  destruct (@well_formed_run_succeeds float binary64 LP64 2 0 0 1500002000000
              Sample.twoDays (world0 float Sample.always) H1 H2 eq_refl eq_refl eq_refl)
    as (w' & Hexit & Hreq & _).
  exists w'. split; [exact Hexit|exact Hreq].
Defined.

Lemma all_filtered_run_completes_witness :
  0 < 2 <= INT_MAX
  /\ (Z.to_nat 2 <= List.length Sample.twoEmptyDays)%nat
  /\ forallb filteredReply (map fst (firstn (Z.to_nat 2) Sample.twoEmptyDays)) = true
  /\ exists w',
       @main float binary64 LP64 (Some 2) 0 0 1500002000000 Sample.twoEmptyDays
         (world0 float Sample.always) = Exit 0 w'
       /\ requests w' = [1500002000000; 1500003000000]
       /\ lookupFile fileB (files w') = Some [headerB].
Proof.
  assert (H1 : 0 < 2 <= INT_MAX) by (split; [lia|vm_compute; discriminate]).
  assert (H2 : (Z.to_nat 2 <= List.length Sample.twoEmptyDays)%nat) by (cbn; lia).
  split; [exact H1|]. split; [exact H2|]. split; [reflexivity|].
  destruct (@all_filtered_run_completes float binary64 LP64 2 0 0 1500002000000
              Sample.twoEmptyDays (world0 float Sample.always)
              H1 H2 eq_refl eq_refl eq_refl)
    as (w' & Hexit & Hreq & _ & HfB & _).
  exists w'. split; [exact Hexit|]. split; [exact Hreq|exact HfB].
Defined.

Lemma anchor_never_moves_forward_witness :
  exists o' w',
    processResults (DocObject (Some Sample.earlierPage))
      (Sample.twoBlocks 0) (world0 float Sample.always) = Ret o' w'
    /\ timeIndexed (blocksByTime (Sample.twoBlocks 0))
    /\ blocksByTime (Sample.twoBlocks 0) <> []
    /\ INT64_MIN + 86400000 <= earliest (blocksByTime o') * 1000
    /\ earliest (blocksByTime (Sample.twoBlocks 0)) * 1000 <= INT64_MAX
    /\ exists t t',
         t = 1499913600000 /\ t' = 1499827200000 /\ t' <= t.
Proof.
  assert (H1 : timeIndexed (blocksByTime (Sample.twoBlocks 0)))
    by apply (indexed_twoBlocks 0).
  assert (H2 : blocksByTime (Sample.twoBlocks 0) <> []) by discriminate.
  do 2 eexists. split; [reflexivity|]. split; [exact H1|]. split; [exact H2|].
  assert (H3 : INT64_MIN + 86400000 <= 1499913600 * 1000) by (vm_compute; discriminate).
  assert (H4 : 1500000000 * 1000 <= INT64_MAX) by (vm_compute; discriminate).
  split; [exact H3|]. split; [exact H4|].
  destruct (@anchor_never_moves_forward float (DocObject (Some Sample.earlierPage))
              (Sample.twoBlocks 0) (world0 float Sample.always) _ _ 0 0
              (world0 float Sample.always) (world0 float Sample.always)
              eq_refl H1 H2 H3 H4) as (t & t' & _ & _ & Ht & Ht' & Hle).
  exists t, t'. split; [exact Ht|]. split; [exact Ht'|exact Hle].
Defined.

Lemma row_height_is_read_as_int_witness :
  0 <= height Sample.highBlock <= 4294967295
  /\ in_int64 (time Sample.highBlock)
  /\ rowA Sample.highBlock = ("-1,1500000000,00ff" ++ nl)%string.
Proof.
  assert (H1 : 0 <= height Sample.highBlock <= 4294967295) by (cbn; lia).
  assert (H2 : in_int64 (time Sample.highBlock))
    by (unfold in_int64, INT64_MIN, INT64_MAX; cbn; lia).
  split; [exact H1|]. split; [exact H2|].
  exact (proj1 (row_height_is_read_as_int Sample.highBlock H1 H2)).
Defined.
